(** * Verification of the invidentes assistant (obstacle alerts, queues,
    audio noise detection, description cache and cleaning).

    Shallow embedding of the Python sources:
    - src/Nueva carpeta/obstacle_assistant.py  (capture loop, frame queue)
    - src/Nueva carpeta/modules/obstacle_alert.py (alert messages, debounce)
    - src/Nueva carpeta/utils/helpers.py (calculate_proximity)
    - src/modules/audio_detector.py (simple RMS noise detector)
    - src/modules/database_manager.py (description cache upsert)
    - src/Streamlit-Ollama/agents/language_agent.py (cache key, cleaning)
    - src/app.py (browser per-cycle processing) *)

From Stdlib Require Import List ZArith QArith Qround Lia Lqa Permutation Sorted.
From Stdlib Require Import Strings.String.
From Stdlib Require Import Reals.
From Stdlib Require Lra.
Import ListNotations.

Open Scope Z_scope.

(* ------------------------------------------------------------------ *)
(** ** Python's [queue.Queue] *)

Module PyQueue.

(** A [queue.Queue(maxsize)]: [maxsize <= 0] means unbounded, as in
    Python.  Items are kept oldest first. *)
Record queue (A : Type) := mkQueue { maxsize : Z; items : list A }.
Arguments mkQueue {A} _ _.
Arguments maxsize {A} _.
Arguments items {A} _.

Definition new {A} (m : Z) : queue A := mkQueue m [].

(** [Queue.full()]: [0 < maxsize <= qsize()]. *)
Definition full {A} (q : queue A) : bool :=
  (0 <? maxsize q) && (maxsize q <=? Z.of_nat (List.length (items q))).

(** Outcome of a non-blocking [put]: the new queue, or [queue.Full]. *)
Inductive put_result (A : Type) := Put (q : queue A) | Full.
Arguments Put {A} _.
Arguments Full {A}.

(** [put(item, block=False)]. *)
Definition put_nowait {A} (q : queue A) (x : A) : put_result A :=
  if full q then Full else Put (mkQueue (maxsize q) (items q ++ [x])).

(** [get_nowait()]: [None] is [queue.Empty]. *)
Definition get_nowait {A} (q : queue A) : option (A * queue A) :=
  match items q with
  | [] => None
  | x :: r => Some (x, mkQueue (maxsize q) r)
  end.

End PyQueue.

Import PyQueue.

(* ------------------------------------------------------------------ *)
(** ** Capture loop of [ObstacleAssistant._video_capture_thread] *)

Module Capture.

Definition FRAME_QUEUE_MAXSIZE : Z := 2.

(** [self.frame_queue = queue.Queue(maxsize=2)] *)
Definition init_frame_queue {F} : queue F := new FRAME_QUEUE_MAXSIZE.

(** Lines 247-257: offer one frame to the detection queue.
    {v
    if not self.frame_queue.full():
        try:
            self.frame_queue.put(frame.copy(), block=False)
        except queue.Full:
            try:
                self.frame_queue.get_nowait()
                self.frame_queue.put(frame.copy(), block=False)
            except queue.Empty:
                pass
    v}
    The queue is only touched by this thread and the detection thread;
    with no concurrent consumer, the step is as below. *)
Definition offer_frame {F} (q : queue F) (frame : F) : queue F :=
  if negb (full q) then
    match put_nowait q frame with
    | Put q' => q'
    | Full =>
        match get_nowait q with
        | None => q
        | Some (_, q1) =>
            match put_nowait q1 frame with
            | Put q2 => q2
            | Full => q1
            end
        end
    end
  else q.

(** Several frames captured in a row, no consumption in between. *)
Definition offer_frames {F} (q : queue F) (frames : list F) : queue F :=
  fold_left offer_frame frames q.

End Capture.

(* ------------------------------------------------------------------ *)
(** ** [ObstacleAlert] (src/Nueva carpeta/modules/obstacle_alert.py) *)

Module Alert.
Import String.
Local Open Scope string_scope.

(** The settings read from config.py (environment-configurable). *)
Record config := mkConfig {
  ALERT_ENABLED : bool;
  ALERT_CLOSE_FREQUENCY : Z;
  ALERT_MEDIUM_FREQUENCY : Z;
  ALERT_FAR_FREQUENCY : Z;
  ALERT_DURATION : Q;
  ALERT_DEBOUNCE_TIME : Q
}.

(** Defaults of config.py: true, 900, 600, 300, 0.1, 0.3. *)
Definition default_config : config :=
  mkConfig true 900 600 300 (1 # 10) (3 # 10).

(** The keys of the [alert_data] dictionary that differ between
    obstacle alerts and noise alerts. *)
Inductive alert_extra :=
| ObstacleInfo (proximity : string) (obstacle_type : string)
| NoiseInfo (noise_type : string) (intensity : Q).

(** An Alert Message, the [alert_data] dictionary. *)
Record alert_msg := mkAlert {
  a_type : string;
  a_frequency : Z;
  a_duration : Q;
  a_priority : string;
  a_extra : alert_extra
}.

(** Instance state: [enabled], [alert_queue = queue.Queue()] (no
    maxsize), [last_alert_time], [debounce_time]. *)
Record state := mkState {
  enabled : bool;
  alert_queue : queue alert_msg;
  last_alert_time : list ((string * Z) * Q);
  debounce_time : Q
}.

(** [ObstacleAlert.__init__] *)
Definition init (cfg : config) : state :=
  mkState (ALERT_ENABLED cfg) (new 0) [] (ALERT_DEBOUNCE_TIME cfg).

(** Python's [int(x)] on the products [frequency * 1.1] and
    [frequency * 0.9]: truncation towards zero (the products are
    computed exactly here). *)
Definition int_scale (f num den : Z) : Z := Z.quot (f * num) den.

Definition vehicle_types : list string :=
  ["car"; "bus"; "truck"; "motorcycle"; "bicycle"].

Definition in_list (s : string) (l : list string) : bool :=
  existsb (String.eqb s) l.

(** [self.alert_queue.put(alert_data, block=False)], [queue.Full]
    swallowed. *)
Definition enqueue (st : state) (m : alert_msg) : state :=
  match put_nowait (alert_queue st) m with
  | Put q => mkState (enabled st) q (last_alert_time st) (debounce_time st)
  | Full => st
  end.

(** [ObstacleAlert.alert_obstacle] (lines 149-201). *)
Definition alert_obstacle (cfg : config) (st : state) (proximity : string)
    (obstacle_type : string) (priority : string) (is_center : bool)
    : state :=
  if negb (enabled st) then st
  else if (proximity =? "far") && negb is_center then st
  else if (proximity =? "medium") && negb is_center then st
  else
    let '(frequency, duration) :=
      if proximity =? "close" then
        (ALERT_CLOSE_FREQUENCY cfg, ALERT_DURATION cfg * (3 # 2))%Q
      else if proximity =? "medium" then
        (ALERT_MEDIUM_FREQUENCY cfg, ALERT_DURATION cfg)
      else
        (ALERT_FAR_FREQUENCY cfg, ALERT_DURATION cfg * (1 # 2))%Q in
    let frequency :=
      if obstacle_type =? "person" then int_scale frequency 11 10
      else if in_list obstacle_type vehicle_types then int_scale frequency 9 10
      else frequency in
    enqueue st (mkAlert "obstacle" frequency duration priority
                  (ObstacleInfo proximity obstacle_type)).

(** [ObstacleAlert.alert_noise] (lines 203-244). *)
Definition alert_noise (cfg : config) (st : state) (noise_type : string)
    (intensity : Q) : state :=
  if negb (enabled st) then st
  else
    let '(frequency, duration, priority) :=
      if noise_type =? "siren" then (1200, Qmult (ALERT_DURATION cfg) (2 # 1), "high")
      else if noise_type =? "traffic" then (400, ALERT_DURATION cfg, "normal")
      else if noise_type =? "voice" then (500, Qmult (ALERT_DURATION cfg) (4 # 5), "low")
      else (ALERT_MEDIUM_FREQUENCY cfg, ALERT_DURATION cfg, "normal") in
    enqueue st (mkAlert "noise" frequency duration priority
                  (NoiseInfo noise_type intensity)).

(** The debounce key [f"{alert_type}_{frequency}"], as the pair it is
    built from ([alert_type] is "obstacle" or "noise", so the rendering
    is injective). *)
Definition alert_key (m : alert_msg) : string * Z := (a_type m, a_frequency m).

Definition key_eqb (k1 k2 : string * Z) : bool :=
  (fst k1 =? fst k2) && Z.eqb (snd k1) (snd k2).

Fixpoint lookup_time (k : string * Z) (l : list ((string * Z) * Q)) : option Q :=
  match l with
  | [] => None
  | (k', t) :: r => if key_eqb k k' then Some t else lookup_time k r
  end.

(** [self.last_alert_time[alert_key] = current_time] *)
Definition set_time (k : string * Z) (t : Q) (l : list ((string * Z) * Q)) :=
  (k, t) :: filter (fun e => negb (key_eqb k (fst e))) l.

(** [ObstacleAlert._play_alert] (lines 79-105) at time [current_time]:
    the new state and whether the beep is sounded. *)
Definition play_alert (st : state) (m : alert_msg) (current_time : Q)
    : state * bool :=
  if negb (enabled st) then (st, false)
  else
    let k := alert_key m in
    let recent :=
      match lookup_time k (last_alert_time st) with
      | Some t0 => negb (Qle_bool (debounce_time st) (current_time - t0))
      | None => false
      end in
    if recent then (st, false)
    else (mkState (enabled st) (alert_queue st)
            (set_time k current_time (last_alert_time st)) (debounce_time st),
          true).

(** One iteration of [_process_alerts]: take the oldest message and
    play it at time [now]; [None] when the queue is empty. *)
Definition process_one (st : state) (now : Q) : option (state * bool) :=
  match get_nowait (alert_queue st) with
  | None => None
  | Some (m, q) =>
      Some (play_alert (mkState (enabled st) q (last_alert_time st)
                          (debounce_time st)) m now)
  end.

End Alert.

(* ------------------------------------------------------------------ *)
(** ** [calculate_proximity] (src/Nueva carpeta/utils/helpers.py) *)

Module Helpers.
Import String.
Local Open Scope string_scope.

(** The double literals [0.08] and [0.04], exactly ([2^56] and [2^57]
    are the denominators). *)
Definition f0_08 : Q := 5764607523034235 # 72057594037927936.
Definition f0_04 : Q := 5764607523034235 # 144115188075855872.

(** Lines 47-66.  [relative_size] is a float, compared exactly with the
    doubles of the literals.  [frame_width] and [frame_height] are accepted
    and not read; no configuration value is read either. *)
Definition calculate_proximity (relative_size : Q) (frame_width frame_height : Z)
    : string :=
  if negb (Qle_bool relative_size f0_08) then "close"
  else if negb (Qle_bool relative_size f0_04) then "medium"
  else "far".

End Helpers.

(* ------------------------------------------------------------------ *)
(** ** Simple [AudioDetector.detect_noise] (src/modules/audio_detector.py) *)

Module Audio.
Import String.
Local Open Scope string_scope.
Local Open Scope R_scope.

(** Wrap-around of a numpy [int16]. *)
Definition wrap_int16 (x : Z) : Z := ((x + 32768) mod 65536 - 32768)%Z.

(** [audio_data**2] on an [int16] array: the square is computed in
    [int16] and wraps. *)
Definition square_int16 (s : Z) : Z := wrap_int16 (s * s).

Definition sum_Z (l : list Z) : Z := fold_right Z.add 0%Z l.

(** [noise_level(normalized_rms)] bucketing, lines 84-92. *)
Definition level_of (v : R) : string :=
  if Rlt_dec 0.7 v then "muy alto"
  else if Rlt_dec 0.5 v then "alto"
  else if Rlt_dec 0.3 v then "moderado"
  else "bajo".

(** A Noise Event: [level] and [intensity]. *)
Record noise_event := mkNoise { level : string; intensity : R }.

(** Lines 70-101 on the chunk [samples] that [stream.read] returned.
    [np.mean] of an integer array is computed in float64; the mean of an
    empty chunk and the square root of a negative mean are NaN, and
    [NaN > threshold] is false, so no event is returned then. *)
Definition detect_noise (noise_threshold : R) (samples : list Z)
    : option noise_event :=
  match samples with
  | [] => None
  | _ =>
      let mean := IZR (sum_Z (map square_int16 samples)) / INR (List.length samples) in
      if Rlt_dec mean 0 then None
      else
        let normalized_rms := sqrt mean / 32768 in
        if Rlt_dec noise_threshold normalized_rms then
          Some (mkNoise (level_of normalized_rms) normalized_rms)
        else None
  end.

Definition NOISE_THRESHOLD : R := 0.2.

(** The detector as the spec describes it: RMS of the samples normalised
    to [-1,1]. *)
Definition spec_rms (samples : list Z) : R :=
  sqrt (fold_right Rplus 0 (map (fun s => (IZR s / 32768) ^ 2) samples)
        / INR (List.length samples)).

Definition spec_detect_noise (noise_threshold : R) (samples : list Z)
    : option noise_event :=
  let v := spec_rms samples in
  if Rlt_dec noise_threshold v then Some (mkNoise (level_of v) v) else None.

End Audio.

(* ------------------------------------------------------------------ *)
(** ** Description cache upsert (src/modules/database_manager.py) *)

Module DescCache.
Import String.

(** A row of [cache_descripciones] (timestamps left out). *)
Record row := mkRow { descripcion : string; uso_count : Z }.

(** The table: rows keyed by [hash_objetos], in insertion order. *)
Definition table := list (string * row).

Fixpoint select (h : string) (t : table) : list row :=
  match t with
  | [] => []
  | (h', r) :: t' => if String.eqb h h' then r :: select h t' else select h t'
  end.

(** [UPDATE ... SET <f row> WHERE hash_objetos = h]. *)
Definition update_where (h : string) (f : row -> row) (t : table) : table :=
  map (fun e => if String.eqb h (fst e) then (fst e, f (snd e)) else e) t.

(** [uso_count INTEGER DEFAULT 1] *)
Definition USO_COUNT_DEFAULT : Z := 1.

(** [_cache_description_postgres]: [INSERT ... ON CONFLICT (hash_objetos)
    DO UPDATE SET descripcion = EXCLUDED.descripcion,
    uso_count = cache_descripciones.uso_count + 1]. *)
Definition cache_description_postgres (t : table) (h d : string) : table :=
  match select h t with
  | [] => t ++ [(h, mkRow d USO_COUNT_DEFAULT)]
  | _ :: _ => update_where h (fun r => mkRow d (uso_count r + 1)) t
  end.

(** [_cache_description_supabase]: select [uso_count], then update with
    [existing.data[0]['uso_count'] + 1] or insert with [uso_count = 1]. *)
Definition cache_description_supabase (t : table) (h d : string) : table :=
  match select h t with
  | r0 :: _ =>
      let new_count := uso_count r0 + 1 in
      update_where h (fun _ => mkRow d new_count) t
  | [] => t ++ [(h, mkRow d 1)]
  end.

End DescCache.

(* ------------------------------------------------------------------ *)
(** ** Cache key of [LanguageAgent] (src/Streamlit-Ollama/agents/language_agent.py) *)

Module CacheKey.
Import String.

(** The fields of a detection that [_create_hash_from_detections] reads;
    [None] is a missing key. *)
Record bbox := mkBbox { x_center : option Q; y_center : option Q }.
Record detection := mkDet { name : option string; det_bbox : option bbox }.

(** Python's [round] on a number: to the nearest integer, ties to even. *)
Definition py_round (q : Q) : Z :=
  let f := Qfloor q in
  let r := (q - inject_Z f)%Q in
  if Qle_bool (1 # 2) r then
    if Qeq_bool r (1 # 2) then (if Z.even f then f else f + 1) else f + 1
  else f.

(** The normalised dictionary [{'name', 'x_center', 'y_center'}]. *)
Record norm := mkNorm { n_name : string; n_x : Z; n_y : Z }.

Definition get_or {A} (o : option A) (d : A) : A :=
  match o with Some x => x | None => d end.

(** Lines 64-69. *)
Definition normalize (det : detection) : norm :=
  let b := get_or (det_bbox det) (mkBbox None None) in
  mkNorm (get_or (name det) EmptyString)
    (py_round (get_or (x_center b) 0%Q / 100)%Q)
    (py_round (get_or (y_center b) 0%Q / 100)%Q).

(** The sort key [(x['name'], x['x_center'], x['y_center'])], compared
    lexicographically (strings by character code). *)
Definition key_compare (a b : norm) : comparison :=
  match String.compare (n_name a) (n_name b) with
  | Eq => match Z.compare (n_x a) (n_x b) with
          | Eq => Z.compare (n_y a) (n_y b)
          | c => c
          end
  | c => c
  end.

Definition key_leb (a b : norm) : bool :=
  match key_compare a b with Gt => false | _ => true end.

(** [list.sort] is a stable sort; a stable insertion sort computes the
    same list. *)
Fixpoint insert (a : norm) (l : list norm) : list norm :=
  match l with
  | [] => [a]
  | b :: r => if key_leb a b then a :: b :: r else b :: insert a r
  end.

Fixpoint sort (l : list norm) : list norm :=
  match l with
  | [] => []
  | a :: r => insert a (sort r)
  end.

Section Hash.
(** [json.dumps(..., sort_keys=True)] and [hashlib.md5(...).hexdigest()]
    are library calls; the key is built from them as below. *)
Variable json_dumps : list norm -> string.
Variable md5_hexdigest : string -> string.

(** [_create_hash_from_detections] (lines 52-76). *)
Definition create_hash_from_detections (detections : list detection) : string :=
  md5_hexdigest (json_dumps (sort (map normalize detections))).
End Hash.

End CacheKey.

(* ------------------------------------------------------------------ *)
(** ** [LanguageAgent._clean_description] *)

Module Clean.

(** A Python [str] as its list of code points. *)
Definition text := list N.

Definition SPACE : N := 32.
Definition PERIOD : N := 46.
Definition EXCLAMATION : N := 33.
Definition QUESTION : N := 63.

(** [str.isspace()] on one code point. *)
Definition is_space (c : N) : bool :=
  ((9 <=? c) && (c <=? 13))%N || ((28 <=? c) && (c <=? 32))%N
  || (c =? 133)%N || (c =? 160)%N || (c =? 5760)%N
  || ((8192 <=? c) && (c <=? 8202))%N || (c =? 8232)%N || (c =? 8233)%N
  || (c =? 8239)%N || (c =? 8287)%N || (c =? 12288)%N.

(** [str.split()] with no separator: maximal runs of non-space code
    points; [cur] is the current word, reversed. *)
Fixpoint split_go (cur : text) (s : text) : list text :=
  match s with
  | [] => match cur with [] => [] | _ => [rev cur] end
  | c :: r =>
      if is_space c then
        match cur with
        | [] => split_go [] r
        | _ => rev cur :: split_go [] r
        end
      else split_go (c :: cur) r
  end.

Definition py_split (s : text) : list text := split_go [] s.

(** [' '.join(words)] *)
Fixpoint join_space (ws : list text) : text :=
  match ws with
  | [] => []
  | [w] => w
  | w :: r => w ++ SPACE :: join_space r
  end.

(** [s.rfind(c)]: last index of [c], or -1. *)
Fixpoint rfind_go (c : N) (s : text) (i : Z) (best : Z) : Z :=
  match s with
  | [] => best
  | d :: r => rfind_go c r (i + 1) (if (d =? c)%N then i else best)
  end.

Definition rfind (s : text) (c : N) : Z := rfind_go c s 0 (-1).

(** [s.rsplit(' ', 1)[0]]: the text before the last space, or [s] when
    it has none. *)
Definition rsplit_head (s : text) : text :=
  let i := rfind s SPACE in
  if (i <? 0)%Z then s else firstn (Z.to_nat i) s.

Definition is_end_punct (c : N) : bool :=
  (c =? PERIOD)%N || (c =? EXCLAMATION)%N || (c =? QUESTION)%N.

(** [s.endswith(('.', '!', '?'))] *)
Definition ends_with_punct (s : text) : bool :=
  match rev s with
  | c :: _ => is_end_punct c
  | [] => false
  end.

Fixpoint lstrip (s : text) : text :=
  match s with
  | c :: r => if is_space c then lstrip r else s
  | [] => []
  end.

(** [s.strip()] *)
Definition strip (s : text) : text := rev (lstrip (rev (lstrip s))).

(** [s[:k]]: a negative [k] counts from the end. *)
Definition slice_to (s : text) (k : Z) : text :=
  if (k <? 0)%Z then firstn (Z.to_nat (Z.of_nat (List.length s) + k)) s
  else firstn (Z.to_nat k) s.

(** The integer [n] rounded to 53 significant bits, to nearest with ties
    to even, as [(m, e)] standing for [m * 2^e]: the double nearest to [n]
    (no exponent bound is reached by the values used below). *)
Definition round53 (n : Z) : Z * Z :=
  let a := Z.abs n in
  let s := (Z.log2 a - 52)%Z in
  if (s <=? 0)%Z then (n, 0%Z)
  else
    let q := (a / 2 ^ s)%Z in
    let r := (a mod 2 ^ s)%Z in
    let h := (2 ^ (s - 1))%Z in
    let q' := if (h <? r)%Z then (q + 1)%Z
              else if (r <? h)%Z then q
              else if Z.even q then q else (q + 1)%Z in
    (Z.sgn n * q', s)%Z.

(** The double [0.7] is [C0_7 / 2^52]. *)
Definition C0_7 : Z := 3152519739159347.

(** [p > m * 0.7] for ints [p] and [m]: [m] is converted to the nearest
    double, the product is rounded to the nearest double, and an int is
    compared exactly with a float. *)
Definition gt_mul_0_7 (p m : Z) : bool :=
  let '(a, ea) := round53 m in
  let '(b, eb) := round53 (a * C0_7) in
  (b * 2 ^ (ea + eb) <? p * 2 ^ 52)%Z.

(** Lines 238-273, [max_len] being [MAX_DESCRIPTION_LENGTH] (500 by
    default).  The test [last_punctuation > MAX_DESCRIPTION_LENGTH * 0.7]
    is taken on the float product, as Python computes it. *)
Definition clean_description (max_len : Z) (description : text) : text :=
  let description := join_space (py_split description) in
  let description :=
    if (max_len <? Z.of_nat (List.length description))%Z then
      let truncated := slice_to description max_len in
      let last_punctuation :=
        Z.max (rfind truncated PERIOD)
          (Z.max (rfind truncated EXCLAMATION) (rfind truncated QUESTION)) in
      if gt_mul_0_7 last_punctuation max_len then
        slice_to description (last_punctuation + 1)
      else rsplit_head truncated ++ [PERIOD]
    else description in
  let description :=
    match description with
    | [] => description
    | _ => if negb (ends_with_punct description) then description ++ [PERIOD]
           else description
    end in
  strip description.

Definition MAX_DESCRIPTION_LENGTH : Z := 500.

End Clean.

(* ------------------------------------------------------------------ *)
(** ** Per-cycle processing of the browser variant (src/app.py) *)

Module Browser.
Import String.

(** The parts of [st.session_state] the detection schedule reads and
    writes. *)
Record session := mkSession {
  last_detection_time : Q;
  last_description : string
}.

(** What one cycle observes from its collaborators: the detections of
    [vision_agent.detect_objects] (names; [[]] also when it raised),
    whether [detect_noise] produced a Noise Event, and the outcome of
    [generate_description] and [speak]: [None] when one of them raised
    (the exception is caught and logged). *)
Record cycle_input := mkInput {
  now : Q;
  detections : list string;
  noise_info : bool;
  description : option string
}.

(** Lines 308-376: the new session state and whether a detection pass
    ran in this cycle. *)
Definition process_cycle (s : session) (i : cycle_input) : session * bool :=
  let time_since_last := (now i - last_detection_time s)%Q in
  if Qle_bool 3 time_since_last then
    let s' :=
      if negb (match detections i with [] => true | _ => false end) || noise_info i then
        match description i with
        | None => s
        | Some d =>
            if negb (String.eqb d (last_description s)) then
              mkSession (now i) d
            else s
        end
      else mkSession (now i) (last_description s) in
    (s', true)
  else (s, false).

(** A run of cycles: the times at which a detection pass ran. *)
Fixpoint run (s : session) (l : list cycle_input) : list Q :=
  match l with
  | [] => []
  | i :: r =>
      let '(s', ran) := process_cycle s i in
      if ran then now i :: run s' r else run s' r
  end.

End Browser.

(* ------------------------------------------------------------------ *)
(** ** Float literals *)

Module PyFloat.
(** The exact values of the double literals the code compares with. *)
Definition f0_4 : Q := 3602879701896397 # 9007199254740992.
Definition f0_6 : Q := 5404319552844595 # 9007199254740992.
Definition f0_7 : Q := 3152519739159347 # 4503599627370496.
(** [a < b] on floats. *)
Definition Qltb (a b : Q) : bool := negb (Qle_bool b a).
End PyFloat.

(* ------------------------------------------------------------------ *)
(** ** Queue loops *)

Module QueueOps.

(** [while not q.empty(): try: q.get_nowait() except queue.Empty: break] *)
Fixpoint drain_go {A} (fuel : nat) (q : queue A) : queue A :=
  match fuel with
  | O => q
  | S f => match get_nowait q with
           | None => q
           | Some (_, q') => drain_go f q'
           end
  end.

Definition drain {A} (q : queue A) : queue A := drain_go (List.length (items q)) q.

(** [while True: try: out.append(q.get_nowait()) except queue.Empty: break]:
    everything taken out, oldest first. *)
Fixpoint take_all_go {A} (fuel : nat) (q : queue A) : list A * queue A :=
  match fuel with
  | O => ([], q)
  | S f => match get_nowait q with
           | None => ([], q)
           | Some (x, q') => let '(xs, q'') := take_all_go f q' in (x :: xs, q'')
           end
  end.

Definition take_all {A} (q : queue A) : list A * queue A :=
  take_all_go (S (List.length (items q))) q.

End QueueOps.

(* ------------------------------------------------------------------ *)
(** ** [ObstacleAlert.set_enabled] and [stop] *)

Module AlertCtl.
Import Alert.

(** Lines 246-255. *)
Definition set_enabled (st : state) (b : bool) : state :=
  let st := mkState b (alert_queue st) (last_alert_time st) (debounce_time st) in
  if negb b then
    mkState (enabled st) (QueueOps.drain (alert_queue st)) (last_alert_time st)
      (debounce_time st)
  else st.

(** Lines 257-265 ([pygame.mixer.quit()] has no effect on this state). *)
Definition stop (st : state) : state := set_enabled st false.

(** A call a producer thread makes on the alert system. *)
Inductive call :=
| ObstacleCall (proximity obstacle_type priority : string) (is_center : bool)
| NoiseCall (noise_type : string) (intensity : Q).

Definition apply_call (cfg : config) (st : state) (c : call) : state :=
  match c with
  | ObstacleCall p o pr ic => alert_obstacle cfg st p o pr ic
  | NoiseCall t i => alert_noise cfg st t i
  end.

Definition apply_calls (cfg : config) (st : state) (cs : list call) : state :=
  fold_left (apply_call cfg) cs st.

End AlertCtl.

(* ------------------------------------------------------------------ *)
(** ** [VisionAgent] of the standalone assistant
       (src/Nueva carpeta/agents/vision_agent.py) *)

Module VisionN.
Local Open Scope string_scope.

(** A detection dictionary as [detect_objects] builds it (lines 121-135);
    the bounding-box sub-dictionary is not read by its callers here. *)
Record detection := mkDetection {
  d_name : string;
  d_confidence : Q;
  d_proximity : string;
  d_is_center : bool;
  d_relative_size : Q
}.

Definition high_priority : list string :=
  ["person"; "chair"; "table"; "door"; "stairs";
   "car"; "bus"; "truck"; "bicycle"; "motorcycle";
   "dog"; "cat"; "backpack"; "handbag"; "umbrella";
   "couch"; "bed"; "dining table"; "toilet"; "tv";
   "bottle"; "phone"; "cell phone"; "mobile phone"].

Definition medium_priority : list string :=
  ["cup"; "book"; "laptop";
   "keyboard"; "mouse"; "vase"; "bowl";
   "remote"; "clock"; "scissors"; "toothbrush"].

Definition vehicle_classes : list string :=
  ["car"; "bus"; "truck"; "motorcycle"; "bicycle"].

Definition furniture_classes : list string :=
  ["chair"; "table"; "couch"; "bed"; "door"; "stairs"].

Section Lower.
(** [str.lower()], a library method; every result below holds whatever
    it computes. *)
Variable lower : string -> string.

(** [_is_relevant_object] (lines 159-197). *)
Definition is_relevant_object (class_name : string) (confidence : Q) : bool :=
  let class_lower := lower class_name in
  if Alert.in_list class_lower high_priority then Qle_bool PyFloat.f0_4 confidence
  else if Alert.in_list class_lower medium_priority then Qle_bool PyFloat.f0_6 confidence
  else Qle_bool PyFloat.f0_7 confidence.

(** [get_obstacle_type] (lines 199-218). *)
Definition get_obstacle_type (class_name : string) : string :=
  let class_lower := lower class_name in
  if class_lower =? "person" then "person"
  else if Alert.in_list class_lower vehicle_classes then "vehicle"
  else if Alert.in_list class_lower furniture_classes then "furniture"
  else "object".

(** The sort key [(not is_center, proximity != 'close',
    proximity != 'medium', -confidence)], compared as Python compares
    tuples ([False < True]). *)
Definition bool_compare (a b : bool) : comparison :=
  match a, b with
  | false, true => Lt
  | true, false => Gt
  | _, _ => Eq
  end.

Definition key_compare (a b : detection) : comparison :=
  match bool_compare (negb (d_is_center a)) (negb (d_is_center b)) with
  | Eq =>
      match bool_compare (negb (d_proximity a =? "close"))
                         (negb (d_proximity b =? "close")) with
      | Eq =>
          match bool_compare (negb (d_proximity a =? "medium"))
                             (negb (d_proximity b =? "medium")) with
          | Eq => Qcompare (- d_confidence a) (- d_confidence b)
          | c => c
          end
      | c => c
      end
  | c => c
  end.

(** [a] may stay before [b]: not [key b < key a]. *)
Definition key_leb (a b : detection) : bool :=
  match key_compare b a with Lt => false | _ => true end.

(** [list.sort] is stable; a stable insertion sort gives the same list. *)
Fixpoint insert (a : detection) (l : list detection) : list detection :=
  match l with
  | [] => [a]
  | b :: r => if key_leb a b then a :: b :: r else b :: insert a r
  end.

Fixpoint sort (l : list detection) : list detection :=
  match l with
  | [] => []
  | a :: r => insert a (sort r)
  end.

Definition max_detections : nat := 10.

(** The agent's counters. *)
Record agent := mkAgent {
  model_loaded : bool;
  frame_count : Z;
  process_every_n_frames : Z
}.

(** Outcome of a call: the list returned, or an exception raised out of
    the method (the modulo by a zero [process_every_n_frames] is outside
    the [try]). *)
Inductive outcome := Returned (l : list detection) | Raised.

(** [detect_objects] (lines 49-157).  [boxes] are the per-box
    dictionaries of lines 93-135, in YOLO's order, before the relevance
    filter: the geometry ([calculate_bbox_position],
    [calculate_proximity], [is_center_zone]) is computed per box by the
    model's output and is an input here. *)
Definition detect_objects (a : agent) (boxes : list detection)
    (force_process : bool) : agent * outcome :=
  if negb (model_loaded a) then (a, Returned [])
  else
    let a := mkAgent (model_loaded a) (frame_count a + 1) (process_every_n_frames a) in
    if negb force_process && (Z.eqb (process_every_n_frames a) 0) then (a, Raised)
    else if negb force_process
            && negb (Z.eqb (frame_count a mod process_every_n_frames a) 0) then
      (a, Returned [])
    else
      let detections :=
        filter (fun d => is_relevant_object (d_name d) (d_confidence d)) boxes in
      (a, Returned (firstn max_detections (sort detections))).

End Lower.
End VisionN.

(* ------------------------------------------------------------------ *)
(** ** Detection thread of the standalone assistant
       (src/Nueva carpeta/obstacle_assistant.py, lines 271-393) *)

Module Pipeline.
Import VisionN.
Local Open Scope string_scope.

(** An entry of [objects_to_announce] (lines 339-345). *)
Record announce_info := mkAnnounce {
  an_name : string;
  an_type : string;
  an_proximity : string;
  an_size : Q;
  an_center : bool
}.

(** The state the loop body updates: the alert system, the GUI queue
    [detection_queue = queue.Queue(maxsize=10)] (a detection with its
    added [obstacle_type]) and [objects_to_announce]. *)
Record pstate := mkP {
  p_alert : Alert.state;
  p_gui : queue (detection * string);
  p_announce : list announce_info
}.

Definition DETECTION_QUEUE_MAXSIZE : Z := 10.

(** Lines 314-320. *)
Definition priority_of (proximity : string) (is_center : bool) : string :=
  if is_center && (proximity =? "close") then "high"
  else if is_center || (proximity =? "close") then "normal"
  else "low".

(** Line 335. *)
Definition should_announce (proximity : string) (is_center : bool) : bool :=
  (proximity =? "close") || (is_center && Alert.in_list proximity ["close"; "medium"]).

Section Lower.
Variable lower : string -> string.

(** Lines 299-349: one detection of the frame. *)
Definition process_detection (cfg : Alert.config) (s : pstate) (det : detection)
    : pstate :=
  let proximity := d_proximity det in
  let obstacle_type := get_obstacle_type lower (d_name det) in
  let is_center := d_is_center det in
  let gui :=
    if negb (full (p_gui s)) then
      match put_nowait (p_gui s) (det, obstacle_type) with
      | Put q => q
      | Full => p_gui s
      end
    else p_gui s in
  let priority := priority_of proximity is_center in
  let alert := Alert.alert_obstacle cfg (p_alert s) proximity obstacle_type
                 priority is_center in
  let announce :=
    if should_announce proximity is_center then
      (p_announce s ++ [mkAnnounce (d_name det) obstacle_type proximity
                          (d_relative_size det) is_center])%list
    else p_announce s in
  mkP alert gui announce.

(** Lines 294-349 for the detections of one frame: [objects_to_announce]
    starts empty for every frame. *)
Definition process_frame (cfg : Alert.config) (alert : Alert.state)
    (gui : queue (detection * string)) (detections : list detection) : pstate :=
  fold_left (process_detection cfg) detections (mkP alert gui []).

End Lower.

(** The [ObstacleGUI] fields [update_detections] reads and writes:
    [running], whether [root] is set, and [total_detections]. *)
Record gui_state := mkGui {
  g_running : bool;
  g_has_root : bool;
  g_total : nat
}.

(** [ObstacleGUI.update_detections] (gui/obstacle_gui.py lines 128-156):
    nothing when the GUI is not running or has no root; otherwise every
    queued detection is taken, oldest first, and counted. *)
Definition gui_update {A} (g : gui_state) (q : queue A) : list A * queue A * gui_state :=
  if negb (g_running g) || negb (g_has_root g) then ([], q, g)
  else
    let '(shown, q') := QueueOps.take_all q in
    (shown, q', mkGui (g_running g) (g_has_root g) (g_total g + List.length shown)%nat).

End Pipeline.

(* ------------------------------------------------------------------ *)
(** ** [AudioDetector.get_audio_level] (src/modules/audio_detector.py) *)

Module AudioLevel.
Import Audio.
Local Open Scope R_scope.

(** Python's [min(a, b)]: [a] unless [b < a]. *)
Definition py_min (a b : R) : R := if Rlt_dec b a then b else a.

(** Lines 107-123 on the chunk [samples] that [stream.read] returned,
    while listening.  [None] is NaN: the mean of an empty chunk, the square
    root of a negative mean, and [min(nan, 1.0)], which is [nan]. *)
Definition get_audio_level (samples : list Z) : option R :=
  match samples with
  | [] => None
  | _ =>
      let mean := IZR (sum_Z (map square_int16 samples)) / INR (List.length samples) in
      if Rlt_dec mean 0 then None
      else Some (py_min (sqrt mean / 32768) 1)
  end.

End AudioLevel.

(* ------------------------------------------------------------------ *)
(** ** Noise classification of the standalone assistant
       (src/Nueva carpeta/modules/audio_detector.py) *)

Module NoiseN.
Local Open Scope string_scope.

(** The environment-configurable band limits of config.py (defaults 800,
    2000, 50, 500). *)
Record freq_config := mkFreqConfig {
  SIREN_FREQ_MIN : Z;
  SIREN_FREQ_MAX : Z;
  TRAFFIC_FREQ_MIN : Z;
  TRAFFIC_FREQ_MAX : Z
}.

Definition default_freq_config : freq_config := mkFreqConfig 800 2000 50 500.

(** The [freq_info] dictionary: [dominant_freq] and the [freq_bands]
    dictionary, each key possibly absent. *)
Record freq_info := mkFreqInfo {
  dominant_freq : option Q;
  freq_bands : option (list (string * Q))
}.

(** [d.get(k, default)] on a dictionary without duplicate keys. *)
Fixpoint get {V} (k : string) (d : list (string * V)) (default : V) : V :=
  match d with
  | [] => default
  | (k', v) :: r => if String.eqb k k' then v else get k r default
  end.

Definition get_opt {V} (o : option V) (default : V) : V :=
  match o with Some v => v | None => default end.

(** The fallback [{'dominant_freq': 0, 'freq_bands': {}}]. *)
Definition fallback_info : freq_info := mkFreqInfo (Some 0%Q) (Some []).

Import PyFloat.

(** [np.argmax]: the first index of the largest value; [None] is the
    [ValueError] raised on an empty array. *)
Fixpoint argmax_go (l : list Q) (i best : nat) (bv : Q) : nat :=
  match l with
  | [] => best
  | x :: r => if Qltb bv x then argmax_go r (S i) i x else argmax_go r (S i) best bv
  end.

Definition argmax (l : list Q) : option nat :=
  match l with
  | [] => None
  | x :: r => Some (argmax_go r 1 0 x)
  end.

Section Analyze.
(** The numpy calls of the FFT path, on float64 values:
    [np.abs(np.fft.fft(x))] (taking [abs] before or after the boolean
    selection gives the same entries), [np.fft.fftfreq(n, d)], [np.sum],
    and the float [1.0 / sample_rate] for a non-zero rate. *)
Variable fft_abs : list Z -> list Q.
Variable fftfreq : nat -> Q -> list Q.
Variable np_sum : list Q -> Q.
Variable recip : Z -> Q.

(** [np.sum(fft_magnitude[mask])] over the (frequency, magnitude) pairs. *)
Definition band (mask : Q -> bool) (pos : list (Q * Q)) : Q :=
  np_sum (map snd (filter (fun fm => mask (fst fm)) pos)).

(** [_analyze_frequencies] (lines 70-110) on the int16 samples.  Every
    exception of the [try] gives the fallback: [1.0 / 0], boolean arrays of
    different lengths, and [np.argmax] of an empty array (no positive
    frequency). *)
Definition analyze_frequencies (cfg : freq_config) (has_scipy : bool)
    (sample_rate : Z) (audio_data : list Z) : freq_info :=
  if negb has_scipy || (List.length audio_data <? 2)%nat then fallback_info
  else if Z.eqb sample_rate 0 then fallback_info
  else
    let mags := fft_abs audio_data in
    let freqs := fftfreq (List.length audio_data) (recip sample_rate) in
    if negb (Nat.eqb (List.length mags) (List.length freqs)) then fallback_info
    else
      let pos := filter (fun fm => Qltb 0 (fst fm)) (combine freqs mags) in
      match argmax (map snd pos) with
      | None => fallback_info
      | Some i =>
          let dominant_freq := nth i (map fst pos) 0%Q in
          let tmin := inject_Z (TRAFFIC_FREQ_MIN cfg) in
          let tmax := inject_Z (TRAFFIC_FREQ_MAX cfg) in
          let smin := inject_Z (SIREN_FREQ_MIN cfg) in
          let smax := inject_Z (SIREN_FREQ_MAX cfg) in
          mkFreqInfo (Some dominant_freq)
            (Some [("low", band (fun f => Qle_bool tmin f && Qle_bool f tmax) pos);
                   ("mid", band (fun f => Qltb tmax f && Qltb f smin) pos);
                   ("high", band (fun f => Qle_bool smin f && Qle_bool f smax) pos)])
      end.

End Analyze.

Section Classify.
(** Float multiplication of a band value by a literal ([* 2], [* 1.5],
    [* 0.5]), with its rounding. *)
Variable fmul : Q -> Q -> Q.

(** [_classify_noise_type] (lines 112-148). *)
Definition classify_noise_type (cfg : freq_config) (noise_threshold : Q)
    (fi : freq_info) (intensity : Q) : option string :=
  if Qltb intensity noise_threshold then None
  else
    let dom := get_opt (dominant_freq fi) 0%Q in
    let bands := get_opt (freq_bands fi) [] in
    let high_band := get "high" bands 0%Q in
    if Qle_bool (inject_Z (SIREN_FREQ_MIN cfg)) dom
       && Qle_bool dom (inject_Z (SIREN_FREQ_MAX cfg))
       && Qltb (fmul (get "low" bands 0%Q) 2) high_band then Some "siren"
    else
    let low_band := get "low" bands 0%Q in
    if Qle_bool (inject_Z (TRAFFIC_FREQ_MIN cfg)) dom
       && Qle_bool dom (inject_Z (TRAFFIC_FREQ_MAX cfg))
       && Qltb (fmul (get "mid" bands 0%Q) (3 # 2)) low_band then Some "traffic"
    else
    let mid_band := get "mid" bands 0%Q in
    if Qle_bool 300 dom && Qle_bool dom 3000
       && Qltb low_band mid_band && Qltb (fmul high_band (1 # 2)) mid_band
    then Some "voice"
    else Some "general".

(** The [noise_type] the detector reports: [noise_type or 'general']
    (lines 192, 194). *)
Definition reported_noise_type (cfg : freq_config) (noise_threshold : Q)
    (fi : freq_info) (intensity : Q) : string :=
  match classify_noise_type cfg noise_threshold fi intensity with
  | Some t => t
  | None => "general"
  end.

End Classify.
End NoiseN.

(* ------------------------------------------------------------------ *)
(** ** [VoiceAnnouncer] (src/Nueva carpeta/modules/voice_announcer.py) *)

Module VoiceN.
Local Open Scope string_scope.

(** Python's [needle in hay] on strings (UTF-8 bytes here; a byte
    match of two UTF-8 strings is a code-point match). *)
Fixpoint contains (hay needle : string) : bool :=
  String.prefix needle hay ||
  match hay with
  | EmptyString => false
  | String _ r => contains r needle
  end.

(** The [translations] dictionary of [_translate_to_spanish], in its
    insertion order (lines 300-333). *)
Definition translations : list (string * string) :=
  [("person", "una persona"); ("car", "un auto"); ("bus", "un autobús");
   ("truck", "un camión"); ("motorcycle", "una motocicleta");
   ("bicycle", "una bicicleta"); ("chair", "una silla"); ("table", "una mesa");
   ("couch", "un sofá"); ("bed", "una cama"); ("door", "una puerta");
   ("stairs", "escaleras"); ("dog", "un perro"); ("cat", "un gato");
   ("backpack", "una mochila"); ("handbag", "un bolso");
   ("umbrella", "un paraguas"); ("bottle", "una botella"); ("cup", "una taza");
   ("book", "un libro"); ("phone", "un teléfono"); ("cell phone", "un celular");
   ("mobile phone", "un celular"); ("laptop", "una computadora");
   ("tv", "un televisor"); ("keyboard", "un teclado"); ("mouse", "un ratón");
   ("vase", "un jarrón"); ("bowl", "un tazón"); ("clock", "un reloj");
   ("scissors", "unas tijeras"); ("toothbrush", "un cepillo de dientes")].

(** [k in d] / [d[k]] on a dictionary. *)
Fixpoint lookup {V} (k : string) (d : list (string * V)) : option V :=
  match d with
  | [] => None
  | (k', v) :: r => if String.eqb k k' then Some v else lookup k r
  end.

(** [d[k] = v]: the key keeps a single entry. *)
Definition set {V} (k : string) (v : V) (d : list (string * V)) : list (string * V) :=
  (k, v) :: filter (fun e => negb (String.eqb k (fst e))) d.

Section Str.
(** [str.lower()] and [str.strip()], library methods. *)
Variable lower strip : string -> string.

(** [_translate_to_spanish] (lines 298-348). *)
Definition translate_to_spanish (object_name obstacle_type : string) : string :=
  let object_lower := strip (lower object_name) in
  match lookup object_lower translations with
  | Some v => v
  | None =>
      match find (fun kv => contains object_lower (fst kv) || contains (fst kv) object_lower)
                 translations with
      | Some (_, v) => v
      | None => "un " ++ object_name
      end
  end.

(** [_generate_message] (lines 350-360). *)
Definition generate_message (spanish_name obstacle_type : string) : string :=
  if obstacle_type =? "person" then "¡Atención! Hay " ++ spanish_name ++ " muy cerca de ti"
  else if obstacle_type =? "vehicle" then "¡Cuidado! Hay " ++ spanish_name ++ " muy cerca de ti"
  else if obstacle_type =? "furniture" then "¡Atención! Hay " ++ spanish_name ++ " muy cerca de ti"
  else "¡Atención! Hay " ++ spanish_name ++ " muy cerca de ti".

(** The announcer's state: [enabled], whether [engine] is set,
    [engine_name], [voice_queue = queue.Queue(maxsize=10)],
    [last_announcement_time] and [announcement_debounce = 2.0]. *)
Record vstate := mkV {
  v_enabled : bool;
  v_engine : bool;
  v_engine_name : string;
  v_queue : queue string;
  v_last : list (string * Q);
  v_debounce : Q
}.

Definition VOICE_QUEUE_MAXSIZE : Z := 10.

(** [announce_close_object] (lines 230-296) at time [current_time], with
    no concurrent consumer between its [full()] test and its [put]. *)
Definition announce_close_object (st : vstate) (object_name obstacle_type : string)
    (current_time : Q) : vstate :=
  if negb (v_enabled st) then st
  else if negb (v_engine st) && (v_engine_name st =? "pyttsx3") then st
  else
    let recent :=
      match lookup object_name (v_last st) with
      | Some t0 => PyFloat.Qltb (current_time - t0) (v_debounce st)
      | None => false
      end in
    if recent then st
    else
      let last := set object_name current_time (v_last st) in
      let message := generate_message (translate_to_spanish object_name obstacle_type)
                       obstacle_type in
      let q1 :=
        if full (v_queue st) then
          match get_nowait (v_queue st) with
          | Some (_, q') => q'
          | None => v_queue st
          end
        else v_queue st in
      let q2 := match put_nowait q1 message with Put q => q | Full => q1 end in
      mkV (v_enabled st) (v_engine st) (v_engine_name st) q2 last (v_debounce st).

(** Several calls [(object_name, obstacle_type, current_time)] in a row. *)
Definition announce_all (st : vstate) (calls : list (string * string * Q)) : vstate :=
  fold_left (fun s '(n, t, now) => announce_close_object s n t now) calls st.

End Str.
End VoiceN.

Module Window.
(** The last [n] elements of a list. *)
Definition lastn {A} (n : nat) (l : list A) : list A := rev (firstn n (rev l)).
End Window.

Module VoiceSpec.
Local Open Scope string_scope.
(** The calls of a batch whose object name did not occur earlier in the
    batch, in order. *)
Fixpoint first_by_name_go (seen : list string) (calls : list (string * string * Q))
    : list (string * string * Q) :=
  match calls with
  | [] => []
  | (n, t, now) :: r =>
      if existsb (String.eqb n) seen then first_by_name_go seen r
      else (n, t, now) :: first_by_name_go (n :: seen) r
  end.

Definition first_by_name (calls : list (string * string * Q)) := first_by_name_go [] calls.
End VoiceSpec.

(* ------------------------------------------------------------------ *)
(** ** [AudioManager] (src/Streamlit-Ollama/modules/audio_module.py) and
       [stop_detection] (src/app.py) *)

Module AudioMgr.
Local Open Scope string_scope.

(** config.py's default [AUDIO_QUEUE_MAX_SIZE]. *)
Definition AUDIO_QUEUE_MAX_SIZE : Z := 3.

Section Strip.
(** [str.strip()], a library method. *)
Variable strip : string -> string.

(** [speak] (lines 231-262) on [audio_queue], with no concurrent
    producer.  After the eviction the queue is not full, so the blocking
    [put(text)] returns at once: it is [put_nowait] here, whose [Full]
    outcome cannot occur at that point. *)
Definition speak (q : queue string) (text : string) (priority : bool) : queue string :=
  if (text =? "") || (strip text =? "") then q
  else
    let q := if priority then QueueOps.drain q else q in
    let q :=
      if full q then
        match get_nowait q with
        | Some (_, q') => q'
        | None => q
        end
      else q in
    match put_nowait q text with
    | Put q' => q'
    | Full => q
    end.

(** [stop] (lines 294-304). *)
Definition stop (q : queue string) : queue string := QueueOps.drain q.

(** [is_busy] (lines 306-308). *)
Definition is_busy (is_playing : bool) (q : queue string) : bool :=
  is_playing || negb (match items q with [] => true | _ => false end).

(** app.py [stop_detection] (lines 256-273), its effect on the audio
    queue. *)
Definition stop_detection (q : queue string) : queue string :=
  speak (stop q) "Detección detenida." true.

End Strip.
End AudioMgr.

(* ------------------------------------------------------------------ *)
(** ** Description cache lookup (src/modules/database_manager.py) *)

Module DescCacheGet.
Import DescCache.
Local Open Scope string_scope.

(** [_get_cached_description_postgres] (lines 494-527): [SELECT descripcion
    ... WHERE hash_objetos = h], [fetchone()], and, on a row, [UPDATE ...
    SET uso_count = uso_count + 1 WHERE hash_objetos = h]. *)
Definition get_cached_description_postgres (t : table) (h : string)
    : table * option string :=
  match select h t with
  | r :: _ =>
      (update_where h (fun r' => mkRow (descripcion r') (uso_count r' + 1)) t,
       Some (descripcion r))
  | [] => (t, None)
  end.

(** [_get_cached_description_supabase] (lines 475-492): the first row's
    [uso_count + 1] is written to every row of the hash. *)
Definition get_cached_description_supabase (t : table) (h : string)
    : table * option string :=
  match select h t with
  | r0 :: _ =>
      (update_where h (fun r' => mkRow (descripcion r') (uso_count r0 + 1)) t,
       Some (descripcion r0))
  | [] => (t, None)
  end.

(** [get_cached_description] (lines 461-473). *)
Definition get_cached_description (use_supabase : bool) (t : table) (h : string)
    : table * option string :=
  if use_supabase then get_cached_description_supabase t h
  else get_cached_description_postgres t h.

(** [cache_description] (lines 529-547). *)
Definition cache_description (use_supabase : bool) (t : table) (h d : string) : table :=
  if use_supabase then cache_description_supabase t h d
  else cache_description_postgres t h d.

End DescCacheGet.

(* ------------------------------------------------------------------ *)
(** ** [LanguageAgent.generate_description]
       (src/Streamlit-Ollama/agents/language_agent.py, lines 155-223) *)

Module LangAgent.
Import DescCache DescCacheGet.
Local Open Scope string_scope.

Section Agent.
(** A detection dictionary, and the fields of it the cache key reads. *)
Variable D : Type.
Variable to_key : D -> CacheKey.detection.
(** The library calls of [_create_hash_from_detections]. *)
Variable json_dumps : list CacheKey.norm -> string.
Variable md5_hexdigest : string -> string.
(** [_clean_description], and the fallback [format_spatial_description]. *)
Variable clean_description : string -> string.
Variable simple_description : list D -> string.

Definition hash (detections : list D) : string :=
  CacheKey.create_hash_from_detections json_dumps md5_hexdigest (map to_key detections).

(** The agent's configuration: [use_cache and CACHE_DESCRIPTIONS and
    self.db_manager], [self.client is not None], and the database
    backend. *)
Record conf := mkConf { cache_on : bool; has_client : bool; use_supabase : bool }.

(** [generate_description].  [ollama] is the stripped [response] text of
    [self.client.generate(...)] for the prompt of these detections, or
    [None] when building the prompt or the call raises.  The cache table
    is threaded through. *)
Definition generate_description (ollama : list D -> bool -> option string)
    (c : conf) (t : table) (detections : list D) (detailed : bool)
    : table * string :=
  let '(t, cached) :=
    if cache_on c then get_cached_description (use_supabase c) t (hash detections)
    else (t, None) in
  let rest :=
    match detections with
    | [] => (t, "No se detectaron objetos en el entorno cercano.")
    | _ :: _ =>
        if negb (has_client c) then (t, simple_description detections)
        else
          match ollama detections detailed with
          | None => (t, simple_description detections)
          | Some raw =>
              let description := clean_description raw in
              let t :=
                if cache_on c then
                  cache_description (use_supabase c) t (hash detections) description
                else t in
              (t, description)
          end
    end in
  match cached with
  | Some s => if negb (s =? "") then (t, s) else rest
  | None => rest
  end.

End Agent.
End LangAgent.

(* ------------------------------------------------------------------ *)
(** ** [VisionAgent] of the browser variant (src/agents/vision_agent.py) *)

Module VisionS.
Local Open Scope string_scope.

(** [{'x1', 'y1', 'x2', 'y2', **calculate_bbox_position(...)}] *)
Record bbox := mkBbox {
  x1 : Q; y1 : Q; x2 : Q; y2 : Q;
  x_center : Q; y_center : Q; width : Q; height : Q
}.

(** A detection dictionary as lines 100-112 build it. *)
Record detection := mkDetection {
  d_name : string;
  d_confidence : Q;
  d_class_id : Z;
  d_bbox : bbox
}.

Definition high_priority : list string :=
  ["person"; "chair"; "table"; "door"; "stairs"; "bottle";
   "cup"; "book"; "phone"; "laptop"; "keyboard"; "mouse";
   "backpack"; "handbag"; "umbrella"; "car"; "bus"; "truck";
   "bicycle"; "motorcycle"; "dog"; "cat"; "bird"].

Definition medium_priority : list string :=
  ["tv"; "remote"; "vase"; "bowl"; "banana"; "apple";
   "sandwich"; "pizza"; "clock"; "scissors"; "toothbrush"].

Section Lower.
(** [str.lower()], a library method. *)
Variable lower : string -> string.

(** [_is_relevant_object] (lines 129-165). *)
Definition is_relevant_object (class_name : string) (confidence : Q) : bool :=
  let class_lower := lower class_name in
  if Alert.in_list class_lower high_priority then Qle_bool PyFloat.f0_4 confidence
  else if Alert.in_list class_lower medium_priority then Qle_bool PyFloat.f0_6 confidence
  else Qle_bool PyFloat.f0_7 confidence.

(** [sort(key=lambda x: x['confidence'], reverse=True)] is stable: [a]
    may stay before [b] unless [b]'s confidence is larger. *)
Definition key_leb (a b : detection) : bool :=
  Qle_bool (d_confidence b) (d_confidence a).

Fixpoint insert (a : detection) (l : list detection) : list detection :=
  match l with
  | [] => [a]
  | b :: r => if key_leb a b then a :: b :: r else b :: insert a r
  end.

Fixpoint sort (l : list detection) : list detection :=
  match l with
  | [] => []
  | a :: r => insert a (sort r)
  end.

Definition max_detections : nat := 10.

(** Lines 83-120 once the per-box dictionaries are built, in YOLO's
    order: the relevance filter, the sort and the cut. *)
Definition rank_detections (boxes : list detection) : list detection :=
  firstn max_detections
    (sort (filter (fun d => is_relevant_object (d_name d) (d_confidence d)) boxes)).

Record agent := mkAgent {
  model_loaded : bool;
  frame_count : Z;
  process_every_n_frames : Z
}.

(** The list returned, or the [ZeroDivisionError] of a zero
    [process_every_n_frames], raised before the [try]. *)
Inductive outcome := Returned (l : list detection) | Raised.

(** [detect_objects] (lines 47-127), the model call succeeding with the
    boxes [boxes]. *)
Definition detect_objects (a : agent) (boxes : list detection) (force_process : bool)
    : agent * outcome :=
  if negb (model_loaded a) then (a, Returned [])
  else
    let a := mkAgent (model_loaded a) (frame_count a + 1) (process_every_n_frames a) in
    if negb force_process && Z.eqb (process_every_n_frames a) 0 then (a, Raised)
    else if negb force_process
            && negb (Z.eqb (frame_count a mod process_every_n_frames a) 0) then
      (a, Returned [])
    else (a, Returned (rank_detections boxes)).

(** [reset_frame_count] (lines 184-186). *)
Definition reset_frame_count (a : agent) : agent :=
  mkAgent (model_loaded a) 0 (process_every_n_frames a).

(** Successive [detect_objects(frame)] calls, as app.py makes them
    (line 315, no [force_process]). *)
Fixpoint run (a : agent) (calls : list (list detection)) : agent * list outcome :=
  match calls with
  | [] => (a, [])
  | boxes :: rest =>
      let '(a', o) := detect_objects a boxes false in
      let '(a'', os) := run a' rest in
      (a'', o :: os)
  end.

End Lower.
End VisionS.

(* ------------------------------------------------------------------ *)
(** ** [convert_to_serializable] (src/utils/json_helpers.py) *)

Module JsonHelpers.
Local Set Warnings "-register-all".


(** The elements of a numpy array, nested by dimension (a 0-d array is a
    single element): numbers and booleans, an element of a structured dtype
    (one value per field), or an element of an object array (any Python
    value). *)
Inductive nd :=
| NdInt (z : Z)
| NdFloat (q : Q)
| NdBool (b : bool)
| NdRec (fields : list nd)
| NdObj (v : pyval)
| NdArr (l : list nd)

(** The Python values the converter meets: native scalars, numpy scalars
    ([np.integer], [np.floating], [np.bool_]), arrays, and the dict, list,
    tuple and set containers (a dict as its items in insertion order). *)
with pyval :=
| PInt (z : Z)
| PFloat (q : Q)
| PBool (b : bool)
| PStr (s : string)
| PNone
| NpInt (z : Z)
| NpFloat (q : Q)
| NpBool (b : bool)
| NdArray (a : nd)
| PDict (kvs : list (pyval * pyval))
| PList (l : list pyval)
| PTuple (l : list pyval)
| PSet (l : list pyval).

(** [ndarray.tolist()]: Python scalars in nested lists; a structured
    element becomes a tuple, and an object element is returned as it is
    stored. *)
Fixpoint tolist (a : nd) : pyval :=
  match a with
  | NdInt z => PInt z
  | NdFloat q => PFloat q
  | NdBool b => PBool b
  | NdRec fs => PTuple (map tolist fs)
  | NdObj v => v
  | NdArr l => PList (map tolist l)
  end.

(** Lines 10-31.  [np.bool_] is neither an [np.integer] nor an
    [np.floating], so it reaches the last branch, as sets do. *)
Fixpoint convert_to_serializable (obj : pyval) : pyval :=
  match obj with
  | NpInt z => PInt z
  | NpFloat q => PFloat q
  | NdArray a => tolist a
  | PDict kvs =>
      PDict (map (fun kv => (fst kv, convert_to_serializable (snd kv))) kvs)
  | PList l => PList (map convert_to_serializable l)
  | PTuple l => PList (map convert_to_serializable l)
  | _ => obj
  end.

(** No numpy integer, float or array and no tuple among the values (dict
    keys are not looked at). *)
Fixpoint no_numpy_numbers (v : pyval) : bool :=
  match v with
  | NpInt _ | NpFloat _ | NdArray _ | PTuple _ => false
  | PDict kvs => forallb (fun kv => no_numpy_numbers (snd kv)) kvs
  | PList l | PSet l => forallb no_numpy_numbers l
  | _ => true
  end.

(** An array of numbers or booleans only (no structured or object
    elements). *)
Fixpoint plain_nd (a : nd) : bool :=
  match a with
  | NdInt _ | NdFloat _ | NdBool _ => true
  | NdRec _ | NdObj _ => false
  | NdArr l => forallb plain_nd l
  end.

(** Every array the converter reaches is plain, and the sets it passes
    through hold no numpy value or tuple. *)
Fixpoint converts_cleanly (v : pyval) : bool :=
  match v with
  | NdArray a => plain_nd a
  | PDict kvs => forallb (fun kv => converts_cleanly (snd kv)) kvs
  | PList l | PTuple l => forallb converts_cleanly l
  | PSet l => forallb no_numpy_numbers l
  | _ => true
  end.

End JsonHelpers.

Module JsonInd.
Import JsonHelpers.

(** Induction over the nested arrays, and over the nested values (an array
    inside a value, and a value inside an object array, are leaves). *)
Section Ind.
Variable Pn : nd -> Prop.
Hypothesis Hn_int : forall z, Pn (NdInt z).
Hypothesis Hn_float : forall q, Pn (NdFloat q).
Hypothesis Hn_bool : forall b, Pn (NdBool b).
Hypothesis Hn_rec : forall l, Forall Pn l -> Pn (NdRec l).
Hypothesis Hn_obj : forall v, Pn (NdObj v).
Hypothesis Hn_arr : forall l, Forall Pn l -> Pn (NdArr l).

Fixpoint nd_ind' (a : nd) : Pn a :=
  let fix go (l : list nd) : Forall Pn l :=
    match l with
    | [] => Forall_nil _
    | x :: r => Forall_cons _ (nd_ind' x) (go r)
    end in
  match a with
  | NdInt z => Hn_int z
  | NdFloat q => Hn_float q
  | NdBool b => Hn_bool b
  | NdRec l => Hn_rec l (go l)
  | NdObj v => Hn_obj v
  | NdArr l => Hn_arr l (go l)
  end.

Variable P : pyval -> Prop.
Hypothesis H_int : forall z, P (PInt z).
Hypothesis H_float : forall q, P (PFloat q).
Hypothesis H_bool : forall b, P (PBool b).
Hypothesis H_str : forall s, P (PStr s).
Hypothesis H_none : P PNone.
Hypothesis H_npint : forall z, P (NpInt z).
Hypothesis H_npfloat : forall q, P (NpFloat q).
Hypothesis H_npbool : forall b, P (NpBool b).
Hypothesis H_arr : forall a, P (NdArray a).
Hypothesis H_dict : forall kvs, Forall (fun kv => P (snd kv)) kvs -> P (PDict kvs).
Hypothesis H_list : forall l, Forall P l -> P (PList l).
Hypothesis H_tuple : forall l, Forall P l -> P (PTuple l).
Hypothesis H_set : forall l, Forall P l -> P (PSet l).

Fixpoint pyval_ind' (v : pyval) : P v :=
  let fix go (l : list pyval) : Forall P l :=
    match l with
    | [] => Forall_nil _
    | x :: r => Forall_cons _ (pyval_ind' x) (go r)
    end in
  match v with
  | PInt z => H_int z
  | PFloat q => H_float q
  | PBool b => H_bool b
  | PStr s => H_str s
  | PNone => H_none
  | NpInt z => H_npint z
  | NpFloat q => H_npfloat q
  | NpBool b => H_npbool b
  | NdArray a => H_arr a
  | PDict kvs =>
      H_dict kvs ((fix god (l : list (pyval * pyval)) : Forall (fun kv => P (snd kv)) l :=
                     match l with
                     | [] => Forall_nil _
                     | (k, x) :: r => Forall_cons (k, x) (pyval_ind' x) (god r)
                     end) kvs)
  | PList l => H_list l (go l)
  | PTuple l => H_tuple l (go l)
  | PSet l => H_set l (go l)
  end.
End Ind.

End JsonInd.

(* ------------------------------------------------------------------ *)
(** ** [VoiceAnnouncer.set_enabled] and [stop], and [ObstacleAssistant.stop] *)

Module VoiceCtl.
Import VoiceN.

(** voice_announcer.py lines 362-371. *)
Definition set_enabled (st : vstate) (b : bool) : vstate :=
  let st := mkV b (v_engine st) (v_engine_name st) (v_queue st) (v_last st) (v_debounce st) in
  if negb b then
    mkV (v_enabled st) (v_engine st) (v_engine_name st) (QueueOps.drain (v_queue st))
      (v_last st) (v_debounce st)
  else st.

(** Lines 373-380 ([engine.stop()] has no effect on this state). *)
Definition stop (st : vstate) : vstate := set_enabled st false.

End VoiceCtl.

Module AssistantStop.

(** The parts of [ObstacleAssistant] its [stop] changes: [running], the
    alert system and the voice announcer (the GUI, the audio detector and
    the thread joins have no effect on them). *)
Record astate := mkA {
  a_running : bool;
  a_alert : Alert.state;
  a_voice : VoiceN.vstate
}.

(** obstacle_assistant.py lines 471-504. *)
Definition stop (s : astate) : astate :=
  if negb (a_running s) then s
  else mkA false (AlertCtl.stop (a_alert s)) (VoiceCtl.stop (a_voice s)).

End AssistantStop.

(* ------------------------------------------------------------------ *)
(** ** What a detection cycle of the browser variant speaks (src/app.py) *)

Module BrowserSpeech.
Import Browser.

(** Lines 308-366: the description passed to [audio_manager.speak] in a
    cycle, if any. *)
Definition speak_arg (s : session) (i : cycle_input) : option string :=
  let time_since_last := (now i - last_detection_time s)%Q in
  if Qle_bool 3 time_since_last then
    if negb (match detections i with [] => true | _ => false end) || noise_info i then
      match description i with
      | None => None
      | Some d => if negb (String.eqb d (last_description s)) then Some d else None
      end
    else None
  else None.

(** The descriptions passed to [speak] along a run of cycles, in order. *)
Fixpoint run_speak_args (s : session) (l : list cycle_input) : list string :=
  match l with
  | [] => []
  | i :: r =>
      let s' := fst (process_cycle s i) in
      match speak_arg s i with
      | Some d => d :: run_speak_args s' r
      | None => run_speak_args s' r
      end
  end.

Section Strip.
Variable strip : string -> string.

(** [speak]'s guard [not text or not text.strip()] (audio_module.py lines
    239-240): such a text is not queued. *)
Definition blank (text : string) : bool :=
  String.eqb text "" || String.eqb (strip text) "".

End Strip.

(** No two neighbours of [x :: l] are equal. *)
Fixpoint no_repeat (x : string) (l : list string) : Prop :=
  match l with
  | [] => True
  | y :: r => x <> y /\ no_repeat y r
  end.

End BrowserSpeech.

(* ================================================================== *)
(** * Properties *)

(* ------------------------------------------------------------------ *)
(** ** Frame queue of the capture loop *)

(** With the queue full, offering a frame leaves the queue as it is: the
    [queue.Full] handler that would evict the oldest frame is only reached
    after the [not full()] test has passed. *)
Lemma offer_frame_full {F} (q : queue F) (frame : F) :
  full q = true -> Capture.offer_frame q frame = q.
Proof. intros H. unfold Capture.offer_frame. now rewrite H. Qed.

(** With room left, the frame is appended. *)
Lemma offer_frame_not_full {F} (q : queue F) (frame : F) :
  full q = false ->
  Capture.offer_frame q frame = mkQueue (maxsize q) (items q ++ [frame]).
Proof.
  intros H. unfold Capture.offer_frame, put_nowait. now rewrite H.
Qed.

(** C1 (code_bug): three frames captured in a row into the empty
    capacity-2 frame queue, with no consumption, leave the two OLDEST
    frames queued; the newest one is dropped. *)
Theorem C1_three_frames_keep_oldest {F} (f1 f2 f3 : F) :
  items (Capture.offer_frames Capture.init_frame_queue [f1; f2; f3]) = [f1; f2].
Proof. reflexivity. Qed.

(* ------------------------------------------------------------------ *)
(** ** Alert queue *)

(** [queue.Queue()] has no capacity: a non-blocking put always succeeds. *)
Lemma enqueue_unbounded (st : Alert.state) (m : Alert.alert_msg) :
  maxsize (Alert.alert_queue st) = 0 ->
  items (Alert.alert_queue (Alert.enqueue st m)) = items (Alert.alert_queue st) ++ [m].
Proof.
  intros H. unfold Alert.enqueue, put_nowait, full. rewrite H. reflexivity.
Qed.

Lemma enqueue_enabled (st : Alert.state) (m : Alert.alert_msg) :
  Alert.enabled (Alert.enqueue st m) = Alert.enabled st.
Proof. unfold Alert.enqueue. destruct (put_nowait _ _); reflexivity. Qed.

Lemma alert_obstacle_maxsize cfg st p o pr c :
  maxsize (Alert.alert_queue (Alert.alert_obstacle cfg st p o pr c))
  = maxsize (Alert.alert_queue st).
Proof.
  unfold Alert.alert_obstacle, Alert.enqueue, put_nowait.
  repeat (destruct (_ && _)%bool || destruct (negb _) || destruct (full _)
          || destruct (String.eqb _ _) || destruct (Alert.in_list _ _));
    reflexivity.
Qed.

(** [n] close-obstacle alerts issued with no playback in between. *)
Fixpoint close_alerts (cfg : Alert.config) (st : Alert.state) (n : nat) : Alert.state :=
  match n with
  | O => st
  | S k => close_alerts cfg
             (Alert.alert_obstacle cfg st "close"%string "person"%string
                "high"%string true) k
  end.

(** C10 (code_bug): the alert queue has no capacity: for every [n],
    [n] alerts issued without playback are all queued, so for every
    candidate capacity [c] the queue reaches [c + 1] messages. *)
Theorem C10_alert_queue_unbounded (n : nat) :
  List.length (items (Alert.alert_queue
    (close_alerts Alert.default_config (Alert.init Alert.default_config) n))) = n.
Proof.
  enough (H : forall st k, Alert.enabled st = true -> maxsize (Alert.alert_queue st) = 0 ->
            List.length (items (Alert.alert_queue (close_alerts Alert.default_config st k)))
            = (List.length (items (Alert.alert_queue st)) + k)%nat)
    by (rewrite H; reflexivity).
  intros st k; revert st; induction k as [|k IH]; intros st He Hm; simpl.
  - lia.
  - rewrite IH.
    + unfold Alert.alert_obstacle at 1. rewrite He. simpl.
      rewrite enqueue_unbounded by exact Hm.
      rewrite length_app. simpl. lia.
    + unfold Alert.alert_obstacle. rewrite He. simpl.
      rewrite enqueue_enabled. exact He.
    + rewrite alert_obstacle_maxsize. exact Hm.
Qed.

(* ------------------------------------------------------------------ *)
(** ** Proximity buckets *)

Lemma Qle_bool_false (a b : Q) : Qle_bool a b = false -> (b < a)%Q.
Proof.
  intros H. apply Qnot_le_lt. intros Hle. apply Qle_bool_iff in Hle. congruence.
Qed.

(** Turn the boolean comparisons of the context into order facts. *)
Ltac qle_facts :=
  repeat match goal with
         | H : Qle_bool _ _ = true |- _ => apply Qle_bool_iff in H
         | H : Qle_bool _ _ = false |- _ => apply Qle_bool_false in H
         end.

(** C4: [calculate_proximity] is "close" exactly above 0.08, "medium"
    exactly on (0.04, 0.08], "far" otherwise, whatever the frame size, and
    reads no configured distance.  0.08 and 0.04 are the code's float
    literals ([Helpers.f0_08], [Helpers.f0_04]): a [relative_size] equal to
    the float 0.08 is "medium", one equal to the float 0.04 is "far". *)
Theorem C4_calculate_proximity_buckets (r : Q) (w h w' h' : Z) :
  (Helpers.calculate_proximity r w h = "close"%string <-> (Helpers.f0_08 < r)%Q) /\
  (Helpers.calculate_proximity r w h = "medium"%string <->
     (Helpers.f0_04 < r)%Q /\ (r <= Helpers.f0_08)%Q) /\
  (Helpers.calculate_proximity r w h = "far"%string <-> (r <= Helpers.f0_04)%Q) /\
  Helpers.calculate_proximity r w h = Helpers.calculate_proximity r w' h'.
Proof.
  unfold Helpers.calculate_proximity.
  destruct (Qle_bool r Helpers.f0_08) eqn:H8; destruct (Qle_bool r Helpers.f0_04) eqn:H4;
    simpl; qle_facts; unfold Helpers.f0_08, Helpers.f0_04 in *;
    repeat split; intros; try discriminate; try reflexivity;
    try lra; try (exfalso; lra).
Qed.

(* ------------------------------------------------------------------ *)
(** ** Obstacle tones *)






(* ------------------------------------------------------------------ *)
(** ** Debounce *)


Lemma key_eqb_eq (k k' : String.string * Z) : Alert.key_eqb k k' = true -> k = k'.
Proof.
  destruct k, k'. unfold Alert.key_eqb. simpl. intros H.
  apply andb_prop in H as [H1 H2].
  apply String.eqb_eq in H1. apply Z.eqb_eq in H2. now subst.
Qed.

(** An obstacle alert that passes the suppression rule is enqueued as a
    message that depends on the call's arguments only, never on the
    times of earlier alerts. *)
Lemma alert_obstacle_sends (cfg : Alert.config) (p o pr : String.string) (c : bool) :
  (p = "close"%string \/ c = true) ->
  exists m, forall st, Alert.enabled st = true ->
    Alert.alert_obstacle cfg st p o pr c = Alert.enqueue st m.
Proof.
  intros Hp. unfold Alert.alert_obstacle.
  assert (Hs : ((p =? "far") && negb c)%string = false /\
               ((p =? "medium") && negb c)%string = false).
  { destruct Hp as [-> | ->]; split; reflexivity || apply Bool.andb_false_r. }
  destruct Hs as [Hf Hmd].
  destruct (p =? "close")%string; destruct (p =? "medium")%string;
    eexists; intros st He; rewrite He, Hf, Hmd; simpl; reflexivity.
Qed.






(* ------------------------------------------------------------------ *)
(** ** Simple noise detector *)

Lemma sum_map_repeat_R (f : Z -> R) (x : Z) (n : nat) :
  fold_right Rplus 0%R (map f (repeat x n)) = (INR n * f x)%R.
Proof.
  induction n as [|n IH]; cbn [repeat map fold_right]; [simpl; ring|].
  rewrite IH, S_INR. ring.
Qed.

(** A sample of 16384 (0.5 of full scale) squares to 2^28, which wraps to
    0 in [int16]. *)
Lemma square_int16_16384 : Audio.square_int16 16384 = 0.
Proof. reflexivity. Qed.

(** C5 (code_bug): on a default-size chunk (1024 samples) of constant
    amplitude 16384, the code's RMS is 0 and no Noise Event is returned,
    while the normalised RMS is 0.5 and the claim requires a 'moderado'
    event of intensity 0.5. *)
Theorem C5_int16_square_overflow :
  Audio.detect_noise Audio.NOISE_THRESHOLD (repeat 16384 1024) = None /\
  Audio.spec_detect_noise Audio.NOISE_THRESHOLD (repeat 16384 1024)
  = Some (Audio.mkNoise "moderado" (1 / 2)).
Proof.
  split.
  - unfold Audio.detect_noise. simpl repeat at 1. cbv iota.
    assert (Hs : Audio.sum_Z (map Audio.square_int16 (repeat 16384 1024)) = 0)
      by (vm_compute; reflexivity).
    rewrite Hs. unfold Rdiv. rewrite Rmult_0_l.
    destruct (Rlt_dec 0 0) as [H|_]; [exfalso; exact (Rlt_irrefl 0 H)|].
    rewrite sqrt_0, Rmult_0_l.
    destruct (Rlt_dec Audio.NOISE_THRESHOLD 0) as [H|_]; [|reflexivity].
    exfalso. unfold Audio.NOISE_THRESHOLD in H. Lra.lra.
  - unfold Audio.spec_detect_noise, Audio.spec_rms.
    rewrite sum_map_repeat_R, repeat_length.
    assert (Hn : INR 1024 <> 0%R) by (apply not_0_INR; discriminate).
    replace (INR 1024 * (IZR 16384 / 32768) ^ 2 / INR 1024)%R with ((1 / 2) ^ 2)%R
      by (field; exact Hn).
    rewrite sqrt_pow2 by Lra.lra.
    unfold Audio.level_of, Audio.NOISE_THRESHOLD.
    destruct (Rlt_dec 0.2 (1 / 2)); [|exfalso; Lra.lra].
    destruct (Rlt_dec 0.7 (1 / 2)); [exfalso; Lra.lra|].
    destruct (Rlt_dec 0.5 (1 / 2)); [exfalso; Lra.lra|].
    destruct (Rlt_dec 0.3 (1 / 2)); [reflexivity|exfalso; Lra.lra].
Qed.

(* ------------------------------------------------------------------ *)
(** ** Description cache upsert *)

Lemma select_app (h : String.string) (t1 t2 : DescCache.table) :
  DescCache.select h (t1 ++ t2) = DescCache.select h t1 ++ DescCache.select h t2.
Proof.
  induction t1 as [|[h' r] t1 IH]; simpl; [reflexivity|].
  destruct (String.eqb h h'); simpl; now rewrite IH.
Qed.

Lemma update_where_absent (h : String.string) f (t : DescCache.table) :
  DescCache.select h t = [] -> DescCache.update_where h f t = t.
Proof.
  induction t as [|[h' r] t IH]; simpl; intros H; [reflexivity|].
  destruct (String.eqb h h'); [discriminate|]. simpl. now rewrite IH.
Qed.

Lemma select_single (h : String.string) (r : DescCache.row) :
  DescCache.select h [(h, r)] = [r].
Proof. simpl. now rewrite String.eqb_refl. Qed.

(** C6: starting with no row for the hash, caching twice under that hash
    through the PostgreSQL upsert and through the Supabase read-then-write
    gives the same table, whose row for the hash holds the latest text and
    a usage counter of 2. *)
Theorem C6_cache_upsert_backends_agree (t : DescCache.table) (h d1 d2 : String.string) :
  DescCache.select h t = [] ->
  DescCache.cache_description_postgres (DescCache.cache_description_postgres t h d1) h d2
  = DescCache.cache_description_supabase (DescCache.cache_description_supabase t h d1) h d2 /\
  DescCache.select h
    (DescCache.cache_description_postgres (DescCache.cache_description_postgres t h d1) h d2)
  = [DescCache.mkRow d2 2].
Proof.
  intros Ht.
  assert (Hsel : forall d, DescCache.select h (t ++ [(h, DescCache.mkRow d 1)])
                           = [DescCache.mkRow d 1])
    by (intros d; now rewrite select_app, Ht, select_single).
  assert (Hupd : forall d f, DescCache.update_where h f (t ++ [(h, DescCache.mkRow d 1)])
                             = t ++ [(h, f (DescCache.mkRow d 1))]).
  { intros d f. unfold DescCache.update_where at 1. rewrite map_app.
    fold (DescCache.update_where h f t). rewrite update_where_absent by exact Ht.
    simpl. now rewrite String.eqb_refl. }
  unfold DescCache.cache_description_postgres, DescCache.cache_description_supabase.
  rewrite Ht. unfold DescCache.USO_COUNT_DEFAULT. rewrite !Hsel, !Hupd. simpl.
  split; [reflexivity|]. now rewrite select_app, Ht, select_single.
Qed.

Lemma C6_cache_upsert_backends_agree_witness :
  DescCache.select "abc" [("xyz"%string, DescCache.mkRow "Hay una mesa." 3)] = [] /\
  DescCache.cache_description_postgres
    (DescCache.cache_description_postgres [("xyz"%string, DescCache.mkRow "Hay una mesa." 3)]
       "abc" "Hay una silla.") "abc" "Hay una silla."
  = DescCache.cache_description_supabase
    (DescCache.cache_description_supabase [("xyz"%string, DescCache.mkRow "Hay una mesa." 3)]
       "abc" "Hay una silla.") "abc" "Hay una silla." /\
  DescCache.select "abc"
    (DescCache.cache_description_postgres
       (DescCache.cache_description_postgres [("xyz"%string, DescCache.mkRow "Hay una mesa." 3)]
          "abc" "Hay una silla.") "abc" "Hay una silla.")
  = [DescCache.mkRow "Hay una silla." 2].
Proof.
  split; [reflexivity|].
  apply C6_cache_upsert_backends_agree. reflexivity.
Defined.

(* ------------------------------------------------------------------ *)
(** ** Cache key *)

Module KeyOrder.
Import CacheKey.

Lemma ascii_compare_refl (a : Ascii.ascii) : Ascii.compare a a = Eq.
Proof. unfold Ascii.compare. apply N.compare_refl. Qed.

Lemma ascii_compare_lt_trans (a b c : Ascii.ascii) :
  Ascii.compare a b = Lt -> Ascii.compare b c = Lt -> Ascii.compare a c = Lt.
Proof.
  unfold Ascii.compare. rewrite !N.compare_lt_iff. apply N.lt_trans.
Qed.

Lemma string_compare_refl (s : String.string) : String.compare s s = Eq.
Proof.
  induction s as [|a s IH]; simpl; [reflexivity|]. now rewrite ascii_compare_refl.
Qed.

Lemma string_compare_lt_trans (s1 s2 s3 : String.string) :
  String.compare s1 s2 = Lt -> String.compare s2 s3 = Lt -> String.compare s1 s3 = Lt.
Proof.
  revert s2 s3.
  induction s1 as [|a s1 IH]; intros [|b s2] [|c s3]; simpl; try discriminate; auto.
  destruct (Ascii.compare a b) eqn:Eab; try discriminate;
    destruct (Ascii.compare b c) eqn:Ebc; try discriminate; intros H1 H2.
  - apply Ascii.compare_eq_iff in Eab, Ebc. subst. rewrite ascii_compare_refl. eauto.
  - apply Ascii.compare_eq_iff in Eab. subst. now rewrite Ebc.
  - apply Ascii.compare_eq_iff in Ebc. subst. now rewrite Eab.
  - now rewrite (ascii_compare_lt_trans a b c Eab Ebc).
Qed.

Lemma key_compare_eq (a b : norm) : key_compare a b = Eq -> a = b.
Proof.
  destruct a as [na xa ya], b as [nb xb yb]. unfold key_compare. simpl.
  destruct (String.compare na nb) eqn:En; try discriminate.
  destruct (Z.compare xa xb) eqn:Ex; try discriminate. intros Ey.
  apply String.compare_eq_iff in En. apply Z.compare_eq in Ex, Ey. now subst.
Qed.

Lemma key_compare_antisym (a b : norm) : key_compare b a = CompOpp (key_compare a b).
Proof.
  unfold key_compare. rewrite (String.compare_antisym (n_name b)).
  destruct (String.compare (n_name a) (n_name b)); simpl; try reflexivity.
  pose proof (Z.compare_antisym (n_x a) (n_x b)) as Hx.
  pose proof (Z.compare_antisym (n_y a) (n_y b)) as Hy.
  destruct (Z.compare (n_x a) (n_x b)), (Z.compare (n_x b) (n_x a)),
    (Z.compare (n_y a) (n_y b)), (Z.compare (n_y b) (n_y a));
    simpl in *; congruence.
Qed.

Lemma key_compare_lt_trans (a b c : norm) :
  key_compare a b = Lt -> key_compare b c = Lt -> key_compare a c = Lt.
Proof.
  destruct a as [na xa ya], b as [nb xb yb], c as [nc xc yc]. unfold key_compare. simpl.
  destruct (String.compare na nb) eqn:Eab; try discriminate;
    destruct (String.compare nb nc) eqn:Ebc; try discriminate.
  - apply String.compare_eq_iff in Eab, Ebc. subst. rewrite string_compare_refl.
    destruct (Z.compare xa xb) eqn:Xab; try discriminate;
      destruct (Z.compare xb xc) eqn:Xbc; try discriminate.
    + apply Z.compare_eq in Xab, Xbc. subst. rewrite Z.compare_refl.
      rewrite !Z.compare_lt_iff. apply Z.lt_trans.
    + apply Z.compare_eq in Xab. subst. now rewrite Xbc.
    + apply Z.compare_eq in Xbc. subst. now rewrite Xab.
    + rewrite Z.compare_lt_iff in Xab, Xbc. intros _ _.
      replace (xa ?= xc) with Lt; [reflexivity|].
      symmetry. apply Z.compare_lt_iff. lia.
  - apply String.compare_eq_iff in Eab. subst. now rewrite Ebc.
  - apply String.compare_eq_iff in Ebc. subst. now rewrite Eab.
  - now rewrite (string_compare_lt_trans _ _ _ Eab Ebc).
Qed.

Lemma key_compare_refl (a : norm) : key_compare a a = Eq.
Proof. unfold key_compare. now rewrite string_compare_refl, !Z.compare_refl. Qed.

Definition le (a b : norm) : Prop := key_leb a b = true.

Lemma le_total (a b : norm) : key_leb a b = false -> le b a.
Proof.
  unfold le, key_leb. rewrite (key_compare_antisym a b).
  destruct (key_compare a b); simpl; congruence.
Qed.

Lemma le_antisym (a b : norm) : le a b -> le b a -> a = b.
Proof.
  unfold le, key_leb. rewrite (key_compare_antisym a b).
  destruct (key_compare a b) eqn:E; simpl; try discriminate.
  intros. now apply key_compare_eq.
Qed.

#[local] Instance le_trans : Transitive le.
Proof.
  intros a b c. unfold le, key_leb.
  destruct (key_compare a b) eqn:Eab; try discriminate;
    destruct (key_compare b c) eqn:Ebc; try discriminate; intros _ _.
  - apply key_compare_eq in Eab, Ebc. subst. now rewrite key_compare_refl.
  - apply key_compare_eq in Eab. subst. now rewrite Ebc.
  - apply key_compare_eq in Ebc. subst. now rewrite Eab.
  - now rewrite (key_compare_lt_trans _ _ _ Eab Ebc).
Qed.

Lemma insert_perm (a : norm) (l : list norm) : Permutation (insert a l) (a :: l).
Proof.
  induction l as [|b l IH]; simpl; [reflexivity|].
  destruct (key_leb a b); [reflexivity|].
  rewrite IH. apply perm_swap.
Qed.

Lemma sort_perm (l : list norm) : Permutation (sort l) l.
Proof.
  induction l as [|a l IH]; simpl; [reflexivity|].
  rewrite insert_perm. now apply perm_skip.
Qed.

Lemma insert_sorted (a : norm) (l : list norm) :
  Sorted le l -> Sorted le (insert a l).
Proof.
  induction 1 as [|b l Hs IH Hhd]; simpl.
  - repeat constructor.
  - destruct (key_leb a b) eqn:Eab.
    + constructor; [constructor; assumption|]. constructor. exact Eab.
    + apply le_total in Eab. constructor; [exact IH|].
      destruct l as [|c l]; simpl.
      * constructor. exact Eab.
      * inversion Hhd; subst.
        destruct (key_leb a c); constructor; assumption.
Qed.

Lemma sort_sorted (l : list norm) : Sorted le (sort l).
Proof. induction l; simpl; [constructor|]. now apply insert_sorted. Qed.

(** Two strongly sorted permutations of each other are equal: [le] is
    antisymmetric. *)
Lemma sorted_perm_unique (l1 l2 : list norm) :
  StronglySorted le l1 -> StronglySorted le l2 -> Permutation l1 l2 -> l1 = l2.
Proof.
  revert l2. induction l1 as [|a r1 IH]; intros l2 S1 S2 P.
  - symmetry. now apply Permutation_nil.
  - destruct l2 as [|b r2]; [now apply Permutation_sym, Permutation_nil_cons in P|].
    apply StronglySorted_inv in S1 as [S1 F1].
    apply StronglySorted_inv in S2 as [S2 F2].
    assert (Hab : a = b).
    { assert (Ha : In a (b :: r2)) by (apply (Permutation_in a P); now left).
      assert (Hb : In b (a :: r1)) by (apply (Permutation_in b (Permutation_sym P)); now left).
      destruct Ha as [Ha|Ha]; [now subst|].
      destruct Hb as [Hb|Hb]; [now subst|].
      apply le_antisym.
      - rewrite Forall_forall in F1. now apply F1.
      - rewrite Forall_forall in F2. now apply F2. }
    subst b. f_equal. apply IH; [assumption|assumption|].
    now apply Permutation_cons_inv in P.
Qed.

Lemma sort_perm_eq (l1 l2 : list norm) : Permutation l1 l2 -> sort l1 = sort l2.
Proof.
  intros P. apply sorted_perm_unique.
  - apply Sorted_StronglySorted; [exact le_trans|apply sort_sorted].
  - apply Sorted_StronglySorted; [exact le_trans|apply sort_sorted].
  - now rewrite !sort_perm.
Qed.

End KeyOrder.

(** C7: detection lists whose normalised entries (name, rounded
    [x_center / 100], rounded [y_center / 100]) are the same up to order
    get the same cache key, for any JSON rendering and any digest. *)
Theorem C7_cache_key_order_independent
    (json_dumps : list CacheKey.norm -> String.string) (md5_hexdigest : String.string -> String.string)
    (d1 d2 : list CacheKey.detection) :
  Permutation (map CacheKey.normalize d1) (map CacheKey.normalize d2) ->
  CacheKey.create_hash_from_detections json_dumps md5_hexdigest d1
  = CacheKey.create_hash_from_detections json_dumps md5_hexdigest d2.
Proof.
  intros P. unfold CacheKey.create_hash_from_detections.
  now rewrite (KeyOrder.sort_perm_eq _ _ P).
Qed.

Definition c7_person : CacheKey.detection :=
  CacheKey.mkDet (Some "person"%string) (Some (CacheKey.mkBbox (Some 250%Q) (Some 130%Q))).
Definition c7_chair : CacheKey.detection :=
  CacheKey.mkDet (Some "chair"%string) (Some (CacheKey.mkBbox (Some 41%Q) (Some 310%Q))).

(** A rendering of the normalised list used to exercise the cache key. *)
Definition c7_render (l : list CacheKey.norm) : String.string :=
  fold_right (fun n acc => String.append (CacheKey.n_name n) acc) EmptyString l.

Lemma C7_cache_key_order_independent_witness :
  Permutation (map CacheKey.normalize [c7_person; c7_chair])
              (map CacheKey.normalize [c7_chair; c7_person]) /\
  CacheKey.create_hash_from_detections c7_render (fun s => s) [c7_person; c7_chair]
  = CacheKey.create_hash_from_detections c7_render (fun s => s) [c7_chair; c7_person].
Proof.
  assert (P : Permutation (map CacheKey.normalize [c7_person; c7_chair])
                          (map CacheKey.normalize [c7_chair; c7_person]))
    by (simpl; apply perm_swap).
  split; [exact P|].
  apply (C7_cache_key_order_independent c7_render (fun s => s) _ _ P).
Defined.

(* ------------------------------------------------------------------ *)
(** ** Detection schedule of the browser variant *)

(** When a pass runs and the generated description equals the previous
    one, the session is left as it was: [last_detection_time] is not
    advanced. *)
Lemma process_cycle_same_description (s : Browser.session) (i : Browser.cycle_input) :
  Qle_bool 3 (Browser.now i - Browser.last_detection_time s) = true ->
  Browser.detections i <> [] ->
  Browser.description i = Some (Browser.last_description s) ->
  Browser.process_cycle s i = (s, true).
Proof.
  intros Ht Hd Hdesc. unfold Browser.process_cycle. rewrite Ht, Hdesc.
  destruct (Browser.detections i); [congruence|]. simpl.
  now rewrite String.eqb_refl.
Qed.

Definition c9_start : Browser.session := Browser.mkSession 0 "Hay una persona al frente.".

Definition c9_cycle (t : Q) : Browser.cycle_input :=
  Browser.mkInput t ["person"%string] false (Some "Hay una persona al frente."%string).

(** C9 (code_bug): the last pass ran at time 0 and produced "Hay una
    persona al frente."; the scene does not change.  Passes run at 3.0 s
    and again at 3.1 s, 0.1 s apart, because the unchanged description
    leaves [last_detection_time] at 0. *)
Theorem C9_detection_passes_too_close :
  Browser.run c9_start [c9_cycle 3; c9_cycle (31 # 10)] = [3; 31 # 10]%Q /\
  Browser.process_cycle c9_start (c9_cycle 3) = (c9_start, true).
Proof. split; reflexivity. Qed.

(* ------------------------------------------------------------------ *)
(** ** Description cleaning *)

Module CleanProps.
Import Clean.

Definition nonspace (c : N) : bool := negb (is_space c).

(** The first code point, if any, is not whitespace. *)
Definition first_ok (d : text) : Prop :=
  match d with c :: _ => is_space c = false | [] => True end.

(** No two spaces in a row. *)
Fixpoint no_double (d : text) : bool :=
  match d with
  | a :: ((b :: _) as r) => negb ((a =? SPACE)%N && (b =? SPACE)%N) && no_double r
  | _ => true
  end.

(** Whitespace collapsed to single spaces: the only whitespace left is
    the space, never doubled, never at either end. *)
Definition collapsed (d : text) : Prop :=
  Forall (fun c => is_space c = false \/ c = SPACE) d /\
  no_double d = true /\ first_ok d /\ first_ok (rev d).

(** [i] is the last index of [l] whose code point satisfies [P], or -1
    when there is none. *)
Definition last_index (P : N -> bool) (l : text) (i : Z) : Prop :=
  (i = -1 /\ forall j, (j < List.length l)%nat -> P (nth j l 0%N) = false) \/
  (0 <= i /\ (Z.to_nat i < List.length l)%nat /\ P (nth (Z.to_nat i) l 0%N) = true /\
   forall j, (Z.to_nat i < j < List.length l)%nat -> P (nth j l 0%N) = false).

Definition word_ok (w : text) : Prop :=
  w <> [] /\ Forall (fun c => is_space c = false) w.

Lemma split_go_words (cur s : text) :
  Forall (fun c => is_space c = false) cur -> Forall word_ok (split_go cur s).
Proof.
  revert cur. induction s as [|c r IH]; intros cur Hc; simpl.
  - destruct cur as [|a cur]; constructor; [|constructor].
    split; [|now apply Forall_rev].
    intros H. apply (f_equal (@List.length N)) in H.
    rewrite length_rev in H. discriminate.
  - destruct (is_space c) eqn:Hs.
    + destruct cur as [|a cur]; [now apply IH|].
      constructor; [|now apply IH].
      split; [|now apply Forall_rev].
      intros H. apply (f_equal (@List.length N)) in H.
      rewrite length_rev in H. discriminate.
    + apply IH. now constructor.
Qed.

Lemma split_go_concat (cur s : text) :
  List.concat (split_go cur s) = rev cur ++ filter nonspace s.
Proof.
  revert cur. induction s as [|c r IH]; intros cur.
  - destruct cur; reflexivity.
  - assert (Hf : filter nonspace (c :: r)
                 = if is_space c then filter nonspace r else c :: filter nonspace r)
      by (simpl; unfold nonspace at 1; destruct (is_space c); reflexivity).
    rewrite Hf. cbn [split_go]. destruct (is_space c).
    + destruct cur as [|a cur]; [now rewrite IH|].
      simpl. now rewrite IH.
    + rewrite IH. simpl. now rewrite <- app_assoc.
Qed.

Lemma not_space_not_SPACE (c : N) : is_space c = false -> (c =? SPACE)%N = false.
Proof.
  intros H. apply N.eqb_neq. intros ->. discriminate.
Qed.

Lemma no_double_words (w y : text) :
  Forall (fun c => is_space c = false) w -> no_double y = true ->
  no_double (w ++ y) = true.
Proof.
  induction 1 as [|a w Ha Hw IH]; simpl; [tauto|]. intros Hy.
  specialize (IH Hy).
  destruct (w ++ y) as [|b r] eqn:E; [reflexivity|].
  rewrite (not_space_not_SPACE a Ha). simpl. exact IH.
Qed.

Lemma join_space_props (ws : list text) :
  Forall word_ok ws ->
  Forall (fun c => is_space c = false \/ c = SPACE) (join_space ws) /\
  no_double (join_space ws) = true /\
  first_ok (join_space ws) /\ first_ok (rev (join_space ws)) /\
  filter nonspace (join_space ws) = List.concat ws /\
  (join_space ws = [] <-> ws = []).
Proof.
  induction 1 as [|w r [Hne Hw] Hr IH]; simpl.
  { repeat split; constructor. }
  destruct IH as (IH1 & IH2 & IH3 & IH4 & IH5 & IH6).
  assert (Hfw : filter nonspace w = w).
  { clear -Hw. induction Hw as [|a w Ha _ IH]; simpl; [reflexivity|].
    unfold nonspace at 1. now rewrite Ha, IH. }
  assert (Hfirst : first_ok (w ++ [])).
  { destruct w as [|a w]; [congruence|]. now inversion Hw. }
  assert (Hlast : first_ok (rev w)).
  { destruct (rev w) as [|a rw] eqn:E; simpl; [exact I|].
    assert (Hin : In a w) by (apply in_rev; rewrite E; now left).
    rewrite Forall_forall in Hw. now apply Hw. }
  destruct r as [|w' r'].
  - simpl in *. rewrite app_nil_r.
    repeat split.
    + eapply Forall_impl; [|exact Hw]. simpl. tauto.
    + rewrite <- (app_nil_r w). apply no_double_words; [exact Hw|reflexivity].
    + now rewrite app_nil_r in Hfirst.
    + exact Hlast.
    + exact Hfw.
    + intros H. destruct w; congruence.
    + discriminate.
  - set (j := join_space (w' :: r')) in *.
    assert (Hj : j <> []) by (intros H; apply IH6 in H; discriminate).
    repeat split.
    + apply Forall_app. split; [eapply Forall_impl; [|exact Hw]; simpl; tauto|].
      constructor; [now right|exact IH1].
    + apply no_double_words; [exact Hw|]. simpl.
      destruct j as [|b j']; [congruence|].
      simpl in IH3. rewrite (not_space_not_SPACE b IH3). simpl. exact IH2.
    + destruct w as [|a w]; [congruence|]. now inversion Hw.
    + rewrite rev_app_distr. simpl.
      destruct (rev j) as [|b rj] eqn:E; [|exact IH4].
      apply (f_equal (@rev N)) in E. rewrite rev_involutive in E. simpl in E. congruence.
    + rewrite filter_app. simpl. now rewrite Hfw, IH5.
    + intros H. destruct w; [congruence|discriminate].
    + discriminate.
Qed.

Lemma last_index_snoc (P : N -> bool) (pre : text) (d : N) (b : Z) :
  last_index P pre b ->
  last_index P (pre ++ [d]) (if P d then Z.of_nat (List.length pre) else b).
Proof.
  intros Hb. unfold last_index in *. rewrite length_app. simpl.
  destruct (P d) eqn:Hd.
  - right. rewrite Nat2Z.id. repeat split; [lia|lia| |].
    + rewrite app_nth2 by lia. now rewrite Nat.sub_diag.
    + intros j Hj. lia.
  - destruct Hb as [[-> Hall]|(H0 & Hlt & Hp & Hgt)].
    + left. split; [reflexivity|]. intros j Hj.
      destruct (Nat.lt_ge_cases j (List.length pre)) as [Hj'|Hj'].
      * rewrite app_nth1 by exact Hj'. now apply Hall.
      * rewrite app_nth2 by exact Hj'.
        replace (j - List.length pre)%nat with 0%nat by lia. exact Hd.
    + right. repeat split; [exact H0|lia| |].
      * rewrite app_nth1 by exact Hlt. exact Hp.
      * intros j Hj.
        destruct (Nat.lt_ge_cases j (List.length pre)) as [Hj'|Hj'].
        -- rewrite app_nth1 by exact Hj'. apply Hgt. lia.
        -- rewrite app_nth2 by exact Hj'.
           replace (j - List.length pre)%nat with 0%nat by lia. exact Hd.
Qed.

Lemma rfind_go_spec (c : N) (s pre : text) (best : Z) :
  last_index (fun d => (d =? c)%N) pre best ->
  last_index (fun d => (d =? c)%N) (pre ++ s)
    (rfind_go c s (Z.of_nat (List.length pre)) best).
Proof.
  revert pre best. induction s as [|d r IH]; intros pre best Hb; simpl.
  - now rewrite app_nil_r.
  - replace (pre ++ d :: r) with ((pre ++ [d]) ++ r) by now rewrite <- app_assoc.
    replace (Z.of_nat (List.length pre) + 1) with (Z.of_nat (List.length (pre ++ [d])))
      by (rewrite length_app; simpl; lia).
    apply IH. exact (last_index_snoc (fun x => (x =? c)%N) pre d best Hb).
Qed.

(** [str.rfind] returns the last index of the code point, or -1. *)
Lemma rfind_spec (s : text) (c : N) : last_index (fun d => (d =? c)%N) s (rfind s c).
Proof.
  unfold rfind. apply (rfind_go_spec c s [] (-1)).
  left. split; [reflexivity|]. simpl. lia.
Qed.

Lemma last_index_max (P Q : N -> bool) (l : text) (a b : Z) :
  last_index P l a -> last_index Q l b ->
  last_index (fun d => P d || Q d) l (Z.max a b).
Proof.
  intros [[-> HPa]|(Ha0 & Ha & HPa & HPg)] [[-> HQb]|(Hb0 & Hb & HQb & HQg)].
  - left. split; [reflexivity|]. intros j Hj. now rewrite HPa, HQb.
  - rewrite Z.max_r by lia. right. repeat split; try lia.
    + now rewrite HQb, Bool.orb_true_r.
    + intros j Hj. rewrite HPa, HQg by lia. reflexivity.
  - rewrite Z.max_l by lia. right. repeat split; try lia.
    + now rewrite HPa.
    + intros j Hj. rewrite HPg, HQb by lia. reflexivity.
  - destruct (Z.le_ge_cases a b) as [Hab|Hab].
    + rewrite Z.max_r by lia. right. repeat split; try lia.
      * now rewrite HQb, Bool.orb_true_r.
      * intros j Hj. rewrite HPg, HQg by lia. reflexivity.
    + rewrite Z.max_l by lia. right. repeat split; try lia.
      * now rewrite HPa.
      * intros j Hj. rewrite HPg, HQg by lia. reflexivity.
Qed.

Lemma last_index_ext (P Q : N -> bool) (l : text) (i : Z) :
  (forall d, P d = Q d) -> last_index P l i -> last_index Q l i.
Proof.
  intros E [[H1 H2]|(H1 & H2 & H3 & H4)]; [left|right].
  - split; [exact H1|]. intros j Hj. rewrite <- E. now apply H2.
  - repeat split; try assumption.
    + now rewrite <- E.
    + intros j Hj. rewrite <- E. now apply H4.
Qed.

(** The index used by [_clean_description] is the last '.', '!' or '?'. *)
Lemma last_punctuation_spec (tr : text) :
  last_index is_end_punct tr
    (Z.max (rfind tr PERIOD) (Z.max (rfind tr EXCLAMATION) (rfind tr QUESTION))).
Proof.
  eapply last_index_ext; [|apply last_index_max; [apply rfind_spec|
                              apply last_index_max; apply rfind_spec]].
  intros d. unfold is_end_punct. now rewrite Bool.orb_assoc.
Qed.

Lemma lstrip_first_ok (x : text) : first_ok x -> lstrip x = x.
Proof. destruct x as [|c x]; simpl; [reflexivity|]. now intros ->. Qed.

Lemma strip_id (x : text) : first_ok x -> first_ok (rev x) -> strip x = x.
Proof.
  intros H1 H2. unfold strip. rewrite (lstrip_first_ok x H1).
  rewrite (lstrip_first_ok (rev x) H2). apply rev_involutive.
Qed.

Lemma first_ok_firstn (n : nat) (x : text) : first_ok x -> first_ok (firstn n x).
Proof. destruct n, x; simpl; tauto. Qed.

Lemma first_ok_app (x y : text) : first_ok x -> first_ok y -> first_ok (x ++ y).
Proof. destruct x; simpl; tauto. Qed.

Lemma first_ok_period : first_ok [PERIOD].
Proof. reflexivity. Qed.

Lemma ends_with_punct_snoc (x : text) (c : N) :
  ends_with_punct (x ++ [c]) = is_end_punct c.
Proof. unfold ends_with_punct. now rewrite rev_app_distr. Qed.

Lemma rev_firstn_S (k : nat) (l : text) :
  (k < List.length l)%nat ->
  firstn (S k) l = firstn k l ++ [nth k l 0%N].
Proof.
  revert l. induction k as [|k IH]; intros [|a l] H; simpl in *; try lia.
  - reflexivity.
  - f_equal. apply IH. lia.
Qed.

(** The steps of [_clean_description] after the truncation. *)
Definition finish (x : text) : text :=
  match x with
  | [] => x
  | _ => if negb (ends_with_punct x) then x ++ [PERIOD] else x
  end.

Lemma slice_to_nonneg (s : text) (k : Z) : (0 <= k)%Z -> slice_to s k = firstn (Z.to_nat k) s.
Proof.
  intros Hk. unfold slice_to. destruct (k <? 0)%Z eqn:E; [apply Z.ltb_lt in E; lia|reflexivity].
Qed.

Lemma clean_description_unfold (M : Z) (s : text) :
  (0 <= M)%Z ->
  let d := join_space (py_split s) in
  let tr := firstn (Z.to_nat M) d in
  let p := Z.max (rfind tr PERIOD) (Z.max (rfind tr EXCLAMATION) (rfind tr QUESTION)) in
  clean_description M s =
  strip (finish (if (M <? Z.of_nat (List.length d))%Z then
                   if gt_mul_0_7 p M then slice_to d (p + 1)
                   else rsplit_head tr ++ [PERIOD]
                 else d)).
Proof. intros HM. unfold clean_description. rewrite slice_to_nonneg by exact HM. reflexivity. Qed.

Lemma round53_nonneg (n : Z) :
  (0 <= n)%Z -> (0 <= fst (round53 n))%Z /\ (0 <= snd (round53 n))%Z.
Proof.
  intros Hn. unfold round53. cbv zeta.
  destruct (Z.log2 (Z.abs n) - 52 <=? 0)%Z eqn:Hs; cbn [fst snd]; [lia|].
  apply Z.leb_gt in Hs.
  assert (Hq : (0 <= Z.abs n / 2 ^ (Z.log2 (Z.abs n) - 52))%Z)
    by (apply Z.div_pos; [lia | apply Z.pow_pos_nonneg; lia]).
  split; [|lia].
  apply Z.mul_nonneg_nonneg; [destruct n; simpl; lia|].
  repeat match goal with |- context [if ?c then _ else _] => destruct c end; lia.
Qed.

(** For [m >= 0], [p > m * 0.7] needs [p > 0]. *)
Lemma gt_mul_0_7_pos (p m : Z) : (0 <= m)%Z -> gt_mul_0_7 p m = true -> (0 < p)%Z.
Proof.
  intros Hm H. unfold gt_mul_0_7 in H.
  destruct (round53_nonneg m Hm) as [Ha Hea].
  destruct (round53 m) as [a ea]. cbn [fst snd] in Ha, Hea.
  destruct (round53_nonneg (a * C0_7)) as [Hb Heb]; [unfold C0_7; lia|].
  destruct (round53 (a * C0_7)) as [b eb]. cbn [fst snd] in Hb, Heb.
  apply Z.ltb_lt in H.
  assert (H0 : (0 <= b * 2 ^ (ea + eb))%Z)
    by (apply Z.mul_nonneg_nonneg; [lia | apply Z.pow_nonneg; lia]).
  assert (H52 : (0 < 2 ^ 52)%Z) by reflexivity.
  set (P := (2 ^ 52)%Z) in *. set (E := (b * 2 ^ (ea + eb))%Z) in *.
  destruct (Z.le_gt_cases p 0) as [Hp|Hp]; [|exact Hp].
  assert (Hn : (p * P <= 0)%Z) by (apply Z.mul_nonpos_nonneg; lia). lia.
Qed.

Lemma finish_props (x : text) :
  first_ok x ->
  strip (finish x) = finish x /\
  (finish x = [] <-> x = []) /\
  (x <> [] -> ends_with_punct (finish x) = true) /\
  (ends_with_punct x = true -> finish x = x) /\
  (x <> [] -> ends_with_punct x = false -> finish x = x ++ [PERIOD]).
Proof.
  intros H. destruct x as [|c r].
  { repeat split; try reflexivity; try discriminate; congruence. }
  change (finish (c :: r)) with
    (if negb (ends_with_punct (c :: r)) then (c :: r) ++ [PERIOD] else c :: r).
  set (x := c :: r) in *.
  assert (Hne : x <> []) by discriminate.
  destruct (ends_with_punct x) eqn:He; simpl.
  - repeat split; try tauto; try congruence.
    apply strip_id; [exact H|].
    unfold ends_with_punct in He. destruct (rev x) as [|a ra]; simpl; [exact I|].
    apply Bool.not_true_iff_false. intros Hs. unfold is_end_punct in He.
    apply Bool.orb_true_iff in He as [He|He]; [apply Bool.orb_true_iff in He as [He|He]|];
      apply N.eqb_eq in He; subst; discriminate.
  - repeat split; try tauto; try congruence.
    + apply strip_id; [exact H|].
      rewrite app_comm_cons, rev_app_distr. reflexivity.
    + intros _. rewrite app_comm_cons. now rewrite ends_with_punct_snoc.
Qed.

Lemma first_ok_rsplit_head (tr : text) : first_ok tr -> first_ok (rsplit_head tr).
Proof.
  unfold rsplit_head. destruct (rfind tr SPACE <? 0)%Z; [tauto|].
  apply first_ok_firstn.
Qed.

End CleanProps.

(** C8 (amended): the text is first collapsed ([d]: same non-whitespace
    content, whitespace reduced to single spaces, none at either end).
    When [d] is longer than [M], let [p] be the last index of '.', '!' or
    '?' among its first [M] code points ([tr]), or -1: if [p > M * 0.7],
    the product taken in floating point as Python does ([gt_mul_0_7]; e.g.
    62.99999999999999 for [M = 90]), the text is cut just after [p]; otherwise [tr] is cut before its last space
    (kept whole when it has none) and a period is appended.  When [d] fits,
    it is kept, with a period appended if it does not end with '.', '!' or
    '?'.  The result is empty exactly when [d] is (empty or all-whitespace
    input) and otherwise ends with '.', '!' or '?'. *)
Theorem C8_clean_description (M : Z) (s : Clean.text) :
  (0 <= M)%Z ->
  let d := Clean.join_space (Clean.py_split s) in
  let tr := firstn (Z.to_nat M) d in
  let p := Z.max (Clean.rfind tr Clean.PERIOD)
             (Z.max (Clean.rfind tr Clean.EXCLAMATION) (Clean.rfind tr Clean.QUESTION)) in
  CleanProps.collapsed d /\
  filter CleanProps.nonspace d = filter CleanProps.nonspace s /\
  CleanProps.last_index Clean.is_end_punct tr p /\
  CleanProps.last_index (fun c => (c =? Clean.SPACE)%N) tr (Clean.rfind tr Clean.SPACE) /\
  ((Z.of_nat (List.length d) <= M)%Z -> Clean.ends_with_punct d = true ->
   Clean.clean_description M s = d) /\
  ((Z.of_nat (List.length d) <= M)%Z -> d <> [] -> Clean.ends_with_punct d = false ->
   Clean.clean_description M s = d ++ [Clean.PERIOD]) /\
  ((M < Z.of_nat (List.length d))%Z -> Clean.gt_mul_0_7 p M = true ->
   Clean.clean_description M s = firstn (Z.to_nat (p + 1)) d) /\
  ((M < Z.of_nat (List.length d))%Z -> Clean.gt_mul_0_7 p M = false ->
   Clean.clean_description M s = Clean.rsplit_head tr ++ [Clean.PERIOD]) /\
  (Clean.clean_description M s = [] <-> d = []) /\
  (d <> [] -> Clean.ends_with_punct (Clean.clean_description M s) = true).
Proof.
  intros HM d tr p.
  destruct (CleanProps.join_space_props (Clean.py_split s)
              (CleanProps.split_go_words [] s (Forall_nil _)))
    as (J1 & J2 & J3 & J4 & J5 & J6).
  change (Clean.join_space (Clean.py_split s)) with d in J1, J2, J3, J4, J5, J6.
  assert (Hfil : filter CleanProps.nonspace d = filter CleanProps.nonspace s)
    by (rewrite J5; apply CleanProps.split_go_concat).
  assert (Hp := CleanProps.last_punctuation_spec tr). fold p in Hp.
  assert (Htr : CleanProps.first_ok tr) by now apply CleanProps.first_ok_firstn.
  rewrite (CleanProps.clean_description_unfold M s HM). fold d tr p.
  split; [repeat split; assumption|].
  split; [exact Hfil|]. split; [exact Hp|]. split; [apply CleanProps.rfind_spec|].
  destruct (M <? Z.of_nat (List.length d))%Z eqn:Hlen.
  - apply Z.ltb_lt in Hlen. cbv iota.
    assert (Hd : d <> []) by (intros E; rewrite E in Hlen; simpl in Hlen; lia).
    destruct (Clean.gt_mul_0_7 p M) eqn:Hcut.
    + apply (CleanProps.gt_mul_0_7_pos p M HM) in Hcut.
      rewrite CleanProps.slice_to_nonneg by lia.
      destruct Hp as [[Hp1 _]|(Hp0 & Hplt & Hpc & _)]; [lia|].
      unfold tr in Hplt. rewrite length_firstn in Hplt.
      assert (Hk : Z.to_nat (p + 1) = S (Z.to_nat p)) by lia.
      assert (Hb1 : firstn (Z.to_nat (p + 1)) d <> []).
      { rewrite Hk, CleanProps.rev_firstn_S by lia.
        destruct (firstn (Z.to_nat p) d); discriminate. }
      assert (Hb2 : Clean.ends_with_punct (firstn (Z.to_nat (p + 1)) d) = true).
      { rewrite Hk, CleanProps.rev_firstn_S by lia.
        rewrite CleanProps.ends_with_punct_snoc.
        unfold tr in Hpc. rewrite nth_firstn in Hpc.
        destruct (Z.to_nat p <? Z.to_nat M)%nat eqn:Hb; [exact Hpc|].
        apply Nat.ltb_ge in Hb. lia. }
      assert (Hb3 : CleanProps.first_ok (firstn (Z.to_nat (p + 1)) d))
        by now apply CleanProps.first_ok_firstn.
      destruct (CleanProps.finish_props _ Hb3) as (F1 & F2 & F3 & F4 & F5).
      rewrite F1, (F4 Hb2).
      repeat split; intros; try lia; congruence.
    + assert (Hb1 : Clean.rsplit_head tr ++ [Clean.PERIOD] <> [])
        by now destruct (Clean.rsplit_head tr).
      assert (Hb2 : Clean.ends_with_punct (Clean.rsplit_head tr ++ [Clean.PERIOD]) = true)
        by now rewrite CleanProps.ends_with_punct_snoc.
      assert (Hb3 : CleanProps.first_ok (Clean.rsplit_head tr ++ [Clean.PERIOD])).
      { apply CleanProps.first_ok_app; [|exact CleanProps.first_ok_period].
        now apply CleanProps.first_ok_rsplit_head. }
      destruct (CleanProps.finish_props _ Hb3) as (F1 & F2 & F3 & F4 & F5).
      rewrite F1, (F4 Hb2).
      repeat split; intros; try lia; congruence.
  - apply Z.ltb_ge in Hlen. cbv iota.
    destruct (CleanProps.finish_props d J3) as (F1 & F2 & F3 & F4 & F5).
    rewrite F1. repeat split; intros; try lia; auto; tauto.
Qed.

(** Sample texts for the description cleaning: [n] copies of "aaaa ". *)
Fixpoint c8_words (n : nat) : Clean.text :=
  match n with
  | O => []
  | S k => [97; 97; 97; 97; 32]%N ++ c8_words k
  end.

(** 520 code points, a period at index 480 and none after. *)
Definition c8_late_period : Clean.text :=
  c8_words 96 ++ [Clean.PERIOD] ++ firstn 39 (c8_words 8).

(** 520 code points, the only period at index 100. *)
Definition c8_early_period : Clean.text :=
  c8_words 20 ++ [Clean.PERIOD] ++ firstn 419 (c8_words 84).

(** 104 code points with no double space, the only period at index 63. *)
Definition c8_period_at_63 : Clean.text :=
  c8_words 12 ++ [97; 97; 97; Clean.PERIOD; 32]%N ++ firstn 39 (c8_words 8).

(** C8: an empty (or all-whitespace) text is returned empty, so the
    result does not always end with '.', '!' or '?'.  And the 70% test is
    the float product [M * 0.7]: with [M = 90] it is 62.99999999999999, so a
    text whose last punctuation within the limit is at index 63, exactly 70%
    of 90 and not past it, is still cut at that period rather than at a
    word boundary with a period appended. *)
Lemma C8_clean_description_cex :
  Clean.clean_description Clean.MAX_DESCRIPTION_LENGTH [] = [] /\
  Clean.clean_description Clean.MAX_DESCRIPTION_LENGTH [32%N; 10%N] = [] /\
  Clean.ends_with_punct [] = false /\
  Clean.join_space (Clean.py_split c8_period_at_63) = c8_period_at_63 /\
  List.length c8_period_at_63 = 104%nat /\
  Z.max (Clean.rfind (firstn 90 c8_period_at_63) Clean.PERIOD)
    (Z.max (Clean.rfind (firstn 90 c8_period_at_63) Clean.EXCLAMATION)
       (Clean.rfind (firstn 90 c8_period_at_63) Clean.QUESTION)) = 63%Z /\
  (10 * 63 <= 7 * 90)%Z /\
  Clean.clean_description 90 c8_period_at_63 = firstn 64 c8_period_at_63 /\
  Clean.clean_description 90 c8_period_at_63
  <> Clean.rsplit_head (firstn 90 c8_period_at_63) ++ [Clean.PERIOD].
Proof.
  repeat split; try reflexivity; try lia.
  vm_compute. discriminate.
Qed.

Example c8_late_period_cut :
  Clean.clean_description Clean.MAX_DESCRIPTION_LENGTH c8_late_period
  = firstn 481 c8_late_period.
Proof. vm_compute. reflexivity. Qed.

Example c8_early_period_cut :
  Clean.clean_description Clean.MAX_DESCRIPTION_LENGTH c8_early_period
  = firstn 495 c8_early_period ++ [Clean.PERIOD].
Proof. vm_compute. reflexivity. Qed.

Lemma C8_clean_description_witness :
  (0 <= Clean.MAX_DESCRIPTION_LENGTH)%Z /\
  (let d := Clean.join_space (Clean.py_split c8_late_period) in
  let tr := firstn (Z.to_nat Clean.MAX_DESCRIPTION_LENGTH) d in
  let p := Z.max (Clean.rfind tr Clean.PERIOD)
             (Z.max (Clean.rfind tr Clean.EXCLAMATION) (Clean.rfind tr Clean.QUESTION)) in
  CleanProps.collapsed d /\
  filter CleanProps.nonspace d = filter CleanProps.nonspace c8_late_period /\
  CleanProps.last_index Clean.is_end_punct tr p /\
  CleanProps.last_index (fun c => (c =? Clean.SPACE)%N) tr (Clean.rfind tr Clean.SPACE) /\
  ((Z.of_nat (List.length d) <= Clean.MAX_DESCRIPTION_LENGTH)%Z -> Clean.ends_with_punct d = true ->
   Clean.clean_description Clean.MAX_DESCRIPTION_LENGTH c8_late_period = d) /\
  ((Z.of_nat (List.length d) <= Clean.MAX_DESCRIPTION_LENGTH)%Z -> d <> [] -> Clean.ends_with_punct d = false ->
   Clean.clean_description Clean.MAX_DESCRIPTION_LENGTH c8_late_period = d ++ [Clean.PERIOD]) /\
  ((Clean.MAX_DESCRIPTION_LENGTH < Z.of_nat (List.length d))%Z -> Clean.gt_mul_0_7 p Clean.MAX_DESCRIPTION_LENGTH = true ->
   Clean.clean_description Clean.MAX_DESCRIPTION_LENGTH c8_late_period = firstn (Z.to_nat (p + 1)) d) /\
  ((Clean.MAX_DESCRIPTION_LENGTH < Z.of_nat (List.length d))%Z -> Clean.gt_mul_0_7 p Clean.MAX_DESCRIPTION_LENGTH = false ->
   Clean.clean_description Clean.MAX_DESCRIPTION_LENGTH c8_late_period = Clean.rsplit_head tr ++ [Clean.PERIOD]) /\
  (Clean.clean_description Clean.MAX_DESCRIPTION_LENGTH c8_late_period = [] <-> d = []) /\
  (d <> [] -> Clean.ends_with_punct (Clean.clean_description Clean.MAX_DESCRIPTION_LENGTH c8_late_period) = true)).
Proof.
  split; [unfold Clean.MAX_DESCRIPTION_LENGTH; lia|].
  apply (C8_clean_description Clean.MAX_DESCRIPTION_LENGTH c8_late_period).
  unfold Clean.MAX_DESCRIPTION_LENGTH; lia.
Defined.

(* ================================================================== *)
(** * Further properties of the code *)

(* ---------- queues ---------- *)

Lemma drain_go_items {A} (n : nat) (q : queue A) :
  (List.length (items q) <= n)%nat ->
  items (QueueOps.drain_go n q) = [] /\ maxsize (QueueOps.drain_go n q) = maxsize q.
Proof.
  revert q; induction n as [|n IH]; intros [m xs] H; simpl in *.
  - destruct xs; [auto | simpl in H; lia].
  - unfold get_nowait; simpl. destruct xs as [|x r]; [auto|].
    simpl in H. destruct (IH (mkQueue m r)) as [H1 H2]; simpl; [lia|]. auto.
Qed.

Lemma drain_items {A} (q : queue A) :
  items (QueueOps.drain q) = [] /\ maxsize (QueueOps.drain q) = maxsize q.
Proof. apply drain_go_items. lia. Qed.

Lemma take_all_go_spec {A} (n : nat) (q : queue A) :
  (List.length (items q) < n)%nat ->
  QueueOps.take_all_go n q = (items q, mkQueue (maxsize q) []).
Proof.
  revert q; induction n as [|n IH]; intros [m xs] H; simpl in *; [lia|].
  unfold get_nowait; simpl. destruct xs as [|x r]; [reflexivity|].
  simpl in H. rewrite (IH (mkQueue m r)) by (simpl; lia). reflexivity.
Qed.

Lemma take_all_spec {A} (q : queue A) :
  QueueOps.take_all q = (items q, mkQueue (maxsize q) []).
Proof. apply take_all_go_spec. lia. Qed.

(* ---------- alert control ---------- *)

Lemma stop_state (st : Alert.state) :
  Alert.enabled (AlertCtl.stop st) = false /\
  items (Alert.alert_queue (AlertCtl.stop st)) = [].
Proof.
  unfold AlertCtl.stop, AlertCtl.set_enabled. simpl. split; [reflexivity|].
  apply drain_items.
Qed.

Lemma apply_calls_disabled cfg (st : Alert.state) cs :
  Alert.enabled st = false -> AlertCtl.apply_calls cfg st cs = st.
Proof.
  unfold AlertCtl.apply_calls. revert st; induction cs as [|c cs IH]; intros st H; simpl.
  - reflexivity.
  - assert (E : AlertCtl.apply_call cfg st c = st).
    { destruct c; simpl; [unfold Alert.alert_obstacle | unfold Alert.alert_noise];
        rewrite H; reflexivity. }
    rewrite E. now apply IH.
Qed.

(** X1: after [stop()] (or [set_enabled(False)]) the alert queue is empty,
    every later [alert_obstacle] / [alert_noise] call leaves the state
    unchanged, and the playback worker finds nothing to play. *)
Theorem alert_stop_silences (cfg : Alert.config) (st : Alert.state)
    (cs : list AlertCtl.call) (now : Q) :
  items (Alert.alert_queue (AlertCtl.stop st)) = [] /\
  AlertCtl.apply_calls cfg (AlertCtl.stop st) cs = AlertCtl.stop st /\
  Alert.process_one (AlertCtl.apply_calls cfg (AlertCtl.stop st) cs) now = None.
Proof.
  destruct (stop_state st) as [He Hq].
  rewrite apply_calls_disabled by exact He.
  split; [exact Hq|]. split; [reflexivity|].
  unfold Alert.process_one, get_nowait. now rewrite Hq.
Qed.

(* ---------- debounce keys ---------- *)

Lemma key_eqb_sym (k k' : string * Z) : Alert.key_eqb k k' = Alert.key_eqb k' k.
Proof.
  destruct k, k'. unfold Alert.key_eqb. simpl.
  now rewrite String.eqb_sym, Z.eqb_sym.
Qed.

Lemma lookup_filter_other (k k' : string * Z) l :
  Alert.key_eqb k' k = false ->
  Alert.lookup_time k' (filter (fun e => negb (Alert.key_eqb k (fst e))) l)
  = Alert.lookup_time k' l.
Proof.
  intros Hk. induction l as [|[k'' t] r IH]; simpl; [reflexivity|].
  destruct (Alert.key_eqb k k'') eqn:E; simpl.
  - apply key_eqb_eq in E. subst k''. rewrite Hk. exact IH.
  - rewrite IH. reflexivity.
Qed.

Lemma alert_lookup_set_other (k k' : string * Z) t l :
  Alert.key_eqb k' k = false ->
  Alert.lookup_time k' (Alert.set_time k t l) = Alert.lookup_time k' l.
Proof.
  intros Hk. unfold Alert.set_time. simpl. rewrite Hk.
  now apply lookup_filter_other.
Qed.

(** X2: the playback debounce only relates messages with the same
    (type, frequency) key: playing a message never changes whether a
    message with another key sounds, so e.g. an obstacle tone never
    silences a noise tone. *)
Theorem play_alert_other_key (st : Alert.state) (m m' : Alert.alert_msg) (t1 t2 : Q) :
  Alert.key_eqb (Alert.alert_key m') (Alert.alert_key m) = false ->
  snd (Alert.play_alert (fst (Alert.play_alert st m t1)) m' t2)
  = snd (Alert.play_alert st m' t2).
Proof.
  intros Hk. destruct (Alert.play_alert st m t1) as [st1 b] eqn:E. simpl.
  assert (Hst : st1 = st \/
                st1 = Alert.mkState (Alert.enabled st) (Alert.alert_queue st)
                        (Alert.set_time (Alert.alert_key m) t1 (Alert.last_alert_time st))
                        (Alert.debounce_time st)).
  { unfold Alert.play_alert in E.
    destruct (negb (Alert.enabled st)); [inversion E; auto|].
    destruct (match Alert.lookup_time (Alert.alert_key m) (Alert.last_alert_time st) with
              | Some t0 => negb (Qle_bool (Alert.debounce_time st) (t1 - t0))
              | None => false end); inversion E; auto. }
  destruct Hst as [-> | ->]; [reflexivity|].
  unfold Alert.play_alert; cbn -[Alert.set_time Alert.lookup_time].
  rewrite alert_lookup_set_other by exact Hk.
  destruct (negb (Alert.enabled st)); [reflexivity|].
  destruct (match Alert.lookup_time (Alert.alert_key m') (Alert.last_alert_time st) with
            | Some t0 => negb (Qle_bool (Alert.debounce_time st) (t2 - t0))
            | None => false end); reflexivity.
Qed.

Definition x_obstacle_msg : Alert.alert_msg :=
  Alert.mkAlert "obstacle" 990 (3 # 20) "high" (Alert.ObstacleInfo "close" "person").
Definition x_noise_msg : Alert.alert_msg :=
  Alert.mkAlert "noise" 1200 (1 # 5) "high" (Alert.NoiseInfo "siren" (1 # 2)).

Lemma play_alert_other_key_witness :
  Alert.key_eqb (Alert.alert_key x_noise_msg) (Alert.alert_key x_obstacle_msg) = false /\
  snd (Alert.play_alert (fst (Alert.play_alert (Alert.init Alert.default_config)
        x_obstacle_msg 0)) x_noise_msg (1 # 10))
  = snd (Alert.play_alert (Alert.init Alert.default_config) x_noise_msg (1 # 10)).
Proof.
  split; [reflexivity|]. apply play_alert_other_key. reflexivity.
Defined.

(* ---------- detection thread ---------- *)

Section PipelineProps.
Import VisionN Pipeline.
Local Open Scope string_scope.
Variable lower : string -> string.

Lemma alert_obstacle_enabled cfg st p o pr c :
  Alert.enabled (Alert.alert_obstacle cfg st p o pr c) = Alert.enabled st.
Proof.
  unfold Alert.alert_obstacle.
  destruct (negb (Alert.enabled st)); [reflexivity|].
  destruct ((p =? "far") && negb c); [reflexivity|].
  destruct ((p =? "medium") && negb c); [reflexivity|].
  destruct (if p =? "close" then _ else _) as [f d].
  apply enqueue_enabled.
Qed.

Lemma alert_obstacle_count cfg st p o pr c :
  Alert.enabled st = true -> maxsize (Alert.alert_queue st) = 0 ->
  In p ["close"; "medium"; "far"] ->
  List.length (items (Alert.alert_queue (Alert.alert_obstacle cfg st p o pr c)))
  = (List.length (items (Alert.alert_queue st))
     + if (p =? "close")%string || c then 1 else 0)%nat.
Proof.
  intros He Hm Hp.
  destruct ((p =? "close")%string || c) eqn:Ea.
  - destruct (alert_obstacle_sends cfg p o pr c) as [m Hs].
    { apply orb_prop in Ea as [E|E]; [left; now apply String.eqb_eq in E | now right]. }
    rewrite (Hs st He), enqueue_unbounded by exact Hm.
    rewrite length_app. simpl. lia.
  - apply orb_false_elim in Ea as [Ep Ec]. subst c.
    simpl in Hp. destruct Hp as [<-|[<-|[<-|[]]]]; [discriminate| |];
      unfold Alert.alert_obstacle; rewrite He; simpl; lia.
Qed.

Lemma process_detection_alerts cfg s d :
  Alert.enabled (p_alert s) = true -> maxsize (Alert.alert_queue (p_alert s)) = 0 ->
  In (d_proximity d) ["close"; "medium"; "far"] ->
  Alert.enabled (p_alert (process_detection lower cfg s d)) = true /\
  maxsize (Alert.alert_queue (p_alert (process_detection lower cfg s d))) = 0 /\
  List.length (items (Alert.alert_queue (p_alert (process_detection lower cfg s d))))
  = (List.length (items (Alert.alert_queue (p_alert s)))
     + if (d_proximity d =? "close")%string || d_is_center d then 1 else 0)%nat.
Proof.
  intros He Hm Hp. unfold process_detection. cbn [p_alert].
  split; [rewrite alert_obstacle_enabled; exact He|].
  split; [rewrite alert_obstacle_maxsize; exact Hm|].
  now apply alert_obstacle_count.
Qed.

Lemma fold_process_detection cfg dets s :
  Alert.enabled (p_alert s) = true -> maxsize (Alert.alert_queue (p_alert s)) = 0 ->
  Forall (fun d => In (d_proximity d) ["close"; "medium"; "far"]) dets ->
  let s' := fold_left (process_detection lower cfg) dets s in
  List.length (items (Alert.alert_queue (p_alert s')))
  = (List.length (items (Alert.alert_queue (p_alert s)))
     + List.length (filter (fun d => (d_proximity d =? "close")%string || d_is_center d) dets))%nat /\
  map an_name (p_announce s')
  = (map an_name (p_announce s)
     ++ map d_name (filter (fun d => should_announce (d_proximity d) (d_is_center d)) dets))%list.
Proof.
  revert s; induction dets as [|d r IH]; intros s He Hm Hf; simpl.
  - rewrite app_nil_r. split; [lia | reflexivity].
  - inversion Hf as [|? ? Hd Hr]; subst.
    destruct (process_detection_alerts cfg s d He Hm Hd) as [He' [Hm' Hl]].
    destruct (IH _ He' Hm' Hr) as [H1 H2]. split.
    + rewrite H1, Hl. destruct ((d_proximity d =? "close")%string || d_is_center d); simpl; lia.
    + rewrite H2. unfold process_detection at 1. cbn [p_announce].
      destruct (should_announce (d_proximity d) (d_is_center d)); simpl.
      * rewrite map_app, <- app_assoc. reflexivity.
      * reflexivity.
Qed.

(** X3: in one frame of the detection thread, one alert is queued for each
    detection that is close or in the centre, and the announced objects are,
    in order, the close ones and the centred medium ones; every announced
    object also got an alert. *)
Theorem pipeline_frame_alerts_and_announcements (cfg : Alert.config)
    (alert : Alert.state) (gui : queue (detection * string)) (dets : list detection) :
  Alert.enabled alert = true -> maxsize (Alert.alert_queue alert) = 0 ->
  Forall (fun d => In (d_proximity d) ["close"; "medium"; "far"]) dets ->
  let s := process_frame lower cfg alert gui dets in
  List.length (items (Alert.alert_queue (p_alert s)))
  = (List.length (items (Alert.alert_queue alert))
     + List.length (filter (fun d => (d_proximity d =? "close")%string || d_is_center d) dets))%nat /\
  map an_name (p_announce s)
  = map d_name (filter (fun d => should_announce (d_proximity d) (d_is_center d)) dets) /\
  (forall d, should_announce (d_proximity d) (d_is_center d) = true ->
             (d_proximity d =? "close")%string || d_is_center d = true).
Proof.
  intros He Hm Hf s.
  destruct (fold_process_detection cfg dets (mkP alert gui []) He Hm Hf) as [H1 H2].
  split; [exact H1|]. split; [exact H2|].
  intros d. unfold should_announce.
  destruct (d_proximity d =? "close")%string; [reflexivity|].
  simpl. destruct (d_is_center d); [reflexivity|discriminate].
Qed.



Lemma gui_fold_items cfg dets s :
  maxsize (p_gui s) = 10 -> (List.length (items (p_gui s)) <= 10)%nat ->
  items (p_gui (fold_left (process_detection lower cfg) dets s))
  = firstn 10 (items (p_gui s)
               ++ map (fun d => (d, get_obstacle_type lower (d_name d))) dets).
Proof.
  revert s; induction dets as [|d r IH]; intros s Hm Hl; cbn [fold_left map].
  - rewrite app_nil_r, firstn_all2 by lia. reflexivity.
  - unfold process_detection at 2. set (g := p_gui s) in *.
    destruct (Nat.lt_ge_cases (List.length (items g)) 10) as [Hlt|Hge].
    + assert (F : full g = false).
      { unfold full. rewrite Hm. apply andb_false_intro2, Z.leb_gt. lia. }
      unfold put_nowait. rewrite F. cbn [negb].
      rewrite IH; cbn [p_gui maxsize items]; [| exact Hm |].
      * rewrite <- app_assoc. reflexivity.
      * rewrite length_app. simpl. lia.
    + assert (F : full g = true).
      { unfold full. rewrite Hm. apply andb_true_intro. split; [reflexivity|].
        apply Z.leb_le. lia. }
      rewrite F. cbn [negb].
      rewrite IH; cbn [p_gui]; [| exact Hm | exact Hl].
      assert (Hlen : List.length (items g) = 10%nat) by lia.
      rewrite !firstn_app, Hlen, Nat.sub_diag. reflexivity.
Qed.

(** X5: the GUI's detection queue ([maxsize=10]) keeps the first detections
    offered to it and drops the newer ones once it holds ten.  An update of
    a running GUI with a root then shows all queued detections, oldest
    first, empties the queue and adds their number to the running total; an
    update of a stopped GUI shows nothing and leaves the queue as it is. *)
Theorem gui_queue_keeps_oldest (cfg : Alert.config) (alert : Alert.state)
    (gui : queue (detection * string)) (dets : list detection) (g : gui_state) :
  maxsize gui = DETECTION_QUEUE_MAXSIZE -> (List.length (items gui) <= 10)%nat ->
  let q1 := p_gui (process_frame lower cfg alert gui dets) in
  let kept := firstn 10 (items gui
                         ++ map (fun d => (d, get_obstacle_type lower (d_name d))) dets) in
  items q1 = kept /\ maxsize q1 = DETECTION_QUEUE_MAXSIZE /\
  (g_running g = true -> g_has_root g = true ->
   let '(shown, q, g') := gui_update g q1 in
   shown = kept /\ items q = [] /\ maxsize q = DETECTION_QUEUE_MAXSIZE /\
   g_total g' = (g_total g + List.length shown)%nat /\ g_running g' = true) /\
  (g_running g = false -> gui_update g q1 = ([], q1, g)).
Proof.
  intros Hm Hl q1 kept.
  (* the queue's [maxsize] is never changed by the loop *)
  assert (Hmx : forall ds s, maxsize (p_gui (fold_left (process_detection lower cfg) ds s))
                         = maxsize (p_gui s)).
  { induction ds as [|d r IH]; intros s; simpl; [reflexivity|].
    rewrite IH. unfold process_detection. cbn [p_gui].
    destruct (negb (full (p_gui s))); [|reflexivity].
    unfold put_nowait. destruct (full (p_gui s)); reflexivity. }
  assert (Hq1 : items q1 = kept).
  { unfold q1, process_frame. rewrite gui_fold_items by assumption. reflexivity. }
  assert (Hm1 : maxsize q1 = DETECTION_QUEUE_MAXSIZE).
  { unfold q1, process_frame. rewrite Hmx. exact Hm. }
  split; [exact Hq1|]. split; [exact Hm1|]. split.
  - intros Hr Hroot. unfold gui_update. rewrite Hr, Hroot. cbn [negb orb].
    rewrite take_all_spec. cbn [g_total g_running].
    split; [exact Hq1|]. split; [reflexivity|]. split; [exact Hm1|].
    split; reflexivity.
  - intros Hr. unfold gui_update. rewrite Hr. reflexivity.
Qed.

End PipelineProps.

(* ---------- vision agent ---------- *)

Section VisionProps.
Import VisionN.
Local Open Scope string_scope.
Variable lower : string -> string.

(** The three boolean components of the sort key, read as a 3-bit number. *)
Definition key_rank (d : detection) : Z :=
  (if d_is_center d then 0 else 4) + (if String.eqb (d_proximity d) "close" then 0 else 2)
  + (if String.eqb (d_proximity d) "medium" then 0 else 1).

Lemma key_compare_rank (a b : detection) :
  key_compare a b =
  match Z.compare (key_rank a) (key_rank b) with
  | Eq => Qcompare (- d_confidence a) (- d_confidence b)
  | c => c
  end.
Proof.
  unfold key_compare, key_rank.
  destruct (d_is_center a), (d_is_center b), (d_proximity a =? "close"),
    (d_proximity b =? "close"), (d_proximity a =? "medium"),
    (d_proximity b =? "medium"); reflexivity.
Qed.

Lemma key_lt_iff (a b : detection) :
  key_compare a b = Lt <->
  (key_rank a < key_rank b)%Z \/
  (key_rank a = key_rank b /\ (d_confidence b < d_confidence a)%Q).
Proof.
  rewrite key_compare_rank.
  destruct (Z.compare_spec (key_rank a) (key_rank b)) as [E|E|E].
  - rewrite <- Qlt_alt. split.
    + intros H. right. split; [exact E|]. lra.
    + intros [H|[_ H]]; [lia|lra].
  - split; [intros _; now left | reflexivity].
  - split; [discriminate | intros [H|[H _]]; lia].
Qed.

Lemma key_leb_true (a b : detection) :
  key_leb a b = true <-> key_compare b a <> Lt.
Proof. unfold key_leb. destruct (key_compare b a); split; congruence. Qed.

Lemma key_leb_total (a b : detection) : key_leb a b = false -> key_leb b a = true.
Proof.
  rewrite key_leb_true. unfold key_leb. intros H.
  destruct (key_compare b a) eqn:E; try discriminate.
  rewrite key_lt_iff in E. rewrite key_lt_iff. intros H'.
  destruct E as [E|[E1 E2]], H' as [H'|[H1 H2]]; try lia. lra.
Qed.

Lemma key_leb_trans (a b c : detection) :
  key_leb a b = true -> key_leb b c = true -> key_leb a c = true.
Proof.
  rewrite !key_leb_true, !key_lt_iff. intros H1 H2 H3.
  destruct (Z.lt_trichotomy (key_rank a) (key_rank b)) as [L|[L|L]];
  destruct (Z.lt_trichotomy (key_rank b) (key_rank c)) as [L'|[L'|L']];
    try (apply H1; left; lia); try (apply H2; left; lia);
    destruct H3 as [H3|[H3 H4]]; try lia.
  - destruct (Qlt_le_dec (d_confidence a) (d_confidence b)) as [Q1|Q1].
    + apply H1. right. split; [congruence|exact Q1].
    + apply H2. right. split; [congruence|]. lra.
Qed.

Lemma vn_insert_perm (a : detection) (l : list detection) :
  Permutation (insert a l) (a :: l).
Proof.
  induction l as [|b r IH]; simpl; [reflexivity|].
  destruct (key_leb a b); [reflexivity|].
  rewrite IH. apply perm_swap.
Qed.

Lemma vn_sort_perm (l : list detection) : Permutation (sort l) l.
Proof.
  induction l as [|a r IH]; simpl; [reflexivity|].
  rewrite vn_insert_perm, IH. reflexivity.
Qed.

Lemma vn_insert_sorted (a : detection) (l : list detection) :
  Sorted (fun x y => key_leb x y = true) l ->
  Sorted (fun x y => key_leb x y = true) (insert a l).
Proof.
  induction 1 as [|b r Hs IH Hhd]; simpl.
  - constructor; constructor.
  - destruct (key_leb a b) eqn:E.
    + constructor; [constructor; assumption | constructor; exact E].
    + constructor; [exact IH|].
      apply key_leb_total in E.
      destruct r as [|c r']; simpl; [constructor; exact E|].
      inversion Hhd; subst.
      destruct (key_leb a c); constructor; assumption.
Qed.

Lemma vn_sort_sorted (l : list detection) :
  Sorted (fun x y => key_leb x y = true) (sort l).
Proof. induction l; simpl; [constructor | apply vn_insert_sorted; assumption]. Qed.

Lemma strongly_sorted_app {A} (R : A -> A -> Prop) (l1 l2 : list A) :
  StronglySorted R (l1 ++ l2) -> forall x y, In x l1 -> In y l2 -> R x y.
Proof.
  induction l1 as [|a r IH]; simpl; [tauto|].
  intros H x y [<-|Hx] Hy; inversion H as [|? ? Hs Hall]; subst.
  - rewrite Forall_forall in Hall. apply Hall, in_or_app. now right.
  - now apply IH.
Qed.

(** X6: a forced [detect_objects] call on a loaded model returns at most ten
    detections, all relevant, ordered by the key (centre first, then close,
    then medium, then higher confidence), and they are the best ones: the
    relevant detections it drops never rank strictly before a kept one. *)
Theorem detect_objects_keeps_best (a : agent) (boxes : list detection) :
  model_loaded a = true ->
  exists l rest,
    detect_objects lower a boxes true
    = (mkAgent true (frame_count a + 1) (process_every_n_frames a), Returned l) /\
    (List.length l <= 10)%nat /\
    Permutation (l ++ rest)
      (filter (fun d => is_relevant_object lower (d_name d) (d_confidence d)) boxes) /\
    Sorted (fun x y => key_compare y x <> Lt) l /\
    (forall x y, In x l -> In y rest -> key_compare y x <> Lt).
Proof.
  intros Hl.
  set (s := sort (filter (fun d => is_relevant_object lower (d_name d) (d_confidence d)) boxes)).
  exists (firstn max_detections s), (skipn max_detections s).
  assert (Hss : StronglySorted (fun x y => key_leb x y = true) s).
  { apply Sorted_StronglySorted; [intros x y z; apply key_leb_trans | apply vn_sort_sorted]. }
  split; [unfold detect_objects; rewrite Hl; reflexivity|].
  split; [rewrite length_firstn; unfold max_detections; lia|].
  split; [rewrite firstn_skipn; apply vn_sort_perm|].
  split.
  - assert (Hs : Sorted (fun x y => key_leb x y = true) (firstn max_detections s)).
    { apply StronglySorted_Sorted.
      rewrite <- (firstn_skipn max_detections s) in Hss.
      clear - Hss. induction (firstn max_detections s) as [|x r IH]; [constructor|].
      simpl in Hss. inversion Hss as [|? ? H1 H2]; subst. constructor; [now apply IH|].
      rewrite Forall_forall in H2 |- *. intros y Hy. apply H2, in_or_app. now left. }
    clear Hss. induction Hs as [|x r Hs IH Hhd]; constructor; [exact IH|].
    destruct Hhd; constructor. now apply key_leb_true.
  - intros x y Hx Hy. apply key_leb_true.
    rewrite <- (firstn_skipn max_detections s) in Hss.
    exact (strongly_sorted_app _ _ _ Hss x y Hx Hy).
Qed.

(** X7: [_is_relevant_object] only depends on the confidence through a
    class-dependent threshold: a detection at confidence at least 0.7 is
    always relevant, one below 0.4 never is, and raising the confidence of a
    relevant detection keeps it relevant. *)
Theorem is_relevant_object_thresholds (name : string) (c c' : Q) :
  ((PyFloat.f0_7 <= c)%Q -> is_relevant_object lower name c = true) /\
  ((c < PyFloat.f0_4)%Q -> is_relevant_object lower name c = false) /\
  ((c <= c')%Q -> is_relevant_object lower name c = true ->
   is_relevant_object lower name c' = true).
Proof.
  unfold is_relevant_object, PyFloat.f0_4, PyFloat.f0_6, PyFloat.f0_7.
  split; [|split]; intros H;
    destruct (Alert.in_list (lower name) high_priority);
    try destruct (Alert.in_list (lower name) medium_priority);
    try intros H'; qle_facts;
    first [ apply Qle_bool_iff; lra
          | apply not_true_iff_false; intros H''; apply Qle_bool_iff in H''; lra ].
Qed.

End VisionProps.

(* ---------- witnesses (batch A) ---------- *)

Definition x_person_close : VisionN.detection :=
  VisionN.mkDetection "person" (9 # 10) "close" false (1 # 5).
Definition x_car_center_far : VisionN.detection :=
  VisionN.mkDetection "car" (4 # 5) "far" true (1 # 50).
Definition x_cup_medium : VisionN.detection :=
  VisionN.mkDetection "cup" (7 # 10) "medium" false (1 # 20).
Definition x_frame : list VisionN.detection :=
  [x_person_close; x_car_center_far; x_cup_medium].

Lemma x_frame_proximities :
  Forall (fun d => In (VisionN.d_proximity d) ["close"; "medium"; "far"]%string) x_frame.
Proof. repeat constructor; simpl; tauto. Qed.

Lemma pipeline_frame_alerts_and_announcements_witness :
  Alert.enabled (Alert.init Alert.default_config) = true /\
  maxsize (Alert.alert_queue (Alert.init Alert.default_config)) = 0 /\
  Forall (fun d => In (VisionN.d_proximity d) ["close"; "medium"; "far"]%string) x_frame /\
  (let s := Pipeline.process_frame (fun s => s) Alert.default_config
              (Alert.init Alert.default_config) (new 10) x_frame in
   List.length (items (Alert.alert_queue (Pipeline.p_alert s))) = 2%nat /\
   map Pipeline.an_name (Pipeline.p_announce s) = ["person"%string]).
Proof.
  split; [reflexivity|]. split; [reflexivity|]. split; [exact x_frame_proximities|].
  destruct (pipeline_frame_alerts_and_announcements (fun s => s) Alert.default_config
              (Alert.init Alert.default_config) (new 10) x_frame eq_refl eq_refl
              x_frame_proximities) as [H1 [H2 _]].
  split; [rewrite H1; reflexivity | rewrite H2; reflexivity].
Defined.


Lemma gui_queue_keeps_oldest_witness :
  maxsize (mkQueue 10 (repeat (x_cup_medium, "object"%string) 9)) = Pipeline.DETECTION_QUEUE_MAXSIZE /\
  (List.length (items (mkQueue 10 (repeat (x_cup_medium, "object"%string) 9))) <= 10)%nat /\
  let '(shown, q, g') :=
    Pipeline.gui_update (Pipeline.mkGui true true 5)
      (Pipeline.p_gui (Pipeline.process_frame (fun s => s)
         Alert.default_config (Alert.init Alert.default_config)
         (mkQueue 10 (repeat (x_cup_medium, "object"%string) 9)) x_frame)) in
  shown = (repeat (x_cup_medium, "object"%string) 9 ++ [(x_person_close, "person"%string)])%list /\
  items q = [] /\ Pipeline.g_total g' = 15%nat.
Proof.
  split; [reflexivity|]. split; [simpl; lia|].
  pose proof (gui_queue_keeps_oldest (fun s => s) Alert.default_config
                (Alert.init Alert.default_config)
                (mkQueue 10 (repeat (x_cup_medium, "object"%string) 9)) x_frame
                (Pipeline.mkGui true true 5)
                eq_refl ltac:(simpl; lia)) as H.
  destruct H as [_ [_ [H _]]].
  specialize (H eq_refl eq_refl).
  destruct (Pipeline.gui_update _ _) as [[shown q] g'].
  destruct H as [H1 [H2 [_ [H3 _]]]]. rewrite H3, H1. split; [reflexivity|].
  split; [exact H2 | reflexivity].
Defined.

Lemma detect_objects_keeps_best_witness :
  VisionN.model_loaded (VisionN.mkAgent true 0 5) = true /\
  exists l (rest : list VisionN.detection),
    VisionN.detect_objects (fun s => s) (VisionN.mkAgent true 0 5) x_frame true
    = (VisionN.mkAgent true 1 5, VisionN.Returned l) /\ (List.length l <= 10)%nat.
Proof.
  split; [reflexivity|].
  destruct (detect_objects_keeps_best (fun s => s) (VisionN.mkAgent true 0 5) x_frame
              eq_refl) as [l [rest [H1 [H2 _]]]].
  exists l, rest. split; [exact H1 | exact H2].
Defined.

Lemma is_relevant_object_thresholds_witness :
  (PyFloat.f0_7 <= 3 # 4)%Q /\
  VisionN.is_relevant_object (fun s => s) "unicycle" (3 # 4) = true /\
  (1 # 5 < PyFloat.f0_4)%Q /\
  VisionN.is_relevant_object (fun s => s) "person" (1 # 5) = false.
Proof.
  assert (H1 : (PyFloat.f0_7 <= 3 # 4)%Q) by (unfold PyFloat.f0_7, Qle; simpl; lia).
  assert (H2 : (1 # 5 < PyFloat.f0_4)%Q) by (unfold PyFloat.f0_4, Qlt; simpl; lia).
  split; [exact H1|]. split; [exact (proj1 (is_relevant_object_thresholds (fun s => s) "unicycle" (3 # 4) (3 # 4)) H1)|].
  split; [exact H2|].
  exact (proj1 (proj2 (is_relevant_object_thresholds (fun s => s) "person" (1 # 5) (1 # 5))) H2).
Defined.

Lemma square_int16_le (s : Z) : Audio.square_int16 s <= 32767.
Proof.
  unfold Audio.square_int16, Audio.wrap_int16.
  pose proof (Z.mod_pos_bound (s * s + 32768) 65536 ltac:(lia)). lia.
Qed.

Lemma sum_square_int16_le (l : list Z) :
  Audio.sum_Z (map Audio.square_int16 l) <= 32767 * Z.of_nat (List.length l).
Proof.
  induction l as [|x r IH]; simpl; [lia|].
  pose proof (square_int16_le x). lia.
Qed.

(** The float64 mean of the wrapped squares of a non-empty chunk is at
    most 32767. *)
Lemma mean_square_int16_le (x : Z) (r : list Z) :
  (IZR (Audio.sum_Z (map Audio.square_int16 (x :: r))) / INR (List.length (x :: r))
   <= 32767)%R.
Proof.
  pose proof (sum_square_int16_le (x :: r)) as H.
  assert (Hn : (0 < INR (List.length (x :: r)))%R) by (apply lt_0_INR; simpl; lia).
  assert (Hs : (IZR (Audio.sum_Z (map Audio.square_int16 (x :: r)))
                <= 32767 * INR (List.length (x :: r)))%R).
  { rewrite INR_IZR_INZ, <- mult_IZR. apply IZR_le. lia. }
  apply (Rmult_le_reg_r (INR (List.length (x :: r)))); [exact Hn|].
  unfold Rdiv. rewrite Rmult_assoc, Rinv_l by Lra.lra. Lra.lra.
Qed.

Lemma sqrt_mean_lt (m : R) : (0 <= m)%R -> (m <= 32767)%R -> (sqrt m / 32768 < 1 / 128)%R.
Proof.
  intros H0 H1.
  assert (Hs : (sqrt m < 256)%R).
  { rewrite <- (sqrt_square 256) by Lra.lra.
    apply sqrt_lt_1_alt. Lra.lra. }
  Lra.lra.
Qed.

(** X8: the simple detector's normalised RMS never reaches 1/128 of full
    scale, because each int16 square wraps to at most 32767: for every
    threshold of at least 1/128, the default 0.2 included, [detect_noise]
    returns [None] on every chunk. *)
Theorem detect_noise_never_fires (noise_threshold : R) (samples : list Z) :
  (1 / 128 <= noise_threshold)%R ->
  Audio.detect_noise noise_threshold samples = None.
Proof.
  intros Ht. unfold Audio.detect_noise.
  destruct samples as [|x r]; [reflexivity|].
  destruct (Rlt_dec _ 0) as [Hneg|Hnn]; [reflexivity|].
  apply Rnot_lt_le in Hnn.
  pose proof (sqrt_mean_lt _ Hnn (mean_square_int16_le x r)).
  destruct (Rlt_dec noise_threshold _); [exfalso; Lra.lra | reflexivity].
Qed.

Lemma detect_noise_never_fires_witness :
  (1 / 128 <= Audio.NOISE_THRESHOLD)%R /\
  Audio.detect_noise Audio.NOISE_THRESHOLD [32767; -32768; 20000] = None.
Proof.
  assert (H : (1 / 128 <= Audio.NOISE_THRESHOLD)%R)
    by (unfold Audio.NOISE_THRESHOLD; Lra.lra).
  split; [exact H | exact (detect_noise_never_fires _ _ H)].
Defined.

(** X9: [get_audio_level] never reaches 1/128 of full scale either: when it
    returns a number (not NaN) the number is in [0, 1/128), so its
    [min(..., 1.0)] cap never applies. *)
Theorem get_audio_level_small (samples : list Z) (v : R) :
  AudioLevel.get_audio_level samples = Some v -> (0 <= v < 1 / 128)%R.
Proof.
  unfold AudioLevel.get_audio_level.
  destruct samples as [|x r]; [discriminate|].
  pose proof (mean_square_int16_le x r) as Hle.
  remember (IZR (Audio.sum_Z (map Audio.square_int16 (x :: r)))
            / INR (List.length (x :: r)))%R as m eqn:Hm.
  cbv zeta.
  destruct (Rlt_dec m 0) as [Hneg|Hnn]; [discriminate|].
  apply Rnot_lt_le in Hnn.
  pose proof (sqrt_mean_lt _ Hnn Hle) as Hlt.
  pose proof (sqrt_pos m) as Hp.
  unfold AudioLevel.py_min.
  destruct (Rlt_dec 1 (sqrt m / 32768)) as [H1|H1]; [exfalso; Lra.lra|].
  intros E. injection E as <-. split; Lra.lra.
Qed.

Lemma get_audio_level_small_witness :
  exists v, AudioLevel.get_audio_level [100; 100] = Some v /\ (0 <= v < 1 / 128)%R.
Proof.
  unfold AudioLevel.get_audio_level.
  destruct (Rlt_dec _ 0) as [H|H].
  - exfalso. simpl in H. Lra.lra.
  - eexists. split; [reflexivity|].
    apply (get_audio_level_small [100; 100]).
    unfold AudioLevel.get_audio_level. destruct (Rlt_dec _ 0); [contradiction | reflexivity].
Defined.

Section NoiseProps.
Import NoiseN.
Local Open Scope string_scope.
Variable fmul : Q -> Q -> Q.
(** Zero times a finite literal is zero in floating point. *)
Hypothesis fmul_zero_l : forall x, (fmul 0 x == 0)%Q.
Variable fft_abs : list Z -> list Q.
Variable fftfreq : nat -> Q -> list Q.
Variable np_sum : list Q -> Q.
Variable recip : Z -> Q.

Lemma Qltb_fmul_zero (x : Q) : PyFloat.Qltb (fmul 0 x) 0 = false.
Proof.
  unfold PyFloat.Qltb. apply negb_false_iff, Qle_bool_iff.
  rewrite (fmul_zero_l x). apply Qle_refl.
Qed.

(** X10: without scipy, or for a chunk of fewer than two samples, the
    frequency summary is the fallback and every noise at or above the
    threshold is classified 'general', whatever the band limits are; the
    audio thread then queues a 'general' noise alert at the medium
    frequency, with normal priority. *)
Theorem noise_without_fft_is_general (cfg : freq_config) (noise_threshold : Q)
    (has_scipy : bool) (sample_rate : Z) (audio_data : list Z) (intensity : Q)
    (acfg : Alert.config) (st : Alert.state) :
  has_scipy = false \/ (List.length audio_data < 2)%nat ->
  (noise_threshold <= intensity)%Q ->
  let t := reported_noise_type fmul cfg noise_threshold
             (analyze_frequencies fft_abs fftfreq np_sum recip cfg has_scipy
                sample_rate audio_data) intensity in
  t = "general" /\
  (Alert.enabled st = true ->
   Alert.alert_noise acfg st t intensity
   = Alert.enqueue st (Alert.mkAlert "noise" (Alert.ALERT_MEDIUM_FREQUENCY acfg)
                         (Alert.ALERT_DURATION acfg) "normal"
                         (Alert.NoiseInfo "general" intensity))).
Proof.
  intros Hs Ht t.
  assert (Ha : analyze_frequencies fft_abs fftfreq np_sum recip cfg has_scipy
                 sample_rate audio_data = fallback_info).
  { unfold analyze_frequencies.
    destruct Hs as [-> | Hn]; [reflexivity|].
    apply Nat.ltb_lt in Hn. rewrite Hn, orb_true_r. reflexivity. }
  assert (Ht' : t = "general").
  { unfold t, reported_noise_type, classify_noise_type. rewrite Ha.
    unfold PyFloat.Qltb at 1. apply Qle_bool_iff in Ht. rewrite Ht. cbn [negb].
    cbn [get_opt fallback_info dominant_freq freq_bands get].
    rewrite !Qltb_fmul_zero, !andb_false_r. reflexivity. }
  split; [exact Ht'|].
  intros He. rewrite Ht'. unfold Alert.alert_noise. rewrite He. reflexivity.
Qed.

End NoiseProps.

(** A stand-in FFT summary: one bin at 1000 Hz with magnitude 50, the
    shape of a siren if the FFT path were taken. *)
Definition x_fft_abs (x : list Z) : list Q := map (fun _ => 50%Q) x.
Definition x_fftfreq (n : nat) (d : Q) : list Q := repeat 1000%Q n.
Definition x_np_sum (l : list Q) : Q := fold_right Qplus 0%Q l.
Definition x_recip (r : Z) : Q := Qinv (inject_Z r).

Lemma noise_without_fft_is_general_witness :
  (forall x, (Qmult 0 x == 0)%Q) /\
  (false = false \/ (List.length [1%Z; -2%Z; 3%Z] < 2)%nat) /\
  (3602879701896397 # 18014398509481984 <= 1 # 2)%Q /\
  NoiseN.reported_noise_type Qmult NoiseN.default_freq_config
    (3602879701896397 # 18014398509481984)
    (NoiseN.analyze_frequencies x_fft_abs x_fftfreq x_np_sum x_recip
       NoiseN.default_freq_config false 44100 [1%Z; -2%Z; 3%Z]) (1 # 2)
  = "general"%string.
Proof.
  assert (Hz : forall x, (Qmult 0 x == 0)%Q) by (intros x; ring).
  assert (Hle : (3602879701896397 # 18014398509481984 <= 1 # 2)%Q)
    by (unfold Qle; simpl; lia).
  split; [exact Hz|]. split; [left; reflexivity|]. split; [exact Hle|].
  exact (proj1 (noise_without_fft_is_general Qmult Hz x_fft_abs x_fftfreq x_np_sum x_recip
                  NoiseN.default_freq_config _ false 44100 [1%Z; -2%Z; 3%Z] (1 # 2)
                  Alert.default_config (Alert.init Alert.default_config)
                  (or_introl eq_refl) Hle)).
Defined.

(** With scipy, the same chunk goes through the FFT path and is a siren. *)
Example x_fft_path_siren :
  NoiseN.reported_noise_type Qmult NoiseN.default_freq_config
    (3602879701896397 # 18014398509481984)
    (NoiseN.analyze_frequencies x_fft_abs x_fftfreq x_np_sum x_recip
       NoiseN.default_freq_config true 44100 [1%Z; -2%Z; 3%Z]) (1 # 2)
  = "siren"%string.
Proof. vm_compute. reflexivity. Qed.

Lemma lastn_all {A} (n : nat) (l : list A) :
  (List.length l <= n)%nat -> Window.lastn n l = l.
Proof.
  intros H. unfold Window.lastn. rewrite firstn_all2 by (rewrite length_rev; lia).
  apply rev_involutive.
Qed.

Lemma lastn_cons {A} (n : nat) (x : A) (l : list A) :
  List.length l = n -> Window.lastn n (x :: l) = l.
Proof.
  intros H. unfold Window.lastn. simpl.
  rewrite firstn_app, length_rev, H, Nat.sub_diag, firstn_all2 by (rewrite length_rev; lia).
  simpl. rewrite app_nil_r. apply rev_involutive.
Qed.

Lemma lastn_lastn_app {A} (n : nat) (l l' : list A) :
  Window.lastn n (Window.lastn n l ++ l') = Window.lastn n (l ++ l').
Proof.
  unfold Window.lastn. rewrite !rev_app_distr, rev_involutive.
  rewrite !firstn_app, firstn_firstn. f_equal. f_equal. f_equal. lia.
Qed.

Lemma lastn_length {A} (n : nat) (l : list A) : (List.length (Window.lastn n l) <= n)%nat.
Proof. unfold Window.lastn. rewrite length_rev, length_firstn. lia. Qed.

Section VoiceProps.
Import VoiceN.
Local Open Scope string_scope.
Variable lower strip : string -> string.

Lemma voice_lookup_set_same {V} (k : string) (v : V) d : lookup k (set k v d) = Some v.
Proof. unfold set. simpl. now rewrite String.eqb_refl. Qed.

Lemma voice_lookup_set_other {V} (k k' : string) (v : V) d :
  k' <> k -> lookup k' (set k v d) = lookup k' d.
Proof.
  intros Hk. unfold set. simpl.
  destruct (String.eqb_spec k' k) as [E|_]; [contradiction|].
  induction d as [|[k'' w] r IH]; simpl; [reflexivity|].
  destruct (String.eqb_spec k k'') as [->|Hne]; simpl.
  - destruct (String.eqb_spec k' k'') as [->|_]; [contradiction|]. exact IH.
  - destruct (String.eqb k' k''); [reflexivity|exact IH].
Qed.

(** The voice queue's full/evict/put sequence. *)
Lemma voice_queue_step (q : queue string) (m : string) :
  maxsize q = 10 -> (List.length (items q) <= 10)%nat ->
  let q1 := if full q then match get_nowait q with Some (_, q') => q' | None => q end
            else q in
  let q2 := match put_nowait q1 m with Put q => q | Full => q1 end in
  maxsize q2 = 10 /\ items q2 = Window.lastn 10 (items q ++ [m]).
Proof.
  intros Hm Hl q1 q2. destruct q as [mx xs]. simpl in Hm, Hl. subst mx.
  unfold q2, q1, put_nowait, full, get_nowait. cbn [maxsize items].
  replace (0 <? 10)%Z with true by reflexivity. cbn [andb].
  destruct (Nat.lt_ge_cases (List.length xs) 10) as [Hlt|Hge].
  - assert (F : (Z.leb 10 (Z.of_nat (List.length xs))) = false) by (apply Z.leb_gt; lia).
    rewrite F. cbn [maxsize items]. rewrite F, andb_false_r. split; [reflexivity|]. cbn [items].
    symmetry. apply lastn_all. rewrite length_app. simpl. lia.
  - assert (F : (Z.leb 10 (Z.of_nat (List.length xs))) = true) by (apply Z.leb_le; lia).
    rewrite F.
    destruct xs as [|x r]; [simpl in Hge; lia|]. cbn [maxsize items Datatypes.length] in *.
    assert (F' : (Z.leb 10 (Z.of_nat (List.length r))) = false) by (apply Z.leb_gt; lia).
    rewrite F', andb_false_r. split; [reflexivity|]. cbn [items].
    symmetry. apply lastn_cons. rewrite length_app. simpl. lia.
Qed.

Definition voice_message (c : string * string * Q) : string :=
  let '(n, t, _) := c in generate_message (translate_to_spanish lower strip n t) t.

Lemma existsb_eqb_in (n : string) (l : list string) :
  existsb (String.eqb n) l = true <-> In n l.
Proof.
  rewrite existsb_exists. split.
  - intros [x [Hx E]]. apply String.eqb_eq in E. now subst.
  - intros H. exists n. split; [exact H | apply String.eqb_refl].
Qed.

Lemma announce_all_cons (st : vstate) c r :
  announce_all lower strip st (c :: r)
  = announce_all lower strip
      (let '(n, t, now) := c in announce_close_object lower strip st n t now) r.
Proof. destruct c as [[n t] now]. reflexivity. Qed.

Lemma announce_window_go (all : list (string * string * Q)) (L0 : list (string * Q))
    (D : Q) :
  (forall n t now, In (n, t, now) all ->
     forall t0, lookup n L0 = Some t0 -> (D <= now - t0)%Q) ->
  (forall c c', In c all -> In c' all -> (snd c' - snd c < D)%Q) ->
  forall calls st seen,
  incl calls all ->
  v_enabled st = true -> v_engine st = true -> v_debounce st = D ->
  maxsize (v_queue st) = 10 -> (List.length (items (v_queue st)) <= 10)%nat ->
  (forall n, In n seen -> exists c, In c all /\ lookup n (v_last st) = Some (snd c)) ->
  (forall n, ~ In n seen -> lookup n (v_last st) = lookup n L0) ->
  items (v_queue (announce_all lower strip st calls))
  = Window.lastn 10 (items (v_queue st)
                     ++ map voice_message (VoiceSpec.first_by_name_go seen calls)).
Proof.
  intros Hfresh Hwin calls.
  induction calls as [|[[n t] now] r IH]; intros st seen Hincl He Hen Hd Hm Hl Hseen Hnot.
  - simpl. rewrite app_nil_r. symmetry. now apply lastn_all.
  - rewrite announce_all_cons. cbn [VoiceSpec.first_by_name_go].
    assert (Hin : In (n, t, now) all) by (apply Hincl; left; reflexivity).
    assert (Hr : incl r all) by (intros x Hx; apply Hincl; right; exact Hx).
    destruct (existsb (String.eqb n) seen) eqn:Es.
    + apply existsb_eqb_in in Es. destruct (Hseen n Es) as [c [Hc Hlk]].
      assert (Hst : announce_close_object lower strip st n t now = st).
      { unfold announce_close_object. rewrite He, Hen. cbn [negb andb].
        rewrite Hlk, Hd. unfold PyFloat.Qltb.
        pose proof (Hwin c (n, t, now) Hc Hin) as W. simpl in W.
        destruct (Qle_bool D (now - snd c)) eqn:E;
          [apply Qle_bool_iff in E; exfalso; lra | reflexivity]. }
      rewrite Hst. now apply IH.
    + assert (Hns : ~ In n seen) by (intros H; apply existsb_eqb_in in H; congruence).
      set (msg := generate_message (translate_to_spanish lower strip n t) t).
      destruct (voice_queue_step (v_queue st) msg Hm Hl) as [Hm2 Hi2].
      set (q2 := match put_nowait
                         (if full (v_queue st)
                          then match get_nowait (v_queue st) with
                               | Some (_, q') => q' | None => v_queue st end
                          else v_queue st) msg with
                 | Put q => q
                 | Full => if full (v_queue st)
                           then match get_nowait (v_queue st) with
                                | Some (_, q') => q' | None => v_queue st end
                           else v_queue st end) in *.
      assert (Hst : announce_close_object lower strip st n t now
                    = mkV (v_enabled st) (v_engine st) (v_engine_name st) q2
                          (set n now (v_last st)) (v_debounce st)).
      { unfold announce_close_object. rewrite He, Hen. cbn [negb andb].
        rewrite (Hnot n Hns).
        destruct (lookup n L0) as [t0|] eqn:Hl0; [|reflexivity].
        rewrite Hd. unfold PyFloat.Qltb.
        pose proof (Hfresh n t now Hin t0 Hl0) as F.
        apply Qle_bool_iff in F. rewrite F. reflexivity. }
      rewrite Hst, (IH _ (n :: seen)); cbn [v_queue v_enabled v_engine v_debounce v_last];
        [| exact Hr | exact He | exact Hen | exact Hd | exact Hm2
         | rewrite Hi2; apply lastn_length | | ].
      * rewrite Hi2, lastn_lastn_app, <- app_assoc. reflexivity.
      * intros m [<-|Hm']. 
        -- exists (n, t, now). split; [exact Hin | apply voice_lookup_set_same].
        -- rewrite voice_lookup_set_other by (intros ->; contradiction). now apply Hseen.
      * intros m Hm'. rewrite voice_lookup_set_other by (intros ->; apply Hm'; now left).
        apply Hnot. intros H. apply Hm'. now right.
Qed.

(** X11: the announcer drops a repeated object name for two seconds and
    keeps the ten newest messages: for calls made within less than two
    seconds of each other (as the detection thread's calls for one frame,
    0.1 s apart), on names not announced in the two seconds before, the
    voice queue ends with the messages of the first call of each name, in
    order, the oldest pending messages evicted beyond ten. *)
Theorem announce_once_per_name_window (st : vstate) (calls : list (string * string * Q)) :
  v_enabled st = true -> v_engine st = true -> v_debounce st = 2%Q ->
  maxsize (v_queue st) = VOICE_QUEUE_MAXSIZE ->
  (List.length (items (v_queue st)) <= 10)%nat ->
  (forall n t now, In (n, t, now) calls ->
     forall t0, lookup n (v_last st) = Some t0 -> (2 <= now - t0)%Q) ->
  (forall c c', In c calls -> In c' calls -> (snd c' - snd c < 2)%Q) ->
  items (v_queue (announce_all lower strip st calls))
  = Window.lastn 10 (items (v_queue st)
                     ++ map voice_message (VoiceSpec.first_by_name calls)).
Proof.
  intros He Hen Hd Hm Hl Hf Hw.
  apply (announce_window_go calls (v_last st) 2%Q Hf Hw calls st []);
    try assumption.
  - intros x Hx; exact Hx.
  - intros n [].
  - intros n _. reflexivity.
Qed.

(** X12: an object name that is empty once lowered and stripped is
    announced as "una persona": [''] is a substring of every key, and
    'person' is the first key of the translation table. *)
Theorem translate_empty_name_is_person (object_name obstacle_type : string) :
  strip (lower object_name) = "" ->
  translate_to_spanish lower strip object_name obstacle_type = "una persona".
Proof. intros H. unfold translate_to_spanish. rewrite H. reflexivity. Qed.

End VoiceProps.

Definition x_voice_state : VoiceN.vstate :=
  VoiceN.mkV true true "pyttsx3" (new 10) [] 2.
Definition x_voice_calls : list (string * string * Q) :=
  [("person", "person", 0%Q); ("person", "person", 1 # 10); ("chair", "furniture", 2 # 10)]%string.

Lemma x_voice_window :
  forall c c', In c x_voice_calls -> In c' x_voice_calls -> (snd c' - snd c < 2)%Q.
Proof.
  intros c c' Hc Hc'. simpl in Hc, Hc'.
  destruct Hc as [<-|[<-|[<-|[]]]]; destruct Hc' as [<-|[<-|[<-|[]]]];
    simpl; unfold Qlt; simpl; lia.
Qed.

Lemma announce_once_per_name_window_witness :
  items (VoiceN.v_queue (VoiceN.announce_all (fun s => s) (fun s => s)
                           x_voice_state x_voice_calls))
  = ["¡Atención! Hay una persona muy cerca de ti";
     "¡Atención! Hay una silla muy cerca de ti"]%string.
Proof.
  rewrite (announce_once_per_name_window (fun s => s) (fun s => s) x_voice_state x_voice_calls
             eq_refl eq_refl eq_refl eq_refl ltac:(simpl; lia)
             ltac:(intros n t now _ t0 H; discriminate H) x_voice_window).
  reflexivity.
Defined.

Lemma translate_empty_name_is_person_witness :
  VoiceN.translate_to_spanish (fun s => s) (fun s => s) "" "object" = "una persona"%string.
Proof. exact (translate_empty_name_is_person (fun s => s) (fun s => s) "" "object" eq_refl). Defined.

Lemma evict_put_step {A} (q : queue A) (x : A) :
  0 < maxsize q -> (List.length (items q) <= Z.to_nat (maxsize q))%nat ->
  let q1 := if full q then match get_nowait q with Some (_, q') => q' | None => q end
            else q in
  let q2 := match put_nowait q1 x with Put q => q | Full => q1 end in
  maxsize q2 = maxsize q /\ items q2 = Window.lastn (Z.to_nat (maxsize q)) (items q ++ [x]).
Proof.
  intros Hm Hl q1 q2. destruct q as [mx xs]. cbn [maxsize items] in *.
  unfold q2, q1, put_nowait, full, get_nowait. cbn [maxsize items].
  assert (T : (0 <? mx) = true) by (apply Z.ltb_lt; exact Hm). rewrite T. cbn [andb].
  destruct (Nat.lt_ge_cases (List.length xs) (Z.to_nat mx)) as [Hlt|Hge].
  - assert (F : (Z.leb mx (Z.of_nat (List.length xs))) = false) by (apply Z.leb_gt; lia).
    rewrite F. cbn [maxsize items]. rewrite F, andb_false_r. split; [reflexivity|]. cbn [items].
    symmetry. apply lastn_all. rewrite length_app. simpl. lia.
  - assert (F : (Z.leb mx (Z.of_nat (List.length xs))) = true) by (apply Z.leb_le; lia).
    rewrite F.
    destruct xs as [|y r]; [simpl in Hge; lia|]. cbn [maxsize items Datatypes.length] in *.
    assert (F' : (Z.leb mx (Z.of_nat (List.length r))) = false) by (apply Z.leb_gt; lia).
    rewrite F', andb_false_r. split; [reflexivity|]. cbn [items].
    symmetry. apply lastn_cons. rewrite length_app. simpl. lia.
Qed.

Section AudioMgrProps.
Import AudioMgr.
Local Open Scope string_scope.
Variable strip : string -> string.

Lemma speak_priority_items (q : queue string) (text : string) :
  text <> "" -> strip text <> "" ->
  items (speak strip q text true) = [text] /\ maxsize (speak strip q text true) = maxsize q.
Proof.
  intros H1 H2. unfold speak.
  destruct (String.eqb_spec text "") as [E|_]; [contradiction|].
  destruct (String.eqb_spec (strip text) "") as [E|_]; [contradiction|].
  cbn [orb].
  destruct (drain_items q) as [Hd Hdm].
  destruct (QueueOps.drain q) as [mx xs]. cbn [items maxsize] in Hd, Hdm |- *. subst xs.
  unfold put_nowait, full. cbn [maxsize items Datatypes.length app].
  destruct (Z.ltb 0 mx) eqn:E1; cbn [andb].
  - assert (E2 : (Z.leb mx 0) = false) by (apply Z.leb_gt; apply Z.ltb_lt in E1; lia).
    simpl. rewrite ?E1, ?E2. simpl. rewrite ?E1, ?E2. simpl. split; [reflexivity | exact Hdm].
  - simpl. rewrite ?E1. simpl. split; [reflexivity | exact Hdm].
Qed.

(** X13: [speak] ignores blank text; otherwise, without priority, the audio
    queue keeps the newest [maxsize] texts (the oldest pending one is
    evicted when full), and with priority only the new text is left. *)
Theorem speak_queue_behaviour (q : queue string) (text : string) :
  0 < maxsize q -> (List.length (items q) <= Z.to_nat (maxsize q))%nat ->
  ((text = "" \/ strip text = "") -> forall p, speak strip q text p = q) /\
  (text <> "" -> strip text <> "" ->
   items (speak strip q text false) = Window.lastn (Z.to_nat (maxsize q)) (items q ++ [text]) /\
   items (speak strip q text true) = [text]).
Proof.
  intros Hm Hl. split.
  - intros Hb p. unfold speak.
    destruct Hb as [-> | ->]; [reflexivity|].
    rewrite orb_true_r. reflexivity.
  - intros H1 H2. split; [|apply speak_priority_items; assumption].
    unfold speak.
    destruct (String.eqb_spec text "") as [E|_]; [contradiction|].
    destruct (String.eqb_spec (strip text) "") as [E|_]; [contradiction|].
    cbn [orb]. apply (evict_put_step q text Hm Hl).
Qed.

(** X14: [stop_detection] leaves exactly one pending text in the audio
    queue, "Detección detenida.", whatever was queued before and whatever
    the queue's capacity, so the app reports itself busy. *)
Theorem stop_detection_queue (q : queue string) :
  strip "Detección detenida." <> "" ->
  items (stop_detection strip q) = ["Detección detenida."] /\
  is_busy false (stop_detection strip q) = true.
Proof.
  intros Hs. unfold stop_detection, stop.
  destruct (speak_priority_items (QueueOps.drain q) "Detección detenida.") as [H _];
    [discriminate | exact Hs |].
  split; [exact H|]. unfold is_busy. rewrite H. reflexivity.
Qed.

End AudioMgrProps.

Lemma speak_queue_behaviour_witness :
  0 < maxsize (mkQueue AudioMgr.AUDIO_QUEUE_MAX_SIZE ["a"; "b"; "c"]%string) /\
  (List.length (items (mkQueue AudioMgr.AUDIO_QUEUE_MAX_SIZE ["a"; "b"; "c"]%string))
   <= Z.to_nat (maxsize (mkQueue AudioMgr.AUDIO_QUEUE_MAX_SIZE ["a"; "b"; "c"]%string)))%nat /\
  items (AudioMgr.speak (fun s => s) (mkQueue AudioMgr.AUDIO_QUEUE_MAX_SIZE ["a"; "b"; "c"]%string)
           "d" false) = ["b"; "c"; "d"]%string.
Proof.
  split; [reflexivity|]. split; [simpl; lia|].
  rewrite (proj1 (proj2 (speak_queue_behaviour (fun s => s)
             (mkQueue AudioMgr.AUDIO_QUEUE_MAX_SIZE ["a"; "b"; "c"]%string) "d"
             eq_refl ltac:(simpl; lia)) ltac:(discriminate) ltac:(discriminate))).
  reflexivity.
Defined.

Lemma stop_detection_queue_witness :
  (fun s : string => s) "Detección detenida."%string <> ""%string /\
  items (AudioMgr.stop_detection (fun s => s) (mkQueue 3 ["x"; "y"; "z"]%string))
  = ["Detección detenida."%string].
Proof.
  split; [discriminate|].
  exact (proj1 (stop_detection_queue (fun s => s) (mkQueue 3 ["x"; "y"; "z"]%string)
                  ltac:(discriminate))).
Defined.

Section DescCacheProps.
Import DescCache DescCacheGet.
Local Open Scope string_scope.

Lemma desc_select_app (h : string) (t t' : table) :
  select h (t ++ t')%list = (select h t ++ select h t')%list.
Proof.
  induction t as [|[h' r] t IH]; [reflexivity|]. cbn [app select].
  destruct (String.eqb h h'); rewrite IH; reflexivity.
Qed.

Lemma select_nil_iff (h : string) (t : table) :
  select h t = [] <-> ~ In h (map fst t).
Proof.
  induction t as [|[h' r] t IH]; cbn [select map fst In].
  - tauto.
  - destruct (String.eqb_spec h h') as [->|Hne].
    + split; [discriminate | intros H; exfalso; apply H; left; reflexivity].
    + rewrite IH. split; intros H; [intros [E|E]; [congruence|tauto] | tauto].
Qed.

Lemma map_fst_update_where (h : string) (f : row -> row) (t : table) :
  map fst (update_where h f t) = map fst t.
Proof.
  unfold update_where. rewrite map_map. apply map_ext.
  intros [h' r]. cbn. destruct (String.eqb h h'); reflexivity.
Qed.

Lemma select_update_where_same (h : string) (f : row -> row) (t : table) :
  select h (update_where h f t) = map f (select h t).
Proof.
  induction t as [|[h' r] t IH]; [reflexivity|].
  unfold update_where in *. cbn [map fst snd select].
  destruct (String.eqb h h') eqn:E; cbn [select fst snd]; rewrite ?E, IH; reflexivity.
Qed.

Lemma select_update_where_other (h h' : string) (f : row -> row) (t : table) :
  h' <> h -> select h' (update_where h f t) = select h' t.
Proof.
  intros Hne. induction t as [|[k r] t IH]; [reflexivity|].
  unfold update_where in *. cbn [map fst snd select].
  destruct (String.eqb_spec h k) as [<-|_]; cbn [select fst snd].
  - destruct (String.eqb_spec h' h) as [E|_]; [contradiction|]. exact IH.
  - rewrite IH. reflexivity.
Qed.

Lemma select_nodup (h : string) (t : table) :
  NoDup (map fst t) -> select h t = [] \/ exists r, select h t = [r].
Proof.
  induction t as [|[h' r] t IH]; intros Hn; [left; reflexivity|].
  cbn [map fst] in Hn. apply NoDup_cons_iff in Hn as [Hnin Hn].
  cbn [select]. destruct (String.eqb_spec h h') as [->|_].
  - right. exists r. apply select_nil_iff in Hnin. rewrite Hnin. reflexivity.
  - apply IH, Hn.
Qed.

Lemma select_other_app (h h' : string) (t : table) (r : row) :
  h' <> h -> select h' (t ++ [(h, r)])%list = select h' t.
Proof.
  intros Hne. rewrite desc_select_app. cbn [select].
  destruct (String.eqb_spec h' h) as [E|_]; [contradiction|]. apply app_nil_r.
Qed.

(** The count the upsert leaves on the row of [h]. *)
Definition upsert_count (t : table) (h : string) : Z :=
  match select h t with [] => 1 | r :: _ => uso_count r + 1 end.

Lemma cache_description_select (sup : bool) (t : table) (h d : string) :
  NoDup (map fst t) ->
  NoDup (map fst (cache_description sup t h d)) /\
  select h (cache_description sup t h d) = [mkRow d (upsert_count t h)] /\
  (forall h', h' <> h -> select h' (cache_description sup t h d) = select h' t).
Proof.
  intros Hn. unfold upsert_count.
  destruct (select_nodup h t Hn) as [Hs | [r Hs]].
  - assert (Hcase : cache_description sup t h d = (t ++ [(h, mkRow d 1)])%list).
    { unfold cache_description, cache_description_postgres, cache_description_supabase.
      rewrite Hs. destruct sup; reflexivity. }
    rewrite Hcase, Hs. split; [|split].
    + rewrite map_app. cbn [map fst]. apply NoDup_app; [exact Hn | constructor; [intros []|constructor] |].
      intros x Hx [E|[]]. subst x. apply select_nil_iff in Hs. contradiction.
    + rewrite desc_select_app, Hs. cbn [select]. rewrite String.eqb_refl. reflexivity.
    + intros h' Hne. apply select_other_app, Hne.
  - assert (Hcase : cache_description sup t h d
                    = update_where h (fun r' => mkRow d (uso_count r + 1)) t).
    { unfold cache_description, cache_description_postgres, cache_description_supabase.
      rewrite Hs. destruct sup; [reflexivity|].
      unfold update_where. apply map_ext_in. intros [k r'] Hin. cbn [fst snd].
      destruct (String.eqb_spec h k) as [<-|]; [|reflexivity].
      assert (Hr : In r' (select h t)).
      { clear Hs Hn. induction t as [|[k' r''] t IH]; [destruct Hin|].
        cbn [select]. destruct Hin as [E|Hin].
        - inversion E; subst. rewrite String.eqb_refl. left; reflexivity.
        - destruct (String.eqb h k'); [right|]; apply IH, Hin. }
      rewrite Hs in Hr. destruct Hr as [<-|[]]. reflexivity. }
    rewrite Hcase, Hs. split; [|split].
    + rewrite map_fst_update_where. exact Hn.
    + rewrite select_update_where_same, Hs. reflexivity.
    + intros h' Hne. apply select_update_where_other, Hne.
Qed.

End DescCacheProps.

Section DescCacheGetProps.
Import DescCache DescCacheGet.
Local Open Scope string_scope.

Lemma get_cached_description_spec (sup : bool) (t : table) (h : string) :
  NoDup (map fst t) ->
  (select h t = [] /\ get_cached_description sup t h = (t, None)) \/
  (exists r t', select h t = [r] /\ get_cached_description sup t h = (t', Some (descripcion r)) /\
     select h t' = [mkRow (descripcion r) (uso_count r + 1)] /\ NoDup (map fst t') /\
     (forall h', h' <> h -> select h' t' = select h' t)).
Proof.
  intros Hn. destruct (select_nodup h t Hn) as [Hs | [r Hs]].
  - left. split; [exact Hs|]. unfold get_cached_description, get_cached_description_supabase,
      get_cached_description_postgres. rewrite Hs. destruct sup; reflexivity.
  - right. unfold get_cached_description, get_cached_description_supabase,
      get_cached_description_postgres. rewrite Hs.
    destruct sup; eexists r, _; (split; [reflexivity|]); (split; [reflexivity|]);
      rewrite ?select_update_where_same, ?map_fst_update_where, ?Hs;
      (split; [reflexivity|]); (split; [exact Hn|]);
      intros h' Hne; apply select_update_where_other, Hne.
Qed.

(** X15: after [cache_description h d] on either backend, [get_cached_description h]
    returns [d] and counts one more use on the single row of [h]; the hashes
    stay unique and the rows of other hashes are untouched.  A hash that was
    never cached is answered with [None] and the table is left as it is. *)
Theorem cache_then_get_description (sup : bool) (t : table) (h d : string) :
  NoDup (map fst t) ->
  (~ In h (map fst t) -> get_cached_description sup t h = (t, None)) /\
  let t1 := cache_description sup t h d in
  let '(t2, r) := get_cached_description sup t1 h in
  r = Some d /\ select h t2 = [mkRow d (upsert_count t h + 1)] /\ NoDup (map fst t2) /\
  (forall h', h' <> h -> select h' t2 = select h' t).
Proof.
  intros Hn. split.
  - intros Hnin. apply select_nil_iff in Hnin.
    unfold get_cached_description, get_cached_description_supabase,
      get_cached_description_postgres. rewrite Hnin. destruct sup; reflexivity.
  - cbv zeta. destruct (cache_description_select sup t h d Hn) as [Hn1 [Hs1 Hoth1]].
    destruct (get_cached_description_spec sup (cache_description sup t h d) h Hn1)
      as [[Hs _] | [r [t' [Hs [Hg [Hs' [Hn' Hoth']]]]]]].
    + rewrite Hs1 in Hs. discriminate.
    + rewrite Hg. rewrite Hs1 in Hs. injection Hs as <-. cbn [descripcion uso_count] in *.
      split; [reflexivity|]. split; [exact Hs'|]. split; [exact Hn'|].
      intros h' Hne. rewrite Hoth' by exact Hne. apply Hoth1, Hne.
Qed.

End DescCacheGetProps.

Section LangProps.
Import DescCache DescCacheGet LangAgent.
Local Open Scope string_scope.
Variable D : Type.
Variable to_key : D -> CacheKey.detection.
Variable json_dumps : list CacheKey.norm -> string.
Variable md5_hexdigest : string -> string.
Variable clean_description : string -> string.
Variable simple_description : list D -> string.

Local Abbreviation gen := (generate_description D to_key json_dumps md5_hexdigest
                         clean_description simple_description).
Local Abbreviation hsh := (hash D to_key json_dumps md5_hexdigest).

(** X16: with the cache on and a client, when the model answers a
    non-empty detection list with a text whose cleaned form is not empty,
    the call returns a non-empty text, and asking again for the same
    detections returns that text from the cache, whatever the model would
    answer now (or if it fails), on either backend.  (A cleaned answer that
    is empty is cached as "" and never served: see X17.) *)
Theorem generate_description_served_from_cache
    (ollama ollama' : list D -> bool -> option string) (c : conf) (t : table)
    (detections : list D) (detailed detailed' : bool) (raw : string) :
  cache_on c = true -> has_client c = true -> detections <> [] ->
  NoDup (map fst t) ->
  ollama detections detailed = Some raw -> clean_description raw <> "" ->
  let '(t1, d1) := gen ollama c t detections detailed in
  d1 <> "" /\ snd (gen ollama' c t1 detections detailed') = d1.
Proof.
  intros Hc Hcl Hd Hn Ho Hr. unfold generate_description. rewrite Hc, Hcl.
  destruct detections as [|x xs]; [contradiction|]. rewrite Ho. cbn [negb].
  destruct (get_cached_description_spec (use_supabase c) t (hsh (x :: xs)) Hn)
    as [[Hs Hg] | [r [t' [Hs [Hg [Hs' [Hn' _]]]]]]].
  - rewrite Hg.
    destruct (cache_description_select (use_supabase c) t (hsh (x :: xs))
                (clean_description raw) Hn) as [Hn1 [Hs1 _]].
    split; [exact Hr|].
    destruct (get_cached_description_spec (use_supabase c) _ (hsh (x :: xs)) Hn1)
      as [[Hs2 _] | [r2 [t2 [Hs2 [Hg2 _]]]]]; [rewrite Hs1 in Hs2; discriminate|].
    rewrite Hg2. rewrite Hs1 in Hs2. injection Hs2 as <-. cbn [descripcion].
    destruct (String.eqb_spec (clean_description raw) "") as [E|_]; [contradiction|].
    reflexivity.
  - rewrite Hg. destruct (String.eqb_spec (descripcion r) "") as [E|Hne]; cbn [negb].
    + destruct (cache_description_select (use_supabase c) t' (hsh (x :: xs))
                  (clean_description raw) Hn') as [Hn1 [Hs1 _]].
      split; [exact Hr|].
      destruct (get_cached_description_spec (use_supabase c) _ (hsh (x :: xs)) Hn1)
        as [[Hs2 _] | [r2 [t2 [Hs2 [Hg2 _]]]]]; [rewrite Hs1 in Hs2; discriminate|].
      rewrite Hg2. rewrite Hs1 in Hs2. injection Hs2 as <-. cbn [descripcion].
      destruct (String.eqb_spec (clean_description raw) "") as [E'|_]; [contradiction|].
      reflexivity.
    + split; [exact Hne|].
      destruct (get_cached_description_spec (use_supabase c) t' (hsh (x :: xs)) Hn')
        as [[Hs2 _] | [r2 [t2 [Hs2 [Hg2 _]]]]]; [rewrite Hs' in Hs2; discriminate|].
      rewrite Hg2. rewrite Hs' in Hs2. injection Hs2 as <-. cbn [descripcion].
      destruct (String.eqb_spec (descripcion r) "") as [E'|_]; [contradiction|].
      reflexivity.
Qed.

(** X17: a cached description that is the empty string is never served: the
    text returned is the one the agent would return with the cache off. *)
Theorem generate_description_empty_cache_entry
    (ollama : list D -> bool -> option string) (c : conf) (t : table)
    (detections : list D) (detailed : bool) (r : row) :
  NoDup (map fst t) -> select (hsh detections) t = [r] -> descripcion r = "" ->
  snd (gen ollama c t detections detailed)
  = snd (gen ollama (mkConf false (has_client c) (use_supabase c)) t detections detailed).
Proof.
  intros Hn Hs He. unfold generate_description. cbn [cache_on has_client use_supabase].
  destruct (cache_on c).
  - destruct (get_cached_description_spec (use_supabase c) t (hsh detections) Hn)
      as [[Hs2 _] | [r2 [t2 [Hs2 [Hg2 _]]]]]; [rewrite Hs in Hs2; discriminate|].
    rewrite Hg2. rewrite Hs in Hs2. injection Hs2 as <-. rewrite He. cbn [String.eqb negb].
    destruct detections; [reflexivity|]. destruct (has_client c); [|reflexivity].
    cbn [negb]. destruct (ollama _ _); reflexivity.
  - reflexivity.
Qed.

End LangProps.

Definition x_scene : list CacheKey.detection :=
  [CacheKey.mkDet (Some "chair"%string) (Some (CacheKey.mkBbox (Some 320%Q) (Some 240%Q)))].

Lemma cache_then_get_description_witness :
  NoDup (map fst ([] : DescCache.table)) /\
  (~ In "h"%string (map fst ([] : DescCache.table)) ->
   DescCacheGet.get_cached_description false [] "h" = ([], None)) /\
  let t1 := DescCacheGet.cache_description false [] "h" "Hay una silla." in
  let '(t2, r) := DescCacheGet.get_cached_description false t1 "h" in
  r = Some "Hay una silla."%string /\
  DescCache.select "h" t2 = [DescCache.mkRow "Hay una silla." (upsert_count [] "h" + 1)] /\
  NoDup (map fst t2) /\
  (forall h', h' <> "h"%string -> DescCache.select h' t2 = DescCache.select h' []).
Proof.
  split; [constructor|].
  exact (cache_then_get_description false [] "h" "Hay una silla." (NoDup_nil _)).
Defined.

Lemma generate_description_served_from_cache_witness :
  let gen := LangAgent.generate_description CacheKey.detection (fun d => d)
               (fun _ => "k"%string) (fun s => s) (fun s => s) (fun _ => "simple"%string) in
  let c := LangAgent.mkConf true true false in
  LangAgent.cache_on c = true /\ LangAgent.has_client c = true /\ x_scene <> [] /\
  NoDup (map fst ([] : DescCache.table)) /\
  (fun _ _ => Some "Hay una silla."%string) x_scene false = Some "Hay una silla."%string /\
  "Hay una silla."%string <> ""%string /\
  (let '(t1, d1) := gen (fun _ _ => Some "Hay una silla."%string) c [] x_scene false in
   d1 <> ""%string /\ snd (gen (fun _ _ => None) c t1 x_scene true) = d1).
Proof.
  cbv zeta. split; [reflexivity|]. split; [reflexivity|]. split; [discriminate|].
  split; [constructor|]. split; [reflexivity|]. split; [discriminate|].
  exact (generate_description_served_from_cache CacheKey.detection (fun d => d)
           (fun _ => "k"%string) (fun s => s) (fun s => s) (fun _ => "simple"%string)
           (fun _ _ => Some "Hay una silla."%string) (fun _ _ => None)
           (LangAgent.mkConf true true false) [] x_scene false true "Hay una silla."
           eq_refl eq_refl ltac:(discriminate) (NoDup_nil _) eq_refl ltac:(discriminate)).
Defined.

Lemma generate_description_empty_cache_entry_witness :
  let gen := LangAgent.generate_description CacheKey.detection (fun d => d)
               (fun _ => "k"%string) (fun s => s) (fun s => s) (fun _ => "simple"%string) in
  let t := [("k", DescCache.mkRow "" 3)]%string in
  NoDup (map fst t) /\
  DescCache.select (LangAgent.hash CacheKey.detection (fun d => d) (fun _ => "k"%string)
                      (fun s => s) x_scene) t = [DescCache.mkRow "" 3] /\
  snd (gen (fun _ _ => Some "Hay una silla."%string) (LangAgent.mkConf true true true) t x_scene false)
  = "Hay una silla."%string.
Proof.
  cbv zeta. split; [repeat constructor; intros []|]. split; [reflexivity|].
  rewrite (generate_description_empty_cache_entry CacheKey.detection (fun d => d)
             (fun _ => "k"%string) (fun s => s) (fun s => s) (fun _ => "simple"%string)
             (fun _ _ => Some "Hay una silla."%string) (LangAgent.mkConf true true true)
             [("k", DescCache.mkRow "" 3)]%string x_scene false (DescCache.mkRow "" 3)
             ltac:(repeat constructor; intros []) eq_refl eq_refl).
  reflexivity.
Defined.

Section VisionSProps.
Import VisionS.
Local Open Scope string_scope.
Variable lower : string -> string.

Lemma detect_objects_step (a : agent) (boxes : list detection) :
  model_loaded a = true -> 0 < process_every_n_frames a ->
  detect_objects lower a boxes false
  = (mkAgent true (frame_count a + 1) (process_every_n_frames a),
     Returned (if Z.eqb ((frame_count a + 1) mod process_every_n_frames a) 0
               then rank_detections lower boxes else [])).
Proof.
  intros Hl Hn. unfold detect_objects. rewrite Hl. cbn [negb andb frame_count
    process_every_n_frames model_loaded].
  assert (E0 : Z.eqb (process_every_n_frames a) 0 = false) by (apply Z.eqb_neq; lia).
  rewrite E0. destruct (Z.eqb ((frame_count a + 1) mod process_every_n_frames a) 0);
    reflexivity.
Qed.

Lemma run_schedule_go (a : agent) (calls : list (list detection)) :
  model_loaded a = true -> 0 < process_every_n_frames a ->
  fst (run lower a calls)
  = mkAgent true (frame_count a + Z.of_nat (List.length calls)) (process_every_n_frames a) /\
  forall i boxes, nth_error calls i = Some boxes ->
    nth_error (snd (run lower a calls)) i
    = Some (Returned
              (if Z.eqb ((frame_count a + Z.of_nat i + 1) mod process_every_n_frames a) 0
               then rank_detections lower boxes else [])).
Proof.
  revert a. induction calls as [|b rest IH]; intros a Hl Hn.
  - split.
    + destruct a; cbn in *; subst; f_equal; lia.
    + intros i boxes H. destruct i; discriminate.
  - cbn [run]. rewrite (detect_objects_step a b Hl Hn).
    set (a1 := mkAgent true (frame_count a + 1) (process_every_n_frames a)).
    destruct (IH a1 eq_refl Hn) as [IH1 IH2].
    destruct (run lower a1 rest) as [a'' os] eqn:Er. cbn [fst snd] in IH1, IH2 |- *.
    split.
    + rewrite IH1. unfold a1. cbn [frame_count process_every_n_frames]. f_equal.
      cbn [List.length]. lia.
    + intros [|i] boxes H.
      * cbn in H. injection H as <-. cbn [nth_error]. f_equal. f_equal.
        replace (frame_count a + Z.of_nat 0 + 1) with (frame_count a + 1) by lia. reflexivity.
      * cbn [nth_error] in H |- *. rewrite (IH2 i boxes H). unfold a1.
        cbn [frame_count process_every_n_frames].
        replace (frame_count a + 1 + Z.of_nat i + 1) with (frame_count a + Z.of_nat (S i) + 1)
          by lia. reflexivity.
Qed.

(** X18: after [reset_frame_count] (as [start_detection] does), the app's
    successive [detect_objects(frame)] calls on a loaded model with
    [process_every_n_frames = n > 0] return nothing except on every n-th call:
    call number [i+1] returns the ranked detections of its frame when [n]
    divides [i+1], and [[]] otherwise, whatever the frame shows. *)
Theorem detect_objects_every_nth_call (a : agent) (calls : list (list detection))
    (i : nat) (boxes : list detection) :
  model_loaded a = true -> 0 < process_every_n_frames a ->
  nth_error calls i = Some boxes ->
  nth_error (snd (run lower (reset_frame_count a) calls)) i
  = Some (Returned (if Z.eqb ((Z.of_nat i + 1) mod process_every_n_frames a) 0
                    then rank_detections lower boxes else [])).
Proof.
  intros Hl Hn Hi.
  destruct (run_schedule_go (reset_frame_count a) calls Hl Hn) as [_ H].
  rewrite (H i boxes Hi). reflexivity.
Qed.

Lemma s_key_leb_total (a b : detection) : key_leb a b = false -> key_leb b a = true.
Proof.
  unfold key_leb. intros H. apply Qle_bool_iff. apply Qle_bool_false in H. lra.
Qed.

Lemma s_key_leb_trans (a b c : detection) :
  key_leb a b = true -> key_leb b c = true -> key_leb a c = true.
Proof.
  unfold key_leb. rewrite !Qle_bool_iff. intros H1 H2. lra.
Qed.

Lemma s_insert_perm (a : detection) (l : list detection) :
  Permutation (insert a l) (a :: l).
Proof.
  induction l as [|b r IH]; simpl; [reflexivity|].
  destruct (key_leb a b); [reflexivity|].
  rewrite IH. apply perm_swap.
Qed.

Lemma s_sort_perm (l : list detection) : Permutation (sort l) l.
Proof.
  induction l as [|a r IH]; simpl; [reflexivity|].
  rewrite s_insert_perm, IH. reflexivity.
Qed.

Lemma s_insert_sorted (a : detection) (l : list detection) :
  Sorted (fun x y => key_leb x y = true) l ->
  Sorted (fun x y => key_leb x y = true) (insert a l).
Proof.
  induction 1 as [|b r Hs IH Hhd]; simpl.
  - constructor; constructor.
  - destruct (key_leb a b) eqn:E.
    + constructor; [constructor; assumption | constructor; exact E].
    + constructor; [exact IH|].
      apply s_key_leb_total in E.
      destruct r as [|c r']; simpl; [constructor; exact E|].
      inversion Hhd; subst.
      destruct (key_leb a c); constructor; assumption.
Qed.

Lemma s_sort_sorted (l : list detection) :
  Sorted (fun x y => key_leb x y = true) (sort l).
Proof. induction l; simpl; [constructor | apply s_insert_sorted; assumption]. Qed.

(** X19: the detections [detect_objects] returns when it runs are at most ten
    relevant ones, in non-increasing confidence, and they are the most
    confident: every relevant detection it drops has a confidence no higher
    than any one it keeps. *)
Theorem rank_detections_most_confident (boxes : list detection) :
  exists rest,
    (List.length (rank_detections lower boxes) <= 10)%nat /\
    Permutation (rank_detections lower boxes ++ rest)
      (filter (fun d => is_relevant_object lower (d_name d) (d_confidence d)) boxes) /\
    Sorted (fun x y => (d_confidence y <= d_confidence x)%Q) (rank_detections lower boxes) /\
    (forall x y, In x (rank_detections lower boxes) -> In y rest ->
       (d_confidence y <= d_confidence x)%Q).
Proof.
  unfold rank_detections.
  set (s := sort (filter (fun d => is_relevant_object lower (d_name d) (d_confidence d)) boxes)).
  exists (skipn max_detections s).
  assert (Hss : StronglySorted (fun x y => key_leb x y = true) s).
  { apply Sorted_StronglySorted; [intros x y z; apply s_key_leb_trans | apply s_sort_sorted]. }
  rewrite <- (firstn_skipn max_detections s) in Hss.
  split; [rewrite length_firstn; unfold max_detections; lia|].
  split; [rewrite firstn_skipn; apply s_sort_perm|].
  split.
  - assert (Hs : StronglySorted (fun x y => key_leb x y = true) (firstn max_detections s)).
    { clear - Hss. induction (firstn max_detections s) as [|x r IH]; [constructor|].
      simpl in Hss. inversion Hss as [|? ? H1 H2]; subst. constructor; [now apply IH|].
      rewrite Forall_forall in H2 |- *. intros y Hy. apply H2, in_or_app. now left. }
    apply StronglySorted_Sorted in Hs.
    clear Hss. induction Hs as [|x r Hs IH Hhd]; constructor; [exact IH|].
    destruct Hhd as [|y r' Hy]; constructor. unfold key_leb in Hy.
    apply Qle_bool_iff, Hy.
  - intros x y Hx Hy. apply Qle_bool_iff.
    exact (strongly_sorted_app _ _ _ Hss x y Hx Hy).
Qed.

End VisionSProps.

Definition x_s_person : VisionS.detection :=
  VisionS.mkDetection "person" (9 # 10) 0 (VisionS.mkBbox 100 100 200 300 150 200 100 200).

Definition x_s_calls : list (list VisionS.detection) :=
  [[x_s_person]; [x_s_person]; [x_s_person]; [x_s_person]; [x_s_person]; [x_s_person]].

Lemma detect_objects_every_nth_call_witness :
  VisionS.model_loaded (VisionS.mkAgent true 7 5) = true /\
  0 < VisionS.process_every_n_frames (VisionS.mkAgent true 7 5) /\
  nth_error x_s_calls 4 = Some [x_s_person] /\
  nth_error (snd (VisionS.run (fun s => s) (VisionS.reset_frame_count (VisionS.mkAgent true 7 5))
                    x_s_calls)) 4
  = Some (VisionS.Returned [x_s_person]).
Proof.
  split; [reflexivity|]. split; [reflexivity|]. split; [reflexivity|].
  rewrite (detect_objects_every_nth_call (fun s => s) (VisionS.mkAgent true 7 5) x_s_calls 4
             [x_s_person] eq_refl eq_refl eq_refl).
  vm_compute. reflexivity.
Defined.

Section JsonProps.
Import JsonHelpers JsonInd.

Lemma map_id_in {A} (f : A -> A) (l : list A) :
  (forall x, In x l -> f x = x) -> map f l = l.
Proof.
  induction l as [|x r IH]; intros H; [reflexivity|].
  cbn. rewrite H by (left; reflexivity). rewrite IH; [reflexivity|].
  intros y Hy. apply H. right. exact Hy.
Qed.

Lemma forallb_map_in {A B} (p : B -> bool) (f : A -> B) (l : list A) :
  (forall x, In x l -> p (f x) = true) -> forallb p (map f l) = true.
Proof.
  intros H. apply forallb_forall. intros y Hy. apply in_map_iff in Hy as [x [<- Hx]].
  apply H, Hx.
Qed.

Lemma tolist_clean (a : nd) :
  plain_nd a = true ->
  no_numpy_numbers (tolist a) = true /\
  convert_to_serializable (tolist a) = tolist a.
Proof.
  induction a as [z|q|b|l IH|v|l IH] using nd_ind'; cbn [plain_nd]; intros Hp;
    try discriminate; try (split; reflexivity).
  rewrite Forall_forall in IH. rewrite forallb_forall in Hp.
  cbn [tolist no_numpy_numbers convert_to_serializable]. split.
  - apply forallb_map_in. intros y Hy. apply (IH y Hy (Hp y Hy)).
  - f_equal. rewrite map_map.
    apply map_ext_in. intros y Hy. apply (IH y Hy (Hp y Hy)).
Qed.

Lemma convert_clean_id (v : pyval) :
  no_numpy_numbers v = true -> convert_to_serializable v = v.
Proof.
  induction v as [z|q|b|s| |z|q|b|a|kvs IH|l IH|l IH|l IH] using pyval_ind';
    cbn [no_numpy_numbers convert_to_serializable]; intros Hc;
    try reflexivity; try discriminate.
  - rewrite Forall_forall in IH. rewrite forallb_forall in Hc. f_equal.
    apply map_id_in. intros [k x] Hx. cbn [fst snd].
    pose proof (IH (k, x) Hx (Hc (k, x) Hx)) as E. cbn [snd] in E.
    rewrite E. reflexivity.
  - rewrite Forall_forall in IH. rewrite forallb_forall in Hc. f_equal.
    apply map_id_in. intros x Hx. apply (IH x Hx (Hc x Hx)).
Qed.

Lemma convert_cleanly (v : pyval) :
  converts_cleanly v = true -> no_numpy_numbers (convert_to_serializable v) = true.
Proof.
  induction v as [z|q|b|s| |z|q|b|a|kvs IH|l IH|l IH|l IH] using pyval_ind';
    cbn [converts_cleanly convert_to_serializable]; intros Hc;
    try reflexivity.
  - apply (tolist_clean a Hc).
  - rewrite Forall_forall in IH. rewrite forallb_forall in Hc.
    cbn [no_numpy_numbers]. apply forallb_map_in. intros [k x] Hx. cbn [snd].
    apply (IH (k, x) Hx (Hc (k, x) Hx)).
  - rewrite Forall_forall in IH. rewrite forallb_forall in Hc.
    cbn [no_numpy_numbers]. apply forallb_map_in. intros x Hx. apply (IH x Hx (Hc x Hx)).
  - rewrite Forall_forall in IH. rewrite forallb_forall in Hc.
    cbn [no_numpy_numbers]. apply forallb_map_in. intros x Hx. apply (IH x Hx (Hc x Hx)).
  - exact Hc.
Qed.

(** X20: [convert_to_serializable] changes nothing in a value with no numpy
    integer, float or array and no tuple; keeps dict keys as they are, in
    order; passes numpy booleans and sets through unconverted.  When every
    array it reaches holds numbers or booleans only (no structured or
    object array) and the sets it meets hold no numpy value or tuple, the
    result has no numpy integer, float or array and no tuple, and applying
    the converter twice is applying it once. *)
Theorem convert_to_serializable_normalizes (v : pyval) :
  (no_numpy_numbers v = true -> convert_to_serializable v = v) /\
  (forall kvs, v = PDict kvs ->
     exists kvs', convert_to_serializable v = PDict kvs' /\ map fst kvs' = map fst kvs) /\
  (forall b, v = NpBool b -> convert_to_serializable v = NpBool b) /\
  (forall l, v = PSet l -> convert_to_serializable v = v) /\
  (converts_cleanly v = true ->
   no_numpy_numbers (convert_to_serializable v) = true /\
   convert_to_serializable (convert_to_serializable v) = convert_to_serializable v).
Proof.
  split; [apply convert_clean_id|].
  split.
  { intros kvs ->. cbn [convert_to_serializable]. eexists; split; [reflexivity|].
    rewrite map_map. reflexivity. }
  split; [intros b ->; reflexivity|].
  split; [intros l ->; reflexivity|].
  intros Hc. pose proof (convert_cleanly v Hc) as H.
  split; [exact H | apply convert_clean_id, H].
Qed.

(** A structured array [np.array([(1, 2.0)], dtype=[('a', 'i4'), ('b', 'f8')])]
    gives a list of tuples, which a second conversion turns into lists; an
    object array holding [np.int64(7)] keeps it. *)
Example x_structured_array :
  convert_to_serializable (NdArray (NdArr [NdRec [NdInt 1; NdFloat 2]]))
  = PList [PTuple [PInt 1; PFloat 2]] /\
  convert_to_serializable (convert_to_serializable
    (NdArray (NdArr [NdRec [NdInt 1; NdFloat 2]])))
  = PList [PList [PInt 1; PFloat 2]] /\
  convert_to_serializable (NdArray (NdArr [NdObj (NpInt 7)])) = PList [NpInt 7].
Proof. repeat split; reflexivity. Qed.

End JsonProps.

Section StopProps.
Local Open Scope string_scope.
Variable lower strip : string -> string.

Lemma announce_all_disabled (st : VoiceN.vstate) (calls : list (string * string * Q)) :
  VoiceN.v_enabled st = false -> VoiceN.announce_all lower strip st calls = st.
Proof.
  intros He. unfold VoiceN.announce_all. revert st He.
  induction calls as [|[[n t] now] r IH]; intros st He; [reflexivity|].
  cbn [fold_left]. unfold VoiceN.announce_close_object at 2. rewrite He. cbn [negb].
  apply IH, He.
Qed.

Lemma fold_process_detection_disabled (cfg : Alert.config) (dets : list VisionN.detection)
    (s : Pipeline.pstate) :
  Alert.enabled (Pipeline.p_alert s) = false ->
  Pipeline.p_alert (fold_left (Pipeline.process_detection lower cfg) dets s) = Pipeline.p_alert s.
Proof.
  revert s. induction dets as [|d r IH]; intros s He; [reflexivity|].
  cbn [fold_left].
  assert (E : Pipeline.p_alert (Pipeline.process_detection lower cfg s d) = Pipeline.p_alert s).
  { unfold Pipeline.process_detection. cbn [Pipeline.p_alert].
    unfold Alert.alert_obstacle. rewrite He. reflexivity. }
  rewrite IH; rewrite E; [reflexivity | exact He].
Qed.

Lemma voice_stop_state (st : VoiceN.vstate) :
  VoiceN.v_enabled (VoiceCtl.stop st) = false /\
  items (VoiceN.v_queue (VoiceCtl.stop st)) = [].
Proof.
  unfold VoiceCtl.stop, VoiceCtl.set_enabled. cbn. split; [reflexivity|].
  apply drain_items.
Qed.

(** X21: [ObstacleAssistant.stop()] on a running assistant empties the alert
    queue and the voice queue; any frame still being processed afterwards
    queues no alert, and any announcement it makes changes nothing in the
    announcer; a second [stop()] does nothing. *)
Theorem assistant_stop_silences (s : AssistantStop.astate) (cfg : Alert.config)
    (gui : queue (VisionN.detection * string)) (dets : list VisionN.detection)
    (calls : list (string * string * Q)) :
  AssistantStop.a_running s = true ->
  let s' := AssistantStop.stop s in
  AssistantStop.a_running s' = false /\
  items (Alert.alert_queue (AssistantStop.a_alert s')) = [] /\
  items (VoiceN.v_queue (AssistantStop.a_voice s')) = [] /\
  Pipeline.p_alert (Pipeline.process_frame lower cfg (AssistantStop.a_alert s') gui dets)
  = AssistantStop.a_alert s' /\
  VoiceN.announce_all lower strip (AssistantStop.a_voice s') calls = AssistantStop.a_voice s' /\
  AssistantStop.stop s' = s'.
Proof.
  intros Hr s'. unfold s', AssistantStop.stop. rewrite Hr. cbn [negb AssistantStop.a_running
    AssistantStop.a_alert AssistantStop.a_voice].
  destruct (stop_state (AssistantStop.a_alert s)) as [Ha Hqa].
  destruct (voice_stop_state (AssistantStop.a_voice s)) as [Hv Hqv].
  split; [reflexivity|]. split; [exact Hqa|]. split; [exact Hqv|].
  split; [unfold Pipeline.process_frame; apply fold_process_detection_disabled; exact Ha|].
  split; [apply announce_all_disabled; exact Hv | reflexivity].
Qed.

End StopProps.

Definition x_running : AssistantStop.astate :=
  AssistantStop.mkA true (Alert.enqueue (Alert.init Alert.default_config) x_obstacle_msg)
    x_voice_state.

Lemma assistant_stop_silences_witness :
  AssistantStop.a_running x_running = true /\
  items (Alert.alert_queue (AssistantStop.a_alert (AssistantStop.stop x_running))) = [] /\
  items (VoiceN.v_queue (AssistantStop.a_voice (AssistantStop.stop x_running))) = [].
Proof.
  split; [reflexivity|].
  destruct (assistant_stop_silences (fun s => s) (fun s => s) x_running Alert.default_config
              (new 10) [] [] eq_refl) as [_ [H1 [H2 _]]].
  split; [exact H1 | exact H2].
Defined.

Section SpeechProps.
Import Browser BrowserSpeech.

Lemma speak_arg_last (s : session) (i : cycle_input) :
  match speak_arg s i with
  | Some d => last_description (fst (process_cycle s i)) = d /\ d <> last_description s
  | None => last_description (fst (process_cycle s i)) = last_description s
  end.
Proof.
  unfold speak_arg, process_cycle.
  destruct (Qle_bool 3 (now i - last_detection_time s)); cbn [fst]; [|reflexivity].
  destruct (negb _ || noise_info i); [|reflexivity].
  destruct (description i) as [d|]; [|reflexivity].
  destruct (String.eqb_spec d (last_description s)) as [E|E]; cbn [negb];
    [reflexivity | split; [reflexivity | exact E]].
Qed.

Lemma no_repeat_twice (x a : string) (pre post : list string) :
  no_repeat x (pre ++ a :: a :: post) -> False.
Proof.
  revert x. induction pre as [|y r IH]; intros x H; cbn in H.
  - destruct H as [_ [H _]]. apply H. reflexivity.
  - destruct H as [_ H]. exact (IH y H).
Qed.

Lemma blank_speak (strip : string -> string) (q : queue string) (d : string) (priority : bool) :
  blank strip d = true -> AudioMgr.speak strip q d priority = q.
Proof. unfold blank, AudioMgr.speak. intros ->. reflexivity. Qed.

(** X22: along any run of detection cycles of the browser app, [speak] is
    never called twice in a row with the same description: each text passed
    to it differs from the one passed before it, and the first from the
    session's [last_description].  [speak] queues only the non-blank texts,
    so two texts queued one after the other are equal only when a blank
    description, which it drops, was passed to it between them. *)
Theorem speak_calls_never_repeat (strip : string -> string) (s : session)
    (l : list cycle_input) :
  no_repeat (last_description s) (run_speak_args s l) /\
  (forall pre mid post a,
     run_speak_args s l = pre ++ a :: mid ++ a :: post ->
     blank strip a = false -> Forall (fun d => blank strip d = true) mid ->
     mid <> [] /\ forall q, fold_left (fun q d => AudioMgr.speak strip q d false) mid q = q).
Proof.
  assert (H : forall s, no_repeat (last_description s) (run_speak_args s l)).
  { induction l as [|i r IH]; intros s0; [exact I|].
    cbn [run_speak_args]. generalize (speak_arg_last s0 i).
    destruct (speak_arg s0 i) as [d|].
    - intros [E1 E2]. split; [congruence|]. rewrite <- E1. apply IH.
    - intros E. rewrite <- E. apply IH. }
  split; [apply H|].
  intros pre mid post a E _ Hb. split.
  - intros ->. cbn in E. apply (no_repeat_twice (last_description s) a pre post).
    rewrite <- E. apply H.
  - clear E. induction Hb as [|d m Hd _ IH]; intros q; [reflexivity|].
    cbn [fold_left]. rewrite blank_speak by exact Hd. apply IH.
Qed.

(** Three passes 3 s apart whose descriptions are "A", "" and "A": all
    three are passed to [speak], which queues "A" twice. *)
Example x_speak_args_blank_between :
  run_speak_args (mkSession 0 "")
    [mkInput 3 ["person"%string] false (Some "A"%string);
     mkInput 6 ["person"%string] false (Some ""%string);
     mkInput 9 ["person"%string] false (Some "A"%string)]
  = ["A"; ""; "A"]%string.
Proof. vm_compute. reflexivity. Qed.

End SpeechProps.
